(** * CSV data validator: the validation-and-cleaning engine

    A shallow embedding of [validator.py], [cleaner.py] and
    [tableau_prep.py].  The three classes work on a pandas [DataFrame];
    the part of pandas they rely on is modelled in [Module Pandas]:

    - a frame is an ordered list of named, typed columns and an ordered
      list of rows, each row carrying its index label (labels survive the
      removal of other rows, which [fix_invalid_values] depends on);
    - floating-point numbers are modelled by exact rationals ([Q]) and
      [NaN]/[None]/[NaT] by the single null cell [NA]; a standard deviation
      is represented by its square (the sample variance), and comparisons of
      a z-score with a threshold are decided on the squares;
    - strings are byte strings, case operations act on ASCII letters;
    - an exception raised by Python is the [Raise] outcome of the state and
      error monad [py]; objects that are mutated in place live in an
      explicit heap of frames. *)

From Stdlib Require Import QArith Ascii Reals Qreals Lra.
From stdpp Require Import base numbers gmap strings list sorting pretty.

Close Scope Q_scope.
#[local] Open Scope string_scope.
#[local] Open Scope list_scope.

(* ===================================================================== *)
(** * Python outcomes: a state and error monad *)
(* ===================================================================== *)

Module Py.

Inductive exn :=
| KeyError (k : string)
| TypeError
| ValueError
| ZeroDivisionError
| DanglingReference.

Inductive result (A : Type) :=
| Ok (a : A)
| Raise (e : exn).
Arguments Ok {A} a.
Arguments Raise {A} e.

(** A method body: reads and writes the state [S] and either returns a
    value or raises; the state reached at a [Raise] is the state at the
    point of the exception (nothing is rolled back). *)
Definition py (S A : Type) : Type := S → S * result A.

Definition ret {S A} (a : A) : py S A := λ s, (s, Ok a).
Definition raise {S A} (e : exn) : py S A := λ s, (s, Raise e).
Definition bind {S A B} (m : py S A) (k : A → py S B) : py S B :=
  λ s, match m s with
       | (s', Ok a) => k a s'
       | (s', Raise e) => (s', Raise e)
       end.
Definition get {S} : py S S := λ s, (s, Ok s).
Definition lift {S A} (r : result A) : py S A := λ s, (s, r).

(** [for x in l: body x] *)
Fixpoint for_each {S A} (l : list A) (body : A → py S unit) : py S unit :=
  match l with
  | [] => ret tt
  | x :: l' => bind (body x) (λ _, for_each l' body)
  end.

(** [if b: body] *)
Definition when {S} (b : bool) (body : py S unit) : py S unit :=
  if b then body else ret tt.

End Py.
Export Py.

#[global] Instance py_ret {S} : MRet (py S) := λ A, @ret S A.
#[global] Instance py_bind {S} : MBind (py S) := λ A B k m, @bind S A B m k.

(* ===================================================================== *)
(** * The part of pandas the engine uses *)
(* ===================================================================== *)

Module Pandas.

(** ** Cells, dtypes, frames *)

Inductive cell :=
| NA
| VInt (z : Z)
| VFloat (q : Q)
| VStr (s : string)
| VBool (b : bool)
| VDate (t : Z).

Inductive dtype := int64 | float64 | object | bool_ | datetime64.

Definition dtype_eqb (a b : dtype) : bool :=
  match a, b with
  | int64, int64 | float64, float64 | object, object
  | bool_, bool_ | datetime64, datetime64 => true
  | _, _ => false
  end.

(** [str(dtype)] *)
Definition dtype_str (d : dtype) : string :=
  match d with
  | int64 => "int64"
  | float64 => "float64"
  | object => "object"
  | bool_ => "bool"
  | datetime64 => "datetime64[ns]"
  end.

Record row := Row { label : Z; cells : list cell }.

Record DataFrame := Frame {
  columns : list (string * dtype);
  rows : list row
}.

(** [len(df)] *)
Definition len (d : DataFrame) : nat := length (rows d).

(** [df.columns] as names *)
Definition column_names (d : DataFrame) : list string := (columns d).*1.

(** [df.index] *)
Definition index (d : DataFrame) : list Z := label <$> rows d.

(** Position of the first column called [c]. *)
Fixpoint col_pos (c : string) (cols : list (string * dtype)) : option nat :=
  match cols with
  | [] => None
  | (n, _) :: cols' =>
      if String.eqb n c then Some O else S <$> col_pos c cols'
  end.

(** [column in df.columns] *)
Definition has_column (d : DataFrame) (c : string) : bool :=
  bool_decide (is_Some (col_pos c (columns d))).

Definition cell_at (i : nat) (r : row) : cell := default NA (cells r !! i).

(** [df[column]]: the values of a column in row order ([[]] for a column
    that is not there; callers test for it first). *)
Definition series (d : DataFrame) (c : string) : list cell :=
  match col_pos c (columns d) with
  | Some i => cell_at i <$> rows d
  | None => []
  end.

(** [df[column].dtype] *)
Definition dtype_of (d : DataFrame) (c : string) : dtype :=
  match col_pos c (columns d) with
  | Some i => default object (snd <$> columns d !! i)
  | None => object
  end.

(** [pd.isnull] / [pd.notna] on a cell *)
Definition isnull (c : cell) : bool :=
  match c with NA => true | _ => false end.
Definition notna (c : cell) : bool := negb (isnull c).

(** [s.isnull().sum()] *)
Definition null_count (s : list cell) : nat := length (filter (λ c, isnull c = true) s).

(** [s.dropna()] *)
Definition dropna_cells (s : list cell) : list cell := filter (λ c, isnull c = false) s.

(** ** Equality of values, as used by [duplicated], [nunique] and [mode]

    Two cells are equal when both are null, or both are numbers of equal
    value ([1 == 1.0 == True] in Python), or the same string, or the same
    instant. *)

Inductive key := KNull | KNum (q : Q) | KStr (s : string) | KDate (t : Z).

Definition cell_key (c : cell) : key :=
  match c with
  | NA => KNull
  | VInt z => KNum (inject_Z z)
  | VFloat q => KNum q
  | VStr s => KStr s
  | VBool b => KNum (if b then 1%Q else 0%Q)
  | VDate t => KDate t
  end.

Definition key_eqb (a b : key) : bool :=
  match a, b with
  | KNull, KNull => true
  | KNum p, KNum q => Qeq_bool p q
  | KStr s, KStr t => String.eqb s t
  | KDate s, KDate t => Z.eqb s t
  | _, _ => false
  end.

Definition cell_eqb (a b : cell) : bool := key_eqb (cell_key a) (cell_key b).

Fixpoint cells_eqb (r1 r2 : list cell) : bool :=
  match r1, r2 with
  | [], [] => true
  | a :: r1', b :: r2' => cell_eqb a b && cells_eqb r1' r2'
  | _, _ => false
  end.

(** ** Boolean indexing and duplicates *)

(** [df[mask]] on the rows: keeps the rows whose mask entry is [True]. *)
Fixpoint mask_rows (mask : list bool) (rs : list row) : list row :=
  match mask, rs with
  | b :: mask', r :: rs' =>
      if b then r :: mask_rows mask' rs' else mask_rows mask' rs'
  | _, _ => []
  end.

Definition boolean_index (d : DataFrame) (mask : list bool) : DataFrame :=
  Frame (columns d) (mask_rows mask (rows d)).

(** A row is marked when an equal row was seen before it. *)
Fixpoint seen_before (seen : list (list cell)) (rs : list row) : list bool :=
  match rs with
  | [] => []
  | r :: rs' =>
      existsb (cells_eqb (cells r)) seen :: seen_before (cells r :: seen) rs'
  end.

Inductive keep_t := keep_first | keep_last | keep_False.

(** [df.duplicated(keep=...)] on the rows *)
Definition duplicated_rows (keep : keep_t) (rs : list row) : list bool :=
  match keep with
  | keep_first => seen_before [] rs
  | keep_last => reverse (seen_before [] (reverse rs))
  | keep_False =>
      zip_with orb (seen_before [] rs) (reverse (seen_before [] (reverse rs)))
  end.

Definition duplicated (keep : keep_t) (d : DataFrame) : list bool :=
  duplicated_rows keep (rows d).

(** The [keep] argument as the caller writes it: a string; pandas raises
    [ValueError] for anything but ['first'], ['last'] and [False]. *)
Definition parse_keep (keep : string) : result keep_t :=
  if String.eqb keep "first" then Ok keep_first
  else if String.eqb keep "last" then Ok keep_last
  else Raise ValueError.

(** [df.drop_duplicates(keep=keep)]: a new frame *)
Definition drop_duplicates (keep : keep_t) (d : DataFrame) : DataFrame :=
  boolean_index d (negb <$> duplicated keep d).

(** the rows that [keep='first'] keeps among [rs] when the rows [seen] came
    before them *)
Definition kept (seen : list (list cell)) (rs : list row) : list row :=
  mask_rows (negb <$> seen_before seen rs) rs.

(** [r] equals none of the rows [seen] *)
Definition unseen (seen : list (list cell)) (r : row) : Prop :=
  existsb (cells_eqb (cells r)) seen = false.

(** [r'], met after [r], does not equal it *)
Definition differs (r r' : row) : Prop := cells_eqb (cells r') (cells r) = false.

(** ** Numbers *)

Definition Qlt_bool (a b : Q) : bool := negb (Qle_bool b a).

Definition Qsum (l : list Q) : Q := foldr Qplus 0%Q l.

(** A cell as a number, for [mean], [std] and the scores: [None] inside
    for a null; [TypeError] for a string, on which the arithmetic fails.
    Timestamps are kept out of the numbers of this model as well. *)
Definition as_number (c : cell) : result (option Q) :=
  match c with
  | NA => Ok None
  | VInt z => Ok (Some (inject_Z z))
  | VFloat q => Ok (Some q)
  | VBool b => Ok (Some (if b then 1%Q else 0%Q))
  | VStr _ | VDate _ => Raise TypeError
  end.

Fixpoint as_numbers (s : list cell) : result (list (option Q)) :=
  match s with
  | [] => Ok []
  | c :: s' =>
      match as_number c, as_numbers s' with
      | Ok x, Ok xs => Ok (x :: xs)
      | Raise e, _ => Raise e
      | _, Raise e => Raise e
      end
  end.

(** the non-null numbers of a column *)
Definition present (xs : list (option Q)) : list Q := omap (λ x, x) xs.

(** [s.mean()], nulls skipped; [None] is [NaN] (no value at all). *)
Definition mean (xs : list (option Q)) : option Q :=
  match present xs with
  | [] => None
  | ys => Some (Qred (Qsum ys / inject_Z (Z.of_nat (length ys))))
  end.

(** The square of [s.std()]: the sample variance (pandas divides by
    [n - 1]); [None] is [NaN], for fewer than two values. *)
Definition std_squared (xs : list (option Q)) : option Q :=
  let ys := present xs in
  match mean xs with
  | Some m =>
      if (length ys <? 2)%nat then None
      else Some (Qred (Qsum ((λ y, (y - m) * (y - m))%Q <$> ys)
                       / inject_Z (Z.of_nat (length ys) - 1)))
  | None => None
  end.

(** [std == 0] *)
Definition std_is_zero (v : option Q) : bool :=
  match v with
  | Some q => Qeq_bool q 0
  | None => false
  end.

(** [np.abs((x - mean) / std) > threshold], where [std] is the square root
    of [v]; a comparison with [NaN] on either side is [False]. *)
Definition zscore_gt (x m v : option Q) (threshold : Q) : bool :=
  match x, m, v with
  | Some x, Some m, Some v =>
      if Qlt_bool threshold 0 then true
      else Qlt_bool (threshold * threshold * v) ((x - m) * (x - m))
  | _, _, _ => false
  end.

(** [np.abs((x - mean) / std) <= threshold] *)
Definition zscore_le (x m v : option Q) (threshold : Q) : bool :=
  match x, m, v with
  | Some x, Some m, Some v =>
      if Qlt_bool threshold 0 then false
      else Qle_bool ((x - m) * (x - m)) (threshold * threshold * v)
  | _, _, _ => false
  end.

(** [a / b] on Python integers *)
Definition true_div (a b : nat) : result Q :=
  match b with
  | O => Raise ZeroDivisionError
  | _ => Ok (inject_Z (Z.of_nat a) / inject_Z (Z.of_nat b))%Q
  end.

(** Rounding to the nearest integer, ties to even. *)
Definition round_half_even (q : Q) : Z :=
  let n := Qnum q in
  let d := Z.pos (Qden q) in
  let fl := (n `div` d)%Z in
  let r2 := (2 * (n `mod` d))%Z in
  if (r2 <? d)%Z then fl
  else if (d <? r2)%Z then (fl + 1)%Z
  else if Z.even fl then fl else (fl + 1)%Z.

(** [round(x, 2)] *)
Definition round2 (q : Q) : Q := Qred (inject_Z (round_half_even (q * 100)) / 100).

(** [f"{x:.2f}"]; [None] is [NaN], printed [nan]. *)
Definition format_2f (x : option Q) : string :=
  match x with
  | None => "nan"
  | Some q =>
      let h := Z.abs (round_half_even (q * 100)) in
      let frac := (h `mod` 100)%Z in
      (if Qlt_bool q 0 then "-" else "")
        +:+ pretty (h `div` 100)%Z +:+ "."
        +:+ (if (frac <? 10)%Z then "0" else "") +:+ pretty frac
  end.

(** ** Storing a value into a column *)

(** The dtype a column has after [v] is stored into it: pandas keeps the
    dtype when the value fits and widens it otherwise. *)
Definition upcast (dt : dtype) (v : cell) : dtype :=
  match dt, v with
  | int64, VInt _ => int64
  | int64, (VFloat _ | NA) => float64
  | float64, (VInt _ | VFloat _ | NA) => float64
  | bool_, VBool _ => bool_
  | datetime64, (VDate _ | NA) => datetime64
  | _, _ => object
  end.

(** The value as it is held by a column of dtype [dt]. *)
Definition coerce (dt : dtype) (v : cell) : cell :=
  match dt, v with
  | float64, VInt z => VFloat (inject_Z z)
  | _, _ => v
  end.

(** The dtype of a column created for [v] with nulls in the other rows. *)
Definition new_column_dtype (v : cell) : dtype :=
  match v with
  | VInt _ | VFloat _ | NA => float64
  | VDate _ => datetime64
  | VStr _ | VBool _ => object
  end.

(** [s.fillna(v)] *)
Definition fillna (v : cell) (s : list cell) : list cell :=
  (λ c, if isnull c then v else c) <$> s.

Definition set_cell (i : nat) (v : cell) (r : row) : row :=
  Row (label r) (<[i := v]> (cells r)).

Fixpoint set_cells (i : nat) (vs : list cell) (rs : list row) : list row :=
  match vs, rs with
  | v :: vs', r :: rs' => set_cell i v r :: set_cells i vs' rs'
  | _, _ => rs
  end.

Definition set_dtype (i : nat) (dt : dtype) (cols : list (string * dtype))
  : list (string * dtype) :=
  match cols !! i with
  | Some (n, _) => <[i := (n, dt)]> cols
  | None => cols
  end.

Definition append_cell (v : cell) (r : row) : row :=
  Row (label r) (cells r ++ [v]).

(** [df[column] = values] with [values] of dtype [dt]: replaces the column
    in place, or adds it as the last column. *)
Definition set_column (c : string) (dt : dtype) (vs : list cell) (d : DataFrame)
  : DataFrame :=
  match col_pos c (columns d) with
  | Some i => Frame (set_dtype i dt (columns d)) (set_cells i vs (rows d))
  | None =>
      Frame (columns d ++ [(c, dt)])
            (zip_with append_cell (vs ++ replicate (len d - length vs) NA) (rows d))
  end.

(** [df.at[idx, column] = v].  For a column that is there, the cell of
    every row labelled [idx] is overwritten and the dtype widened when [v]
    does not fit.  For a column that is not there pandas falls back to
    [df.loc[idx, column] = v], which enlarges the frame: the column is
    added, null in every other row. *)
Definition at_set (idx : Z) (c : string) (v : cell) (d : DataFrame) : DataFrame :=
  match col_pos c (columns d) with
  | Some i =>
      let dt := upcast (dtype_of d c) v in
      Frame (set_dtype i dt (columns d))
            ((λ r, if bool_decide (label r = idx)
                   then set_cell i (coerce dt v) r
                   else set_cell i (coerce dt (cell_at i r)) r) <$> rows d)
  | None =>
      let dt := new_column_dtype v in
      Frame (columns d ++ [(c, dt)])
            ((λ r, append_cell (if bool_decide (label r = idx)
                                then coerce dt v else NA) r) <$> rows d)
  end.

(** [df.dropna(subset=[column])]: a new frame *)
Definition dropna_subset (c : string) (d : DataFrame) : DataFrame :=
  boolean_index d (notna <$> series d c).

(** ** Median and mode *)

#[global] Instance Qle_dec : RelDecision Qle :=
  λ x y, decide (Qnum x * QDen y ≤ Qnum y * QDen x)%Z.

Definition Qsorted (l : list Q) : list Q := merge_sort Qle l.

(** [s.median()], nulls skipped *)
Definition median (xs : list (option Q)) : option Q :=
  let ys := Qsorted (present xs) in
  let n := length ys in
  if (n =? 0)%nat then None
  else if Nat.even n
       then match ys !! (n / 2 - 1)%nat, ys !! (n / 2)%nat with
            | Some a, Some b => Some (Qred ((a + b) / 2))
            | _, _ => None
            end
       else ys !! (n / 2)%nat.

Definition count_eq (c : cell) (s : list cell) : nat :=
  length (filter (λ x, cell_eqb c x = true) s).

(** [s.unique()]: the distinct values in order of first appearance *)
Fixpoint unique (s : list cell) : list cell :=
  match s with
  | [] => []
  | c :: s' => c :: filter (λ x, cell_eqb c x = false) (unique s')
  end.

(** [s.nunique()]: nulls are not counted *)
Definition nunique (s : list cell) : nat := length (unique (dropna_cells s)).

Definition key_leb (a b : key) : bool :=
  match a, b with
  | KNum p, KNum q => Qle_bool p q
  | KStr s, KStr t => String.leb s t
  | KDate s, KDate t => (s <=? t)%Z
  | _, _ => false
  end.

Definition cell_leb (a b : cell) : bool := key_leb (cell_key a) (cell_key b).

Definition cell_le (a b : cell) : Prop := cell_leb a b = true.
#[global] Instance cell_le_dec : RelDecision cell_le :=
  λ a b, decide (cell_leb a b = true).

Definition same_kind (a b : key) : bool :=
  match a, b with
  | KNum _, KNum _ | KStr _, KStr _ | KDate _, KDate _ | KNull, KNull => true
  | _, _ => false
  end.

(** [s.mode()]: the most frequent non-null values, sorted; values that
    cannot be ordered against each other are left in order of appearance. *)
Definition mode (s : list cell) : list cell :=
  let xs := dropna_cells s in
  let u := unique xs in
  let top := max_list ((λ c, count_eq c xs) <$> u) in
  let ms := filter (λ c, count_eq c xs = top) u in
  match ms with
  | [] => []
  | m :: _ =>
      if forallb (λ c, same_kind (cell_key m) (cell_key c)) ms
      then merge_sort cell_le ms
      else ms
  end.

(** ** What the library does to text and dates

    The behaviour of [str] on floats and timestamps and of the date and
    number parsers is pandas', not this repository's; it is a parameter
    of the development. *)
Class Library := {
  (** [str(x)] for a float *)
  repr_float : Q → string;
  (** [str(x)] for a timestamp *)
  str_timestamp : Z → string;
  (** [pd.to_datetime(value)] on one value; [None] when it raises *)
  to_datetime : cell → option Z;
  (** [pd.to_datetime(series, errors='coerce')]; [None] when it raises *)
  to_datetime_coerce : list cell → option (list cell);
  (** [pd.to_numeric(series, errors='coerce')] with the dtype of the
      result; [None] when it raises *)
  to_numeric_coerce : list cell → option (dtype * list cell)
}.

(** [str(value)] *)
Definition py_str `{Library} (c : cell) : string :=
  match c with
  | NA => "nan"
  | VInt z => pretty z
  | VFloat q => repr_float q
  | VStr s => s
  | VBool b => if b then "True" else "False"
  | VDate t => str_timestamp t
  end.

(** [set(s.dropna().astype(str).unique())], as the list of its elements
    (a Python set has no order of its own; the elements are listed once
    each) *)
Definition unique_strings `{Library} (s : list cell) : list string :=
  remove_dups (py_str <$> dropna_cells s).

(** A frame as pandas builds it: every row has one cell per column and
    every cell is of the kind its column's dtype stores ([object] columns
    hold anything). *)
Definition fits (dt : dtype) (c : cell) : bool :=
  match dt, c with
  | int64, VInt _ => true
  | float64, (VFloat _ | NA) => true
  | bool_, VBool _ => true
  | datetime64, (VDate _ | NA) => true
  | object, _ => true
  | _, _ => false
  end.

Fixpoint row_fits (cols : list (string * dtype)) (cs : list cell) : bool :=
  match cols, cs with
  | [], [] => true
  | (_, dt) :: cols', c :: cs' => fits dt c && row_fits cols' cs'
  | _, _ => false
  end.

Definition well_formed (d : DataFrame) : bool :=
  bool_decide (NoDup (column_names d))
  && forallb (λ r, row_fits (columns d) (cells r)) (rows d).

(** every row has one cell per column *)
Definition rectangular (d : DataFrame) : bool :=
  forallb (λ r, (length (cells r) =? length (columns d))%nat) (rows d).

End Pandas.
Export Pandas.

(* ===================================================================== *)
(** * Objects: frames on a heap, and a component holding one *)
(* ===================================================================== *)

Module Objects.

Definition loc := positive.

(** A [DataCleaner] or a [TableauPrep] as the interpreter sees it: the heap
    of frame objects, the reference held in [self.df], and the log list
    ([self.cleaning_log], [self.prep_log]). The caller's frame is another
    object of the same heap. *)
Record component := Component {
  heap : gmap loc DataFrame;
  df : loc;
  log : list string
}.

(** [__init__(self, df)]: [self.df = df.copy()] allocates a new object
    holding the same contents; the log starts empty. *)
Definition construct (h : gmap loc DataFrame) (orig : loc) : option component :=
  match h !! orig with
  | Some d =>
      let l := fresh (dom h) in
      Some (Component (<[l := d]> h) l [])
  | None => None
  end.

(** reading [self.df] *)
Definition self_df : py component DataFrame :=
  λ s, match heap s !! df s with
       | Some d => (s, Ok d)
       | None => (s, Raise DanglingReference)
       end.

(** the reference [self.df], as returned by every operation *)
Definition self_ref : py component loc := λ s, (s, Ok (df s)).

(** [self.df = <a frame built by pandas>]: the attribute is bound to a new
    object; the object it was bound to is left as it is. *)
Definition rebind_df (d : DataFrame) : py component unit :=
  λ s, let l := fresh (dom (heap s)) in
       (Component (<[l := d]> (heap s)) l (log s), Ok tt).

(** [self.df[...] = ...], [self.df.at[...] = ...], [inplace=True]: the
    object [self.df] refers to is changed in place. *)
Definition mutate_df (f : DataFrame → DataFrame) : py component unit :=
  λ s, (Component (alter f (df s) (heap s)) (df s) (log s), Ok tt).

(** [self.<log>.append(msg)] *)
Definition log_append (msg : string) : py component unit :=
  λ s, (Component (heap s) (df s) (log s ++ [msg]), Ok tt).

(** the contents of the working copy *)
Definition working_copy (s : component) : option DataFrame := heap s !! df s.

End Objects.
Export Objects.

(* ===================================================================== *)
(** * cleaner.py *)
(* ===================================================================== *)

Module Cleaner.

Definition cleaning_log : component → list string := log.

(** [method == 'token'] *)
Definition is_token (method : cell) (token : string) : bool :=
  match method with
  | VStr s => String.eqb s token
  | _ => false
  end.

(** a float computed by pandas, as a cell *)
Definition float_cell (x : option Q) : cell :=
  match x with Some q => VFloat q | None => NA end.

(** [df[column] = df[column].fillna(v)] *)
Definition fill_column (column : string) (v : cell) (d : DataFrame) : DataFrame :=
  let dt := upcast (dtype_of d column) v in
  set_column column dt (coerce dt <$> fillna v (series d column)) d.

Definition remove_duplicates (keep : string) : py component loc :=
  d ← self_df;
  let before_count := len d in
  k ← lift (parse_keep keep);
  rebind_df (drop_duplicates k d);;
  d' ← self_df;
  let removed := (before_count - len d')%nat in
  when (0 <? removed)%nat
    (log_append ("Removed " +:+ pretty removed +:+ " duplicate rows"));;
  self_ref.

Section with_library.
Context `{Library}.

(** one turn of the loop of [fill_missing_values] *)
Definition fill_missing_value (column : string) (method : cell) : py component unit :=
  d ← self_df;
  if negb (has_column d column) then mret tt
  else
    let missing_count := null_count (series d column) in
    if (missing_count =? 0)%nat then mret tt
    else if is_token method "mean" then
      xs ← lift (as_numbers (series d column));
      let fill_value := mean xs in
      mutate_df (fill_column column (float_cell fill_value));;
      log_append ("Filled " +:+ pretty missing_count +:+ " missing values in '"
                  +:+ column +:+ "' with mean: " +:+ format_2f fill_value)
    else if is_token method "median" then
      xs ← lift (as_numbers (series d column));
      let fill_value := median xs in
      mutate_df (fill_column column (float_cell fill_value));;
      log_append ("Filled " +:+ pretty missing_count +:+ " missing values in '"
                  +:+ column +:+ "' with median: " +:+ format_2f fill_value)
    else if is_token method "mode" then
      let fill_value := default (VStr "Unknown") (head (mode (series d column))) in
      mutate_df (fill_column column fill_value);;
      log_append ("Filled " +:+ pretty missing_count +:+ " missing values in '"
                  +:+ column +:+ "' with mode: " +:+ py_str fill_value)
    else if is_token method "drop" then
      let before_count := len d in
      rebind_df (dropna_subset column d);;
      d' ← self_df;
      let removed := (before_count - len d')%nat in
      log_append ("Dropped " +:+ pretty removed +:+ " rows with missing '"
                  +:+ column +:+ "'")
    else
      (* [fillna(None)] is refused by pandas *)
      (if isnull method then raise ValueError else mret tt);;
      mutate_df (fill_column column method);;
      log_append ("Filled " +:+ pretty missing_count +:+ " missing values in '"
                  +:+ column +:+ "' with '" +:+ py_str method +:+ "'").

(** [strategy] is a dict; its items come in insertion order. *)
Definition fill_missing_values (strategy : list (string * cell)) : py component loc :=
  for_each strategy (λ '(column, method), fill_missing_value column method);;
  self_ref.

End with_library.

Definition remove_outliers (column : string) (threshold : Q) : py component loc :=
  d ← self_df;
  if negb (has_column d column) then self_ref
  else
    let before_count := len d in
    xs ← lift (as_numbers (series d column));
    let mean := mean xs in
    let std := std_squared xs in
    if std_is_zero std then self_ref
    else
      let keep := (λ x, zscore_le x mean std threshold) <$> xs in
      rebind_df (boolean_index d keep);;
      d' ← self_df;
      let removed := (before_count - len d')%nat in
      when (0 <? removed)%nat
        (log_append ("Removed " +:+ pretty removed +:+ " outliers from '"
                     +:+ column +:+ "'"));;
      self_ref.

(** the loop of [fix_invalid_values], with its counter *)
Fixpoint fix_each (column : string) (fix_value : cell)
    (invalid_indices : list Z) (count : nat) : py component nat :=
  match invalid_indices with
  | [] => mret count
  | idx :: rest =>
      d ← self_df;
      if bool_decide (idx ∈ index d)
      then mutate_df (at_set idx column fix_value);;
           fix_each column fix_value rest (S count)
      else fix_each column fix_value rest count
  end.

Definition fix_invalid_values (column : string) (invalid_indices : list Z)
    (fix_value : cell) : py component loc :=
  count ← fix_each column fix_value invalid_indices 0%nat;
  when (0 <? count)%nat
    (log_append ("Fixed " +:+ pretty count +:+ " invalid values in '"
                 +:+ column +:+ "'"));;
  self_ref.

Definition get_cleaning_log : py component (list string) :=
  λ s, (s, Ok (cleaning_log s)).

(** The frame [d] with the column [column] added for the value [v]: [v] in
    the rows whose label is in [fixed], null in the others. *)
Definition created (d : DataFrame) (column : string) (v : cell) (fixed : list Z)
  : DataFrame :=
  Frame (columns d ++ [(column, new_column_dtype v)])
        ((λ r, append_cell (if bool_decide (label r ∈ fixed)
                            then coerce (new_column_dtype v) v else NA) r) <$> rows d).

(** the indices among [idxs] that label a row of [d] *)
Definition hits (d : DataFrame) (idxs : list Z) : list Z :=
  filter (λ idx, idx ∈ index d) idxs.

End Cleaner.

(* ===================================================================== *)
(** * Python string methods and the two regular expressions on names *)
(* ===================================================================== *)

Module Str.

Definition code (a : ascii) : nat := nat_of_ascii a.

Definition is_lower (a : ascii) : bool := (97 <=? code a)%nat && (code a <=? 122)%nat.
Definition is_upper (a : ascii) : bool := (65 <=? code a)%nat && (code a <=? 90)%nat.
Definition is_digit (a : ascii) : bool := (48 <=? code a)%nat && (code a <=? 57)%nat.
Definition is_alpha (a : ascii) : bool := is_lower a || is_upper a.

Definition to_lower (a : ascii) : ascii :=
  if is_upper a then ascii_of_nat (code a + 32) else a.
Definition to_upper (a : ascii) : ascii :=
  if is_lower a then ascii_of_nat (code a - 32) else a.

Fixpoint map_chars (f : ascii → ascii) (s : string) : string :=
  match s with
  | EmptyString => EmptyString
  | String a s' => String (f a) (map_chars f s')
  end.

(** [s.lower()], [s.upper()] *)
Definition lower : string → string := map_chars to_lower.
Definition upper : string → string := map_chars to_upper.

(** [s.title()]: a letter that follows a letter is lowered, any other
    letter is raised. *)
Fixpoint title_from (previous_is_cased : bool) (s : string) : string :=
  match s with
  | EmptyString => EmptyString
  | String a s' =>
      if is_alpha a
      then String (if previous_is_cased then to_lower a else to_upper a)
                  (title_from true s')
      else String a (title_from false s')
  end.
Definition title : string → string := title_from false.

(** [s.capitalize()] *)
Definition capitalize (s : string) : string :=
  match s with
  | EmptyString => EmptyString
  | String a s' => String (to_upper a) (lower s')
  end.

(** [a in s] for a character *)
Fixpoint has_char (a : ascii) (s : string) : bool :=
  match s with
  | EmptyString => false
  | String b s' => Ascii.eqb a b || has_char a s'
  end.

(** [sub in s] *)
Definition contains (sub s : string) : bool :=
  bool_decide (is_Some (String.index 0 sub s)).

(** [s.replace(' ', '')] *)
Fixpoint remove_char (a : ascii) (s : string) : string :=
  match s with
  | EmptyString => EmptyString
  | String b s' =>
      if Ascii.eqb a b then remove_char a s' else String b (remove_char a s')
  end.

(** the class [[a-zA-Z0-9_]] *)
Definition is_word_char (a : ascii) : bool :=
  is_alpha a || is_digit a || Ascii.eqb a "_".

(** [re.search(r'[^a-zA-Z0-9_]', s)] finds something *)
Fixpoint has_special (s : string) : bool :=
  match s with
  | EmptyString => false
  | String a s' => negb (is_word_char a) || has_special s'
  end.

(** [re.sub(r'[^a-zA-Z0-9_]', '_', s)] *)
Definition sub_special : string → string :=
  map_chars (λ a, if is_word_char a then a else "_"%char).

(** [re.sub(r'_+', '_', s)] *)
Fixpoint squeeze_underscores (s : string) : string :=
  match s with
  | EmptyString => EmptyString
  | String a s' =>
      if Ascii.eqb a "_"
      then match s' with
           | String b _ =>
               if Ascii.eqb b "_" then squeeze_underscores s'
               else String a (squeeze_underscores s')
           | EmptyString => String a EmptyString
           end
      else String a (squeeze_underscores s')
  end.

Fixpoint lstrip_underscores (s : string) : string :=
  match s with
  | String a s' => if Ascii.eqb a "_" then lstrip_underscores s' else s
  | EmptyString => EmptyString
  end.

Fixpoint rstrip_underscores (s : string) : string :=
  match s with
  | EmptyString => EmptyString
  | String a s' =>
      match rstrip_underscores s' with
      | EmptyString => if Ascii.eqb a "_" then EmptyString else String a EmptyString
      | t => String a t
      end
  end.

(** [s.strip('_')] *)
Definition strip_underscores (s : string) : string :=
  rstrip_underscores (lstrip_underscores s).

(** [s.split('_')]: never empty, [''.split('_') == ['']] *)
Fixpoint split_underscore (s : string) : list string :=
  match s with
  | EmptyString => [EmptyString]
  | String a s' =>
      if Ascii.eqb a "_" then EmptyString :: split_underscore s'
      else match split_underscore s' with
           | w :: ws => String a w :: ws
           | [] => [String a EmptyString]
           end
  end.

(** [sep.join(words)] *)
Fixpoint join (sep : string) (words : list string) : string :=
  match words with
  | [] => ""
  | [w] => w
  | w :: ws => w +:+ sep +:+ join sep ws
  end.

(** [s[:n]] *)
Fixpoint take_chars (n : nat) (s : string) : string :=
  match n, s with
  | S n', String a s' => String a (take_chars n' s')
  | _, _ => EmptyString
  end.

End Str.

(* ===================================================================== *)
(** * tableau_prep.py *)
(* ===================================================================== *)

Module TableauPrep.

Definition prep_log : component → list string := log.

(** the body of the loop of [clean_column_names] *)
Definition clean_name (col : string) : string :=
  let clean_name := Str.sub_special col in
  let clean_name := Str.squeeze_underscores clean_name in
  let clean_name := Str.strip_underscores clean_name in
  Str.join "_" (Str.capitalize <$> Str.split_underscore clean_name).

(** [df.rename(columns=new_columns, inplace=True)] *)
Definition rename (new_columns : gmap string string) (d : DataFrame) : DataFrame :=
  Frame ((λ '(n, dt), (default n (new_columns !! n), dt)) <$> columns d) (rows d).

Definition clean_column_names : py component loc :=
  d ← self_df;
  let new_columns : gmap string string :=
    foldl (λ m col, <[col := clean_name col]> m) ∅ (column_names d) in
  mutate_df (rename new_columns);;
  log_append ("Standardized " +:+ pretty (size new_columns)
              +:+ " column names for Tableau");;
  self_ref.

Definition bool_vals : list string :=
  ["True"; "False"; "true"; "false"; "0"; "1"; "yes"; "no"; "Yes"; "No"].

Definition bool_map (s : string) : option bool :=
  if bool_decide (s ∈ ["True"; "true"; "1"; "yes"; "Yes"]) then Some true
  else if bool_decide (s ∈ ["False"; "false"; "0"; "no"; "No"]) then Some false
  else None.

(** [s.map(bool_map)]: a value that is not a key of the dict becomes null *)
Definition map_bool (c : cell) : cell :=
  match c with
  | VStr s => match bool_map s with Some b => VBool b | None => NA end
  | _ => NA
  end.

(** the dtype pandas gives the result of [map] *)
Definition mapped_dtype (s : list cell) : dtype :=
  match s with
  | [] => object
  | _ => if forallb (λ c, match c with VBool _ => true | _ => false end) s then bool_
         else if forallb isnull s then float64
         else object
  end.

Section with_library.
Context `{Library}.

(** the three attempts on one column; [type_changes] is threaded *)
Definition enforce_column (column : string) (type_changes : list string)
  : py component (list string) :=
  d ← self_df;
  let original_type := dtype_str (dtype_of d column) in
  (* dates *)
  type_changes ←
    (if Str.contains "date" (Str.lower column) && dtype_eqb (dtype_of d column) object
     then match to_datetime_coerce (series d column) with
          | Some converted =>
              mutate_df (set_column column datetime64 converted);;
              mret (type_changes ++ [column +:+ ": " +:+ original_type +:+ " → datetime64"])
          | None => mret type_changes
          end
     else mret type_changes);
  (* booleans *)
  d ← self_df;
  type_changes ←
    (if dtype_eqb (dtype_of d column) object
     then
       let unique_values := unique_strings (series d column) in
       if forallb (λ v, bool_decide (v ∈ bool_vals)) unique_values
       then
         let mapped := map_bool <$> series d column in
         mutate_df (set_column column (mapped_dtype mapped) mapped);;
         mret (type_changes ++ [column +:+ ": " +:+ original_type +:+ " → boolean"])
       else mret type_changes
     else mret type_changes);
  (* numeric strings *)
  d ← self_df;
  (if dtype_eqb (dtype_of d column) object
   then match to_numeric_coerce (series d column) with
        | Some (dt, numeric_col) =>
            (* [numeric_col.notna().sum() / len(self.df) > 0.8] *)
            let parsed := length (filter (λ c, notna c = true) numeric_col) in
            if (0 <? len d)%nat && (8 * len d <? 10 * parsed)%nat
            then mutate_df (set_column column dt numeric_col);;
                 mret (type_changes ++ [column +:+ ": " +:+ original_type +:+ " → numeric"])
            else mret type_changes
        | None => mret type_changes
        end
   else mret type_changes).

Fixpoint enforce_columns (cols : list string) (type_changes : list string)
  : py component (list string) :=
  match cols with
  | [] => mret type_changes
  | column :: rest =>
      type_changes ← enforce_column column type_changes;
      enforce_columns rest type_changes
  end.

Definition enforce_data_types : py component loc :=
  d ← self_df;
  type_changes ← enforce_columns (column_names d) [];
  when (negb (bool_decide (type_changes = [])))
    (log_append ("Converted " +:+ pretty (length type_changes) +:+ " column types");;
     for_each type_changes (λ change, log_append ("  - " +:+ change)));;
  self_ref.

End with_library.

(** ** Roles *)

Record suggestions := Suggestions {
  dimensions : list string;
  measures : list string;
  dates : list string
}.

(** the body of the loop of [create_dimension_measure_guide] *)
Definition classify_column (d : DataFrame) (s : suggestions) (column : string)
  : result suggestions :=
  let dtype := dtype_of d column in
  match (if (0 <? len d)%nat
         then true_div (nunique (series d column)) (len d)
         else Ok 0%Q) with
  | Raise e => Raise e
  | Ok unique_ratio =>
      if dtype_eqb dtype datetime64
      then Ok (Suggestions (dimensions s) (measures s) (dates s ++ [column]))
      else if dtype_eqb dtype int64 || dtype_eqb dtype float64
      then if Qlt_bool (1 # 2) unique_ratio
           then Ok (Suggestions (dimensions s) (measures s ++ [column]) (dates s))
           else Ok (Suggestions (dimensions s ++ [column]) (measures s) (dates s))
      else Ok (Suggestions (dimensions s ++ [column]) (measures s) (dates s))
  end.

Fixpoint classify_columns (d : DataFrame) (cols : list string) (s : suggestions)
  : result suggestions :=
  match cols with
  | [] => Ok s
  | column :: rest =>
      match classify_column d s column with
      | Ok s' => classify_columns d rest s'
      | Raise e => Raise e
      end
  end.

Definition guide (d : DataFrame) : result suggestions :=
  classify_columns d (column_names d) (Suggestions [] [] []).

Definition create_dimension_measure_guide : py component suggestions :=
  d ← self_df;
  lift (guide d).

(** ** Metadata *)

Inductive role := Dimension | Measure | Date | Unknown.

Record metadata_row := MetadataRow {
  Column_Name : string;
  Data_Type : string;
  Null_Count : nat;
  Null_Percentage : option Q;
  Unique_Values : nat;
  Sample_Values : string;
  Min_Value : cell;
  Max_Value : cell;
  Suggested_Role : role
}.

(** [s.min()], [s.max()] on a numeric column: nulls skipped, null when
    nothing is left *)
Definition extreme (better : Q → Q → bool) (s : list cell) : cell :=
  foldl (λ acc c,
           match as_number c, acc with
           | Ok (Some q), NA => c
           | Ok (Some q), _ =>
               match as_number acc with
               | Ok (Some a) => if better q a then c else acc
               | _ => c
               end
           | _, _ => acc
           end) NA s.

Definition suggested_role (s : suggestions) (column : string) : role :=
  if bool_decide (column ∈ dimensions s) then Dimension
  else if bool_decide (column ∈ measures s) then Measure
  else if bool_decide (column ∈ dates s) then Date
  else Unknown.

Section with_library.
Context `{Library}.

(** what one turn of the loop of [generate_metadata] appends to the nine
    lists: one row of the table *)
Definition describe (d : DataFrame) (s : suggestions) (column : string) : metadata_row :=
  let values := series d column in
  let null_count := null_count values in
  let numeric :=
    dtype_eqb (dtype_of d column) int64 || dtype_eqb (dtype_of d column) float64 in
  {| Column_Name := column;
     Data_Type := dtype_str (dtype_of d column);
     Null_Count := null_count;
     Null_Percentage :=
       if (len d =? 0)%nat then None
       else Some (round2 (inject_Z (Z.of_nat null_count)
                          / inject_Z (Z.of_nat (len d)) * 100)%Q);
     Unique_Values := nunique values;
     Sample_Values :=
       Str.join ", " ((λ x, Str.take_chars 50 (py_str x)) <$> take 3 (dropna_cells values));
     Min_Value := if numeric then extreme Qlt_bool values else VStr "N/A";
     Max_Value := if numeric then extreme (λ q a, Qlt_bool a q) values else VStr "N/A";
     Suggested_Role := suggested_role s column |}.

Definition generate_metadata : py component (list metadata_row) :=
  suggestions ← create_dimension_measure_guide;
  d ← self_df;
  mret (describe d suggestions <$> column_names d).

End with_library.

Definition get_prep_log : py component (list string) :=
  λ s, (s, Ok (prep_log s)).

End TableauPrep.

(* ===================================================================== *)
(** * validator.py *)
(* ===================================================================== *)

Module Validator.

(** ** The issue report: a dict of six slots *)

Inductive entry :=
| MissingInfo (count : nat) (percentage : Q)
| OutlierInfo (count : nat) (values : list cell) (indices : list Z)
| FormatErrors (errors : list (Z * string))
| TypeErrorInfo (issue : string) (values : list string).

Inductive item :=
| Record_ (r : list (string * cell))
| NameIssue (column : string) (problems : list string).

Inductive slot :=
| Mapping (m : gmap string entry)
| Sequence (l : list item).

(** [self.df] refers to the caller's frame (no copy); the validator only
    reads it. [self.issues] is the dict the checks write into and
    [validate_all] returns. *)
Record DataValidator := Validator_ {
  df : DataFrame;
  issues : gmap string slot
}.

Definition init (d : DataFrame) : DataValidator :=
  {| df := d;
     issues :=
       <["missing_values" := Mapping ∅]>
       (<["duplicates" := Sequence []]>
       (<["type_errors" := Mapping ∅]>
       (<["outliers" := Mapping ∅]>
       (<["format_errors" := Mapping ∅]>
       (<["column_name_issues" := Sequence []]> ∅))))) |}.

(** [self.issues[key]] *)
Definition issues_get (key : string) : py DataValidator slot :=
  λ s, match issues s !! key with
       | Some v => (s, Ok v)
       | None => (s, Raise (KeyError key))
       end.

(** [self.issues[key] = v] *)
Definition issues_set (key : string) (v : slot) : py DataValidator unit :=
  λ s, (Validator_ (df s) (<[key := v]> (issues s)), Ok tt).

(** [self.issues[key]] when a dict is expected there *)
Definition issues_mapping (key : string) : py DataValidator (gmap string entry) :=
  v ← issues_get key;
  match v with
  | Mapping m => mret m
  | Sequence _ => raise TypeError
  end.

(** [self.issues[key][column] = e] *)
Definition mapping_set (key column : string) (e : entry) : py DataValidator unit :=
  m ← issues_mapping key;
  issues_set key (Mapping (<[column := e]> m)).

Definition self_df : py DataValidator DataFrame := λ s, (s, Ok (df s)).

(** ** The checks *)

Definition name_problems (column : string) : list string :=
  (if Str.has_char " " column then ["contains spaces"] else [])
  ++ (if Str.has_special (Str.remove_char " " column)
      then ["contains special characters"] else [])
  ++ (if negb (String.eqb column (Str.lower column))
         && negb (String.eqb column (Str.upper column))
         && negb (String.eqb column (Str.title column))
      then ["inconsistent casing"] else []).

(** the local list [issues] of [check_column_names] *)
Definition name_issues (d : DataFrame) : list item :=
  omap (λ column,
          let problems := name_problems column in
          if bool_decide (problems = []) then None
          else Some (NameIssue column problems))
       (column_names d).

Definition check_column_names : py DataValidator unit :=
  d ← self_df;
  let issues := name_issues d in
  when (negb (bool_decide (issues = [])))
    (issues_set "column_name_issues" (Sequence issues)).

Definition check_missing_values : py DataValidator unit :=
  d ← self_df;
  for_each (column_names d) (λ column,
    let null_count := null_count (series d column) in
    when (0 <? null_count)%nat
      (mapping_set "missing_values" column
         (MissingInfo null_count
            (round2 (inject_Z (Z.of_nat null_count)
                     / inject_Z (Z.of_nat (len d)) * 100)%Q)))).

(** [frame.to_dict('records')] *)
Definition to_dict_records (d : DataFrame) : list (list (string * cell)) :=
  (λ r, zip (column_names d) (cells r)) <$> rows d.

Definition check_duplicates : py DataValidator unit :=
  d ← self_df;
  let duplicates := boolean_index d (duplicated keep_False d) in
  when (0 <? len duplicates)%nat
    (issues_set "duplicates" (Sequence (Record_ <$> to_dict_records duplicates))).

(** [df.select_dtypes(include=[np.number]).columns] *)
Definition numeric_cols (d : DataFrame) : list string :=
  (filter (λ c, dtype_eqb c.2 int64 || dtype_eqb c.2 float64 = true) (columns d)).*1.

Definition check_numeric_outliers (threshold : Q) : py DataValidator unit :=
  d ← self_df;
  for_each (numeric_cols d) (λ column,
    (* [isnull().sum() > len(df) * 0.5] *)
    if (len d <? 2 * null_count (series d column))%nat then mret tt
    else
      xs ← lift (as_numbers (series d column));
      let mean := mean xs in
      let std := std_squared xs in
      if std_is_zero std then mret tt
      else
        let outliers :=
          boolean_index d ((λ x, zscore_gt x mean std threshold) <$> xs) in
        when (0 <? len outliers)%nat
          (mapping_set "outliers" column
             (OutlierInfo (len outliers) (series outliers column) (index outliers)))).

(** *** The e-mail pattern
    [^[a-zA-Z0-9._%+-]+@[a-zA-Z0-9.-]+\.[a-zA-Z]{2,}$] *)

Definition is_local_char (a : ascii) : bool :=
  Str.is_alpha a || Str.is_digit a || bool_decide (a ∈ String.list_ascii_of_string "._%+-").

Definition is_domain_char (a : ascii) : bool :=
  Str.is_alpha a || Str.is_digit a || bool_decide (a ∈ String.list_ascii_of_string ".-").

(** the text before the first ["@"] and the text after it *)
Fixpoint split_at_sign (l : list ascii) : option (list ascii * list ascii) :=
  match l with
  | [] => None
  | a :: l' =>
      if Ascii.eqb a "@" then Some ([], l')
      else '(before, after) ← split_at_sign l'; Some (a :: before, after)
  end.

(** the text before the last ["."] and the text after it *)
Fixpoint split_last_dot (l : list ascii) : option (list ascii * list ascii) :=
  match l with
  | [] => None
  | a :: l' =>
      match split_last_dot l' with
      | Some (before, after) => Some (a :: before, after)
      | None => if Ascii.eqb a "." then Some ([], l') else None
      end
  end.

(** [$] also matches before a newline that ends the text *)
Definition drop_final_newline (l : list ascii) : list ascii :=
  match reverse l with
  | a :: rest => if Ascii.eqb a "010" then reverse rest else l
  | [] => l
  end.

(** [re.match(email_pattern, s)] succeeds.  The local part cannot hold an
    ["@"] and the last group cannot hold a ["."], so the match, if there is
    one, splits the text at its first ["@"] and at its last ["."]. *)
Definition email_match (s : string) : bool :=
  match split_at_sign (drop_final_newline (String.list_ascii_of_string s)) with
  | Some (local, rest) =>
      negb (bool_decide (local = [])) && forallb is_local_char local
      && match split_last_dot rest with
         | Some (domain, tld) =>
             negb (bool_decide (domain = [])) && forallb is_domain_char domain
             && (2 <=? length tld)%nat && forallb Str.is_alpha tld
         | None => false
         end
  | None => false
  end.

Section with_library.
Context `{Library}.

(** [for idx, value in df[column].items()], keeping what the test rejects *)
Definition invalid_items (bad : cell → bool) (d : DataFrame) (column : string)
  : list (Z * string) :=
  omap (λ '(idx, value),
          if notna value && bad value then Some (idx, py_str value) else None)
       (zip (index d) (series d column)).

(** the local list [invalid_emails] of [check_email_format] *)
Definition invalid_emails (d : DataFrame) (column : string) : list (Z * string) :=
  invalid_items (λ value, negb (email_match (py_str value))) d column.

Definition check_email_format : py DataValidator unit :=
  d ← self_df;
  for_each (column_names d) (λ column,
    when (Str.contains "email" (Str.lower column))
      (let invalid_emails := invalid_emails d column in
       when (negb (bool_decide (invalid_emails = [])))
         (mapping_set "format_errors" column (FormatErrors invalid_emails)))).

(** the local list [invalid_dates] of [check_date_format]: the values on
    which [pd.to_datetime] raises *)
Definition invalid_dates (d : DataFrame) (column : string) : list (Z * string) :=
  invalid_items (λ value, negb (bool_decide (is_Some (to_datetime value)))) d column.

Definition check_date_format : py DataValidator unit :=
  d ← self_df;
  for_each (column_names d) (λ column,
    when (Str.contains "date" (Str.lower column))
      (let invalid_dates := invalid_dates d column in
       when (negb (bool_decide (invalid_dates = [])))
         ((* [if column not in ...: ... = []] then [.extend(invalid_dates)] *)
          m ← issues_mapping "format_errors";
          match m !! column with
          | None =>
              issues_set "format_errors" (Mapping (<[column := FormatErrors invalid_dates]> m))
          | Some (FormatErrors errors) =>
              issues_set "format_errors"
                (Mapping (<[column := FormatErrors (errors ++ invalid_dates)]> m))
          | Some _ => raise TypeError
          end))).

Definition bool_vals : list string :=
  ["True"; "False"; "true"; "false"; "0"; "1"; "yes"; "no"; "Yes"; "No"].

(** [unique_vals.issubset(bool_vals) and len(unique_vals) >= 2] *)
Definition mixed_booleans (unique_vals : list string) : bool :=
  forallb (λ v, bool_decide (v ∈ bool_vals)) unique_vals
  && (2 <=? length unique_vals)%nat.

Definition check_boolean_consistency : py DataValidator unit :=
  d ← self_df;
  for_each (column_names d) (λ column,
    when (dtype_eqb (dtype_of d column) object)
      (let unique_vals := unique_strings (series d column) in
       when (mixed_booleans unique_vals)
         (mapping_set "type_errors" column
            (TypeErrorInfo "Inconsistent boolean format" unique_vals)))).

(** [validate_all] returns [self.issues]: the dict itself, not a copy. *)
Definition validate_all : py DataValidator (gmap string slot) :=
  check_column_names;;
  check_missing_values;;
  check_duplicates;;
  check_numeric_outliers 3;;
  check_email_format;;
  check_date_format;;
  check_boolean_consistency;;
  s ← get;
  mret (issues s).

(** *** What it is for a check to find nothing *)

Definition no_invalid_emails (d : DataFrame) : Prop :=
  ∀ column, column ∈ column_names d →
    Str.contains "email" (Str.lower column) = true → invalid_emails d column = [].

Definition no_invalid_dates (d : DataFrame) : Prop :=
  ∀ column, column ∈ column_names d →
    Str.contains "date" (Str.lower column) = true → invalid_dates d column = [].

Definition no_mixed_booleans (d : DataFrame) : Prop :=
  ∀ column, column ∈ column_names d →
    dtype_eqb (dtype_of d column) object = true →
    mixed_booleans (unique_strings (series d column)) = false.

End with_library.

Definition no_name_issues (d : DataFrame) : Prop := name_issues d = [].

Definition no_missing_values (d : DataFrame) : Prop :=
  ∀ column, column ∈ column_names d → null_count (series d column) = 0%nat.

Definition no_duplicates (d : DataFrame) : Prop :=
  len (boolean_index d (duplicated keep_False d)) = 0%nat.

Definition no_outliers (threshold : Q) (d : DataFrame) : Prop :=
  ∀ column xs, column ∈ numeric_cols d →
    as_numbers (series d column) = Ok xs →
    len (boolean_index d
           ((λ x, zscore_gt x (mean xs) (std_squared xs) threshold) <$> xs)) = 0%nat.

(** [len(self.issues[key])] *)
Definition slot_len (key : string) : py DataValidator nat :=
  v ← issues_get key;
  match v with
  | Mapping m => mret (size m)
  | Sequence l => mret (length l)
  end.

Record summary := Summary {
  s_missing_values : nat;
  s_duplicate_rows : nat;
  s_columns_with_outliers : nat;
  s_format_errors : nat;
  s_column_name_issues : nat;
  s_type_errors : nat;
  s_total_rows : nat;
  s_total_columns : nat
}.

Definition get_summary : py DataValidator summary :=
  a ← slot_len "missing_values";
  b ← slot_len "duplicates";
  c ← slot_len "outliers";
  e ← slot_len "format_errors";
  f ← slot_len "column_name_issues";
  g ← slot_len "type_errors";
  d ← self_df;
  mret (Summary a b c e f g (len d) (length (columns d))).

(** the six keys of a report *)
Definition report_keys : gset string :=
  {[ "missing_values"; "duplicates"; "type_errors"; "outliers";
     "format_errors"; "column_name_issues" ]}.

(** A report in its shape: the six keys, a dict or a list under each as
    [__init__] puts them, and lists of errors under [format_errors]. *)
Definition shaped (r : gmap string slot) : Prop :=
  dom r = report_keys
  ∧ (∃ m, r !! "missing_values" = Some (Mapping m))
  ∧ (∃ l, r !! "duplicates" = Some (Sequence l))
  ∧ (∃ m, r !! "type_errors" = Some (Mapping m))
  ∧ (∃ m, r !! "outliers" = Some (Mapping m))
  ∧ (∃ m, r !! "format_errors" = Some (Mapping m)
          ∧ ∀ c e, m !! c = Some e → ∃ errors, e = FormatErrors errors)
  ∧ (∃ l, r !! "column_name_issues" = Some (Sequence l)).

(** [s'] differs from [s] in the slot [K] of the report at most, and its
    report is in shape. *)
Definition writes_only (K : string) (s s' : DataValidator) : Prop :=
  df s' = df s ∧ shaped (issues s') ∧ ∀ k, k ≠ K → issues s' !! k = issues s !! k.

End Validator.

(* ===================================================================== *)
(** * A library instance and frames for closed examples *)
(* ===================================================================== *)

Module Sample.

Fixpoint digits_value (acc : Z) (l : list ascii) : option Z :=
  match l with
  | [] => Some acc
  | a :: l' =>
      if Str.is_digit a
      then digits_value (10 * acc + (Z.of_nat (Str.code a) - 48))%Z l'
      else None
  end.

Definition natural (l : list ascii) : option Z :=
  match l with
  | [] => None
  | _ => digits_value 0 l
  end.

Definition integer (l : list ascii) : option Z :=
  match l with
  | "-"%char :: l' => Z.opp <$> natural l'
  | _ => natural l
  end.

Definition is_leap (y : Z) : bool :=
  ((y `mod` 4 =? 0) && (negb (y `mod` 100 =? 0) || (y `mod` 400 =? 0)))%Z.

Definition days_in_month (y m : Z) : Z :=
  if bool_decide (m ∈ [4; 6; 9; 11]%Z) then 30%Z
  else if (m =? 2)%Z then (if is_leap y then 29 else 28)%Z
  else 31%Z.

(** days between 1970-01-01 and the given civil date *)
Definition days_from_civil (y m d : Z) : Z :=
  let y := (if (m <=? 2)%Z then y - 1 else y)%Z in
  let era := (y `div` 400)%Z in
  let yoe := (y - era * 400)%Z in
  let doy := ((153 * (if (2 <? m)%Z then m - 3 else m + 9) + 2) `div` 5 + d - 1)%Z in
  let doe := (yoe * 365 + yoe `div` 4 - yoe `div` 100 + doy)%Z in
  (era * 146097 + doe - 719468)%Z.

(** [YYYY-MM-DD] naming a day of the calendar, as nanoseconds since the
    epoch *)
Definition iso_date (s : string) : option Z :=
  match String.list_ascii_of_string s with
  | [y1; y2; y3; y4; "-"%char; m1; m2; "-"%char; d1; d2] =>
      y ← natural [y1; y2; y3; y4];
      m ← natural [m1; m2];
      d ← natural [d1; d2];
      if ((1 <=? m) && (m <=? 12) && (1 <=? d) && (d <=? days_in_month y m))%Z
      then Some (days_from_civil y m d * 86400 * 1000000000)%Z
      else None
  | _ => None
  end.

Definition parse_date (c : cell) : option Z :=
  match c with
  | VStr s => iso_date s
  | VDate t => Some t
  | VInt z => Some z
  | _ => None
  end.

Definition parse_number (c : cell) : cell :=
  match c with
  | VStr s =>
      match integer (String.list_ascii_of_string s) with
      | Some z => VInt z
      | None => NA
      end
  | VInt _ | VFloat _ => c
  | VBool b => VInt (if b then 1 else 0)
  | _ => NA
  end.

(** the least [k <= fuel] with [10^k * q] an integer *)
Fixpoint decimals (fuel : nat) (q : Q) : option nat :=
  if bool_decide (Qden (Qred q) = 1%positive) then Some O
  else match fuel with
       | O => None
       | S fuel' => S <$> decimals fuel' (q * 10)%Q
       end.

(** the last [k] decimal digits of [n], zeros in front *)
Fixpoint last_digits (k : nat) (n : Z) : string :=
  match k with
  | O => ""
  | S k' => last_digits k' (n `div` 10) +:+ pretty (n `mod` 10)%Z
  end.

(** a float with at most fifteen decimals, as Python prints it ([10.0],
    [100.5]); a fraction for the others *)
Definition print_float (q : Q) : string :=
  match decimals 15 q with
  | Some O => pretty (Qnum (Qred q)) +:+ ".0"
  | Some k =>
      let n := Z.abs (Qnum (Qred (q * inject_Z (10 ^ Z.of_nat k))%Q)) in
      (if Qlt_bool q 0 then "-" else "")
        +:+ pretty (n `div` 10 ^ Z.of_nat k)%Z +:+ "." +:+ last_digits k n
  | None => pretty (Qnum (Qred q)) +:+ "/" +:+ pretty (Z.pos (Qden (Qred q)))
  end.

(** A small instance of the library, enough to run the examples below.
    Dates are the ISO calendar dates (pandas reads these, and other
    spellings besides); numbers in text are the decimal integers; a float
    with a short decimal expansion prints as Python prints it.  The
    examples print no other float and no timestamp. *)
#[local] Instance library : Library := {|
  repr_float := print_float;
  str_timestamp t := "Timestamp(" +:+ pretty t +:+ ")";
  to_datetime := parse_date;
  to_datetime_coerce s :=
    Some ((λ c, match parse_date c with Some t => VDate t | None => NA end) <$> s);
  to_numeric_coerce s :=
    let parsed := parse_number <$> s in
    if forallb (λ c, match c with VInt _ => true | _ => false end) parsed
    then Some (int64, parsed)
    else Some (float64, coerce float64 <$> parsed)
|}.

(** rows labelled [0, 1, ...], as [pd.DataFrame(...)] and [pd.read_csv]
    label them *)
Definition range_index (rs : list (list cell)) : list row :=
  imap (λ i cs, Row (Z.of_nat i) cs) rs.

(** one column *)
Definition single (name : string) (dt : dtype) (values : list cell) : DataFrame :=
  Frame [(name, dt)] (range_index ((λ v, [v]) <$> values)).

(** [[1, 2, None, 4]] *)
Definition one_two_null_four (name : string) : DataFrame :=
  single name float64 [VFloat 1; VFloat 2; NA; VFloat 4].

(** [[10, 10, 10, 10, 10, 1000]] *)
Definition tens_and_thousand : DataFrame :=
  single "amount" int64 [VInt 10; VInt 10; VInt 10; VInt 10; VInt 10; VInt 1000].

(** [[5, 5, None]] *)
Definition five_five_null : DataFrame :=
  single "A" float64 [VFloat 5; VFloat 5; NA].

(** [[5, 6, None, 100]] *)
Definition five_six_null_hundred : DataFrame :=
  single "A" float64 [VFloat 5; VFloat 6; NA; VFloat 100].

(** no rows, one text column *)
Definition empty_text : DataFrame := Frame [("name", object)] [].

(** one text column named as a date, holding text that is no date *)
Definition bad_date : DataFrame := single "date" object [VStr "not a date"].

(** the frame of [test_duplicates] *)
Definition with_duplicates : DataFrame :=
  Frame [("A", int64); ("B", object)]
        (range_index [[VInt 1; VStr "a"]; [VInt 2; VStr "b"];
                      [VInt 2; VStr "b"]; [VInt 3; VStr "c"]]).

(** the first rows of the frame written by [create_test_data.py], as
    [pd.read_csv] loads them *)
Definition sales : DataFrame :=
  Frame [("order id", int64); ("customer name", object);
         ("customer-email", object); ("Age", int64);
         ("order_amount", float64); ("order date", object);
         ("is_shipped", object)]
        (range_index
           [[VInt 1; VStr "John Doe"; VStr "john@email.com"; VInt 25;
             VFloat (201 # 2); VStr "2024-01-15"; VStr "True"];
            [VInt 2; VStr "Jane Smith"; VStr "jane@email.com"; VInt 30;
             VFloat (1003 # 4); VStr "2024-01-16"; VStr "False"];
            [VInt 3; NA; VStr "invalid_email"; VInt (-5);
             VFloat 50; VStr "2024-13-45"; VStr "True"];
            [VInt 4; VStr "Bob Johnson"; VStr "bob@email.com"; VInt 45;
             NA; VStr "2024-01-18"; VStr "1"];
            [VInt 5; VStr "Alice Williams"; VStr "alice@email.com"; VInt 28;
             VFloat 300; VStr "2024-01-19"; VStr "0"];
            [VInt 5; VStr "Alice Williams"; VStr "alice@email.com"; VInt 28;
             VFloat 300; VStr "2024-01-19"; VStr "0"]]).

(** a heap holding one frame, the caller's *)
Definition caller_heap (d : DataFrame) : gmap loc DataFrame := {[ 1%positive := d ]}.

(** a component whose working copy is [d] *)
Definition holding (d : DataFrame) : component := Component (caller_heap d) 1%positive [].

(** the component built from the caller's frame: its working copy is a
    second object *)
Definition copy_of (d : DataFrame) : component :=
  Component (<[2%positive := d]> (caller_heap d)) 2%positive [].

End Sample.

(* ===================================================================== *)
(** * A caller at work on a component *)
(* ===================================================================== *)

Module Session.

(** the operations of a [DataCleaner] that change its working copy *)
Inductive cleaner_call :=
| remove_duplicates (keep : string)
| fill_missing_values (strategy : list (string * cell))
| remove_outliers (column : string) (threshold : Q)
| fix_invalid_values (column : string) (invalid_indices : list Z) (fix_value : cell).

(** the operations of a [TableauPrep] that change its working copy *)
Inductive prep_call :=
| clean_column_names
| enforce_data_types.

(** One call, and the state it leaves. A call that raises leaves the state
    reached at the exception; the caller may catch it and go on. *)
Definition cleaner_step `{Library} (c : cleaner_call) (s : component) : component :=
  match c with
  | remove_duplicates keep => (Cleaner.remove_duplicates keep s).1
  | fill_missing_values strategy => (Cleaner.fill_missing_values strategy s).1
  | remove_outliers column threshold => (Cleaner.remove_outliers column threshold s).1
  | fix_invalid_values column invalid_indices fix_value =>
      (Cleaner.fix_invalid_values column invalid_indices fix_value s).1
  end.

Definition prep_step `{Library} (c : prep_call) (s : component) : component :=
  match c with
  | clean_column_names => (TableauPrep.clean_column_names s).1
  | enforce_data_types => (TableauPrep.enforce_data_types s).1
  end.

(** calls in sequence *)
Definition run {C} (step : C → component → component) (calls : list C)
    (s : component) : component :=
  foldl (λ s c, step c s) s calls.

(** The objects of the heap [h] are, in the state [s], what they were in
    [h], and [self.df] is none of them. *)
Definition apart (h : gmap loc DataFrame) (s : component) : Prop :=
  ∀ l, is_Some (h !! l) → l ≠ df s ∧ heap s !! l = h !! l.

(** a method body that keeps a property of the state, however it ends *)
Definition keeps {A} (P : component → Prop) (m : py component A) : Prop :=
  ∀ s, P s → P (m s).1.

End Session.

(* ===================================================================== *)
(** * Terms in which the further properties are stated *)
(* ===================================================================== *)

Module Terms.

(** the row [r], at position [i] of [rs], has a twin: a row at another
    position whose cells equal its own *)
Definition has_twin (rs : list row) (i : nat) (r : row) : Prop :=
  ∃ j r', j ≠ i ∧ rs !! j = Some r' ∧ cells_eqb (cells r) (cells r') = true.

(** [s] starts with an underscore, ends with one, holds two in a row *)
Definition starts_us (s : string) : bool :=
  match s with
  | String a _ => Ascii.eqb a "_"
  | EmptyString => false
  end.

Fixpoint ends_us (s : string) : bool :=
  match s with
  | EmptyString => false
  | String a s' =>
      match s' with
      | EmptyString => Ascii.eqb a "_"
      | _ => ends_us s'
      end
  end.

Fixpoint has_double_us (s : string) : bool :=
  match s with
  | EmptyString => false
  | String a s' => (Ascii.eqb a "_" && starts_us s') || has_double_us s'
  end.

#[global] Instance role_eq_dec : EqDecision TableauPrep.role.
Proof. solve_decision. Defined.

(** the bucket [create_dimension_measure_guide] puts a column in *)
Definition bucket (d : DataFrame) (column : string) : TableauPrep.role :=
  if dtype_eqb (dtype_of d column) datetime64 then TableauPrep.Date
  else if (dtype_eqb (dtype_of d column) int64 || dtype_eqb (dtype_of d column) float64)
          && (len d <? 2 * nunique (series d column))%nat
       then TableauPrep.Measure
       else TableauPrep.Dimension.

(** the working copy is there and has the property [R] *)
Definition within (R : DataFrame → Prop) (s : component) : Prop :=
  ∃ d, working_copy s = Some d ∧ R d.

(** [d] has rows of [d0] only, in their order, and the columns of [d0]
    first, under their names *)
Definition shrunk (d0 d : DataFrame) : Prop :=
  index d `sublist_of` index d0 ∧ column_names d0 `prefix_of` column_names d.

(** [d] has the row labels and the column names of [d0] *)
Definition same_shape (d0 d : DataFrame) : Prop :=
  index d = index d0 ∧ column_names d = column_names d0.

(** [d] has the row labels and the column names of [d0], and the columns
    of [d0] that are not of dtype [object] as they are in [d0] *)
Definition same_typed (d0 d : DataFrame) : Prop :=
  same_shape d0 d
  ∧ ∀ c, dtype_of d0 c ≠ object →
         series d c = series d0 c ∧ dtype_of d c = dtype_of d0 c.

(** [d] has the row labels of [d0] and as many columns *)
Definition same_size (d0 d : DataFrame) : Prop :=
  index d = index d0 ∧ length (columns d) = length (columns d0).

(** The frame [d] with the value [v] written into the column [column],
    which is there, in the rows whose label is in [F]; the column takes
    the dtype that holds [v] as well. *)
Definition fixed (d : DataFrame) (column : string) (v : cell) (F : list Z)
  : DataFrame :=
  match col_pos column (columns d) with
  | Some i =>
      let dt := upcast (dtype_of d column) v in
      Frame (set_dtype i dt (columns d))
            ((λ r, set_cell i (coerce dt (if bool_decide (label r ∈ F)
                                          then v else cell_at i r)) r) <$> rows d)
  | None => d
  end.

(** *** What the loops of the validator leave in a dict of the report *)

(** the entry [f c] under every column [c] of [cols] that meets [cond],
    the other entries as they were *)
Definition recorded (cond : string → bool) (f : string → Validator.entry)
    (cols : list string) (m : gmap string Validator.entry)
  : gmap string Validator.entry :=
  foldl (λ m c, if cond c then <[c := f c]> m else m) m cols.

(** the list of errors a dict of [format_errors] holds for a column *)
Definition errors_at (m : gmap string Validator.entry) (c : string) : list (Z * string) :=
  match m !! c with
  | Some (Validator.FormatErrors errors) => errors
  | _ => []
  end.

(** the errors [f c] added to the list of every column [c] of [cols] that
    meets [cond] *)
Definition extended (cond : string → bool) (f : string → list (Z * string))
    (cols : list string) (m : gmap string Validator.entry)
  : gmap string Validator.entry :=
  foldl (λ m c, if cond c
                then <[c := Validator.FormatErrors (errors_at m c ++ f c)]> m
                else m) m cols.

Definition has_nulls (d : DataFrame) (column : string) : bool :=
  (0 <? null_count (series d column))%nat.

Definition missing_info (d : DataFrame) (column : string) : Validator.entry :=
  Validator.MissingInfo (null_count (series d column))
    (round2 (inject_Z (Z.of_nat (null_count (series d column)))
             / inject_Z (Z.of_nat (len d)) * 100)%Q).

(** the rows [check_numeric_outliers] selects for a column *)
Definition outliers_of (threshold : Q) (d : DataFrame) (column : string) : DataFrame :=
  match as_numbers (series d column) with
  | Ok xs =>
      boolean_index d ((λ x, zscore_gt x (mean xs) (std_squared xs) threshold) <$> xs)
  | Raise _ => boolean_index d []
  end.

Definition has_outliers (threshold : Q) (d : DataFrame) (column : string) : bool :=
  negb (len d <? 2 * null_count (series d column))%nat
  && match as_numbers (series d column) with
     | Ok xs => negb (std_is_zero (std_squared xs))
     | Raise _ => false
     end
  && (0 <? len (outliers_of threshold d column))%nat.

Definition outlier_info (threshold : Q) (d : DataFrame) (column : string)
  : Validator.entry :=
  Validator.OutlierInfo (len (outliers_of threshold d column))
    (series (outliers_of threshold d column) column)
    (index (outliers_of threshold d column)).

Definition has_invalid_emails `{Library} (d : DataFrame) (column : string) : bool :=
  Str.contains "email" (Str.lower column)
  && negb (bool_decide (Validator.invalid_emails d column = [])).

Definition has_invalid_dates `{Library} (d : DataFrame) (column : string) : bool :=
  Str.contains "date" (Str.lower column)
  && negb (bool_decide (Validator.invalid_dates d column = [])).

Definition has_mixed_booleans `{Library} (d : DataFrame) (column : string) : bool :=
  dtype_eqb (dtype_of d column) object
  && Validator.mixed_booleans (unique_strings (series d column)).

(** the dict under a slot, empty when the slot holds none *)
Definition mapping_of (old : option Validator.slot) : gmap string Validator.entry :=
  match old with
  | Some (Validator.Mapping m) => m
  | _ => ∅
  end.

(** What a run of [validate_all] on the frame [d] leaves under the key
    [k] of the report, from what was there before. *)
Definition report_slot `{Library} (d : DataFrame) (k : string)
    (old : option Validator.slot) : option Validator.slot :=
  if decide (k = "column_name_issues") then
    if bool_decide (Validator.name_issues d = []) then old
    else Some (Validator.Sequence (Validator.name_issues d))
  else if decide (k = "missing_values") then
    Some (Validator.Mapping
            (recorded (has_nulls d) (missing_info d) (column_names d) (mapping_of old)))
  else if decide (k = "duplicates") then
    let dups := boolean_index d (duplicated keep_False d) in
    if (0 <? len dups)%nat
    then Some (Validator.Sequence (Validator.Record_ <$> Validator.to_dict_records dups))
    else old
  else if decide (k = "outliers") then
    Some (Validator.Mapping
            (recorded (has_outliers 3 d) (outlier_info 3 d) (Validator.numeric_cols d)
               (mapping_of old)))
  else if decide (k = "format_errors") then
    Some (Validator.Mapping
            (extended (has_invalid_dates d) (Validator.invalid_dates d) (column_names d)
               (recorded (has_invalid_emails d)
                  (λ c, Validator.FormatErrors (Validator.invalid_emails d c))
                  (column_names d) (mapping_of old))))
  else if decide (k = "type_errors") then
    Some (Validator.Mapping
            (recorded (has_mixed_booleans d)
               (λ c, Validator.TypeErrorInfo "Inconsistent boolean format"
                       (unique_strings (series d c)))
               (column_names d) (mapping_of old)))
  else old.

End Terms.

(* ===================================================================== *)
(** * Properties *)
(* ===================================================================== *)

(** ** Running method bodies *)

Lemma bind_ok {S A B} (m : py S A) (k : A → py S B) s s' a :
  m s = (s', Ok a) → (m ≫= k) s = k a s'.
Proof. intros Hm. unfold mbind, py_bind, bind. by rewrite Hm. Qed.

Lemma bind_raise {S A B} (m : py S A) (k : A → py S B) s s' e :
  m s = (s', Raise e) → (m ≫= k) s = (s', Raise e).
Proof. intros Hm. unfold mbind, py_bind, bind. by rewrite Hm. Qed.

Lemma self_df_ok s d : working_copy s = Some d → self_df s = (s, Ok d).
Proof. unfold working_copy, self_df. by intros ->. Qed.

Lemma working_copy_mutate f s :
  working_copy (mutate_df f s).1 = f <$> working_copy s.
Proof.
  unfold working_copy, mutate_df. simpl. rewrite lookup_alter.
  case_decide; [done | congruence].
Qed.

(** ** The score of a value, in the reals *)

Lemma Qlt_bool_Rlt a b : Qlt_bool a b = true ↔ (Q2R a < Q2R b)%R.
Proof.
  unfold Qlt_bool. rewrite negb_true_iff. split.
  - intros Hle. apply Qlt_Rlt. apply Qnot_le_lt. intros Hba.
    apply Qle_bool_iff in Hba. congruence.
  - intros Hlt. apply Rlt_Qlt in Hlt. destruct (Qle_bool b a) eqn:Hba; [|done].
    apply Qle_bool_iff in Hba. exfalso. by apply (Qlt_not_le a b).
Qed.

Lemma abs_over_root (a v t : R) :
  (0 < v)%R → (0 <= t)%R →
  (Rabs (a / sqrt v) > t ↔ t * t * v < a * a)%R.
Proof.
  intros Hv Ht. pose proof (sqrt_lt_R0 v Hv) as Hs.
  pose proof (sqrt_sqrt v (Rlt_le _ _ Hv)) as Hss.
  assert (Habs : Rabs (a / sqrt v) = (Rabs a / sqrt v)%R).
  { unfold Rdiv. rewrite Rabs_mult, (Rabs_right (/ sqrt v)); [done|].
    apply Rle_ge, Rlt_le, Rinv_0_lt_compat, Hs. }
  rewrite Habs.
  assert (Hmul : (Rabs a / sqrt v > t ↔ t * sqrt v < Rabs a)%R).
  { split; intros Hlt.
    - apply (Rmult_lt_compat_r (sqrt v)) in Hlt; [|done].
      unfold Rdiv in Hlt. rewrite Rmult_assoc, Rinv_l, Rmult_1_r in Hlt by lra. done.
    - apply (Rmult_lt_reg_r (sqrt v)); [done|].
      unfold Rdiv. rewrite Rmult_assoc, Rinv_l, Rmult_1_r by lra. done. }
  rewrite Hmul.
  assert (Hsq : (t * t * v = Rsqr (t * sqrt v))%R).
  { unfold Rsqr. rewrite <- Hss at 1. ring. }
  assert (Haa : (a * a = Rsqr (Rabs a))%R).
  { rewrite <- Rsqr_abs. reflexivity. }
  rewrite Hsq, Haa. split; intros Hlt.
  - apply Rsqr_incrst_1; [done| |apply Rabs_pos].
    apply Rmult_le_pos; lra.
  - apply Rsqr_incrst_0; [done| |apply Rabs_pos].
    apply Rmult_le_pos; lra.
Qed.

(** [zscore_gt], which compares squares of rationals, decides
    [|x - mean| / std > threshold] for [std] the square root of [v]. *)
Lemma zscore_gt_real x m v t :
  (0 < v)%Q →
  zscore_gt (Some x) (Some m) (Some v) t = true
  ↔ (Rabs ((Q2R x - Q2R m) / sqrt (Q2R v)) > Q2R t)%R.
Proof.
  intros Hv. apply Qlt_Rlt in Hv. rewrite RMicromega.Q2R_0 in Hv.
  unfold zscore_gt. destruct (Qlt_bool t 0) eqn:Ht.
  - apply Qlt_bool_Rlt in Ht. rewrite RMicromega.Q2R_0 in Ht. split; [|done]. intros _.
    pose proof (Rabs_pos ((Q2R x - Q2R m) / sqrt (Q2R v))). lra.
  - assert (Htpos : (0 <= Q2R t)%R).
    { destruct (Rle_dec 0 (Q2R t)) as [|Hneg]; [done|]. apply Rnot_le_lt in Hneg.
      rewrite <- RMicromega.Q2R_0 in Hneg. apply Qlt_bool_Rlt in Hneg. congruence. }
    rewrite Qlt_bool_Rlt, (abs_over_root _ _ _ Hv Htpos).
    by rewrite !Q2R_mult, !Q2R_minus.
Qed.


Lemma zscore_le_negb x m v t :
  zscore_le (Some x) (Some m) (Some v) t = negb (zscore_gt (Some x) (Some m) (Some v) t).
Proof.
  unfold zscore_le, zscore_gt, Qlt_bool. destruct (negb (Qle_bool 0 t)); [done|].
  by rewrite negb_involutive.
Qed.

(** [zscore_le] decides [|x - mean| / std <= threshold] in the same way. *)
Lemma zscore_le_real x m v t :
  (0 < v)%Q →
  zscore_le (Some x) (Some m) (Some v) t = true
  ↔ (Rabs ((Q2R x - Q2R m) / sqrt (Q2R v)) <= Q2R t)%R.
Proof.
  intros Hv. rewrite zscore_le_negb, negb_true_iff.
  pose proof (zscore_gt_real x m v t Hv) as Hgt.
  destruct (zscore_gt (Some x) (Some m) (Some v) t).
  - split; [done|]. intros Hle. apply Rle_not_gt in Hle. destruct Hle. by apply Hgt.
  - split; [|done]. intros _. apply Rnot_gt_le. intros Hlt. by apply Hgt in Hlt.
Qed.

Lemma Qsquare_nonneg (a : Q) : (0 <= a * a)%Q.
Proof. unfold Qle. simpl. rewrite Z.mul_1_r. apply Z.square_nonneg. Qed.

Lemma Qsum_squares_nonneg (m : Q) ys :
  (0 <= Qsum ((λ y, (y - m) * (y - m))%Q <$> ys))%Q.
Proof.
  induction ys as [|y ys IH]; [done|]. cbn [fmap list_fmap Qsum foldr].
  change (foldr Qplus 0%Q ((λ y, (y - m) * (y - m))%Q <$> ys))
    with (Qsum ((λ y, (y - m) * (y - m))%Q <$> ys)).
  replace 0%Q with (0 + 0)%Q by done.
  apply Qplus_le_compat; [apply Qsquare_nonneg|exact IH].
Qed.

(** a standard deviation that is a number and not zero is positive *)
Lemma std_squared_positive xs v :
  std_squared xs = Some v → std_is_zero (Some v) = false → (0 < v)%Q.
Proof.
  unfold std_squared, std_is_zero. destruct (mean xs) as [m|]; [|done].
  destruct (length (present xs) <? 2)%nat eqn:Hlen; [done|].
  apply Nat.ltb_ge in Hlen. intros [= <-] Hnz.
  assert (Hpos : (0 < inject_Z (Z.of_nat (length (present xs)) - 1))%Q).
  { rewrite <- (Zlt_Qlt 0). lia. }
  assert (Hge : (0 <= Qsum ((λ y, (y - m) * (y - m))%Q <$> present xs)
                     / inject_Z (Z.of_nat (length (present xs)) - 1))%Q).
  { apply Qle_shift_div_l; [done|]. rewrite Qmult_0_l. apply Qsum_squares_nonneg. }
  rewrite <- (Qred_correct (Qsum _ / _)) in Hge.
  apply Qle_lt_or_eq in Hge as [Hlt|Heq]; [done|].
  symmetry in Heq. apply Qeq_bool_iff in Heq. congruence.
Qed.

(** ** Duplicates: what [keep='first'] leaves has no duplicates *)

Lemma kept_unseen_distinct rs : ∀ seen,
  Forall (unseen seen) (kept seen rs) ∧ ForallOrdPairs differs (kept seen rs).
Proof.
  induction rs as [|r rs IH]; intros seen.
  - split; constructor.
  - destruct (IH (cells r :: seen)) as [Hun Hdist].
    assert (Hweak : Forall (λ r', differs r r' ∧ unseen seen r') (kept (cells r :: seen) rs)).
    { eapply Forall_impl; [exact Hun|]. intros r' Hr'. unfold unseen in Hr'.
      simpl in Hr'. apply orb_false_iff in Hr'. exact Hr'. }
    unfold kept in *. simpl.
    destruct (existsb (cells_eqb (cells r)) seen) eqn:Hseen; simpl.
    + split; [|exact Hdist]. eapply Forall_impl; [exact Hweak|]. by intros ? [_ ?].
    + split.
      * constructor; [exact Hseen|]. eapply Forall_impl; [exact Hweak|]. by intros ? [_ ?].
      * constructor; [|exact Hdist]. eapply Forall_impl; [exact Hweak|]. by intros ? [? _].
Qed.

Lemma kept_all rs : ∀ seen,
  Forall (unseen seen) rs → ForallOrdPairs differs rs → kept seen rs = rs.
Proof.
  induction rs as [|r rs IH]; intros seen Hun Hdist; [done|].
  inversion Hun as [|? ? Hr Hrs]; subst. inversion Hdist as [|? ? Hd Hds]; subst.
  unfold kept in *. simpl. unfold unseen in Hr. rewrite Hr. simpl. f_equal.
  apply IH; [|exact Hds].
  apply Forall_forall. intros r' Hin. unfold unseen. simpl.
  apply orb_false_iff. split.
  - rewrite List.Forall_forall in Hd. apply Hd. by apply list_elem_of_In.
  - rewrite Forall_forall in Hrs. by apply Hrs.
Qed.

Lemma drop_duplicates_first_idempotent d :
  drop_duplicates keep_first (drop_duplicates keep_first d)
  = drop_duplicates keep_first d.
Proof.
  unfold drop_duplicates, boolean_index, duplicated. simpl. f_equal.
  destruct (kept_unseen_distinct (rows d) []) as [Hun Hdist].
  exact (kept_all _ [] Hun Hdist).
Qed.

Lemma remove_duplicates_first_run s d :
  working_copy s = Some d →
  let d' := drop_duplicates keep_first d in
  let removed := (len d - len d')%nat in
  let l := fresh (dom (heap s)) in
  Cleaner.remove_duplicates "first" s
  = (Component (<[l := d']> (heap s)) l
       (if (0 <? removed)%nat
        then log s ++ ["Removed " +:+ pretty removed +:+ " duplicate rows"]
        else log s),
     Ok l).
Proof.
  intros Hd. simpl. unfold Cleaner.remove_duplicates.
  rewrite (bind_ok _ _ _ _ _ (self_df_ok _ _ Hd)).
  change (parse_keep "first") with (@Ok keep_t keep_first).
  unfold mbind, py_bind, bind, lift, rebind_df, self_df, self_ref, when. simpl.
  rewrite lookup_insert_eq.
  destruct (0 <? len d - len (drop_duplicates keep_first d))%nat; reflexivity.
Qed.

(** C6. [remove_duplicates(keep='first')] applied twice leaves the working
    copy that one application leaves (the first occurrences of the rows of
    the frame it started from), and the second application, which removes
    no row, adds nothing to the log. *)
Theorem remove_duplicates_first_twice (s : component) (d : DataFrame) :
  working_copy s = Some d →
  ∃ s1 l1 s2 l2,
    Cleaner.remove_duplicates "first" s = (s1, Ok l1)
    ∧ Cleaner.remove_duplicates "first" s1 = (s2, Ok l2)
    ∧ working_copy s1 = Some (drop_duplicates keep_first d)
    ∧ working_copy s2 = working_copy s1
    ∧ Cleaner.cleaning_log s2 = Cleaner.cleaning_log s1.
Proof.
  intros Hd.
  pose proof (remove_duplicates_first_run s d Hd) as H1. simpl in H1.
  eexists _, _. 
  assert (Hw1 : working_copy
            (Component (<[fresh (dom (heap s)) := drop_duplicates keep_first d]> (heap s))
               (fresh (dom (heap s)))
               (if (0 <? len d - len (drop_duplicates keep_first d))%nat
                then log s ++ ["Removed " +:+ pretty (len d - len (drop_duplicates keep_first d))%nat
                               +:+ " duplicate rows"]
                else log s))
          = Some (drop_duplicates keep_first d)).
  { unfold working_copy. simpl. apply lookup_insert_eq. }
  pose proof (remove_duplicates_first_run _ _ Hw1) as H2. simpl in H2.
  rewrite drop_duplicates_first_idempotent, Nat.sub_diag in H2. simpl in H2.
  eexists _, _. split; [exact H1|]. split; [exact H2|].
  split; [exact Hw1|]. split; [|reflexivity].
  rewrite Hw1. unfold working_copy. simpl. apply lookup_insert_eq.
Qed.

Lemma remove_duplicates_first_twice_witness :
  ∃ s1 l1 s2 l2,
    Cleaner.remove_duplicates "first" (Sample.holding Sample.with_duplicates) = (s1, Ok l1)
    ∧ Cleaner.remove_duplicates "first" s1 = (s2, Ok l2)
    ∧ working_copy s1 = Some (drop_duplicates keep_first Sample.with_duplicates)
    ∧ working_copy s2 = working_copy s1
    ∧ Cleaner.cleaning_log s2 = Cleaner.cleaning_log s1.
Proof.
  apply (remove_duplicates_first_twice (Sample.holding Sample.with_duplicates)
           Sample.with_duplicates).
  reflexivity.
Defined.

(** ** Filling with the mean *)

Lemma col_pos_head c dt cols : col_pos c ((c, dt) :: cols) = Some O.
Proof. simpl. by rewrite String.eqb_refl. Qed.

Lemma one_two_null_four_mean :
  mean [Some 1%Q; Some 2%Q; None; Some 4%Q] = Some (7 # 3)%Q
  ∧ format_2f (Some (7 # 3)%Q) = "2.33".
Proof. split; vm_compute; reflexivity. Qed.

Lemma fill_one_two_null_four c :
  Cleaner.fill_column c (VFloat (7 # 3)) (Sample.one_two_null_four c)
  = Sample.single c float64 [VFloat 1; VFloat 2; VFloat (7 # 3); VFloat 4].
Proof.
  unfold Cleaner.fill_column, set_column, dtype_of, series, Sample.one_two_null_four,
    Sample.single.
  cbn [columns]. rewrite col_pos_head. reflexivity.
Qed.

(** C5. On a column holding [1, 2, null, 4], [fill_missing_values] with
    the strategy ['mean'] stores the mean of the three values, 7/3, as it
    is, in the null cell; the entry it appends to the log prints that value
    with two decimals, [2.33], which is another number. *)
Theorem fill_missing_mean_unrounded `{Library} (s : component) (c : string) :
  working_copy s = Some (Sample.one_two_null_four c) →
  ∃ s',
    Cleaner.fill_missing_values [(c, VStr "mean")] s = (s', Ok (df s))
    ∧ working_copy s'
      = Some (Sample.single c float64 [VFloat 1; VFloat 2; VFloat (7 # 3); VFloat 4])
    ∧ Cleaner.cleaning_log s'
      = Cleaner.cleaning_log s
        ++ ["Filled 1 missing values in '" +:+ c +:+ "' with mean: 2.33"]
    ∧ ¬ (7 # 3 == 233 # 100)%Q.
Proof.
  intros Hd.
  assert (Hrun : Cleaner.fill_missing_value c (VStr "mean") s
    = (Component (alter (Cleaner.fill_column c (VFloat (7 # 3))) (df s) (heap s)) (df s)
         (log s ++ ["Filled 1 missing values in '" +:+ c +:+ "' with mean: 2.33"]), Ok tt)).
  { unfold Cleaner.fill_missing_value.
    rewrite (bind_ok _ _ _ _ _ (self_df_ok _ _ Hd)).
    unfold has_column, series, Sample.one_two_null_four, Sample.single. cbn [columns].
    rewrite col_pos_head.
    reflexivity. }
  eexists. split.
  { unfold Cleaner.fill_missing_values, for_each, mbind, py_bind, bind.
    rewrite Hrun. reflexivity. }
  split; [|split].
  - unfold working_copy in *. simpl. rewrite lookup_alter. case_decide; [|done].
    rewrite Hd. simpl. by rewrite fill_one_two_null_four.
  - reflexivity.
  - intros Heq. vm_compute in Heq. discriminate.
Qed.

Lemma fill_missing_mean_unrounded_witness :
  ∃ s',
    Cleaner.fill_missing_values (H := Sample.library) [("A", VStr "mean")]
      (Sample.holding (Sample.one_two_null_four "A"))
    = (s', Ok 1%positive)
    ∧ working_copy s'
      = Some (Sample.single "A" float64 [VFloat 1; VFloat 2; VFloat (7 # 3); VFloat 4])
    ∧ Cleaner.cleaning_log s' = ["Filled 1 missing values in 'A' with mean: 2.33"]
    ∧ ¬ (7 # 3 == 233 # 100)%Q.
Proof.
  apply (fill_missing_mean_unrounded (H := Sample.library)
           (Sample.holding (Sample.one_two_null_four "A")) "A").
  reflexivity.
Defined.

(** ** Removing outliers *)

Lemma as_numbers_cons c cs xs :
  as_numbers (c :: cs) = Ok xs →
  ∃ x xs', xs = x :: xs' ∧ as_number c = Ok x ∧ as_numbers cs = Ok xs'.
Proof.
  simpl. destruct (as_number c) as [x|e]; [|discriminate].
  destruct (as_numbers cs) as [xs'|e]; [|discriminate].
  intros [= <-]. eauto.
Qed.

Lemma mask_rows_kept (f : option Q → bool) i rs : ∀ xs,
  as_numbers (cell_at i <$> rs) = Ok xs →
  Forall (λ r, ∃ x, as_number (cell_at i r) = Ok x ∧ f x = true)
         (mask_rows (f <$> xs) rs).
Proof.
  induction rs as [|r rs IH]; intros xs Hxs.
  - destruct xs; constructor.
  - apply as_numbers_cons in Hxs as (x & xs' & -> & Hx & Hxs'). simpl.
    destruct (f x) eqn:Hf; [constructor; eauto|]; by apply IH.
Qed.

Lemma mask_rows_none (f : option Q → bool) xs rs :
  (∀ x, f x = false) → mask_rows (f <$> xs) rs = [].
Proof.
  intros Hf. revert rs. induction xs as [|x xs IH]; intros [|r rs]; simpl; try done.
  rewrite Hf. apply IH.
Qed.

Lemma dropna_cells_cons c cs :
  dropna_cells (c :: cs) = if isnull c then dropna_cells cs else c :: dropna_cells cs.
Proof.
  unfold dropna_cells. rewrite filter_cons.
  destruct (isnull c); case_decide; done.
Qed.

Lemma as_number_null c x : as_number c = Ok x → isnull c = bool_decide (x = None).
Proof. destruct c; simpl; intros [= <-]; done. Qed.

Lemma present_length cs : ∀ xs,
  as_numbers cs = Ok xs → length (present xs) = length (dropna_cells cs).
Proof.
  induction cs as [|c cs IH]; intros xs Hxs.
  - by injection Hxs as <-.
  - apply as_numbers_cons in Hxs as (x & xs' & -> & Hx & Hxs').
    specialize (IH _ Hxs'). rewrite dropna_cells_cons, (as_number_null _ _ Hx).
    unfold present in *. destruct x; simpl; [f_equal|]; exact IH.
Qed.

Lemma std_squared_few xs :
  (length (present xs) < 2)%nat → std_squared xs = None.
Proof.
  intros Hlen. unfold std_squared. destruct (mean xs); [|done].
  by apply Nat.ltb_lt in Hlen as ->.
Qed.

Lemma zscore_le_not_gt x m v t : zscore_le x m v t = true → zscore_gt x m v t = false.
Proof.
  unfold zscore_le, zscore_gt. destruct x, m, v; try done.
  destruct (Qlt_bool t 0); [done|]. unfold Qlt_bool. by intros ->.
Qed.

Lemma series_boolean_index d mask column :
  series (boolean_index d mask) column
  = match col_pos column (columns d) with
    | Some i => cell_at i <$> mask_rows mask (rows d)
    | None => []
    end.
Proof. reflexivity. Qed.

Lemma remove_outliers_run s d column threshold xs :
  working_copy s = Some d →
  has_column d column = true →
  as_numbers (series d column) = Ok xs →
  std_is_zero (std_squared xs) = false →
  let d' := boolean_index d
              ((λ x, zscore_le x (mean xs) (std_squared xs) threshold) <$> xs) in
  ∃ s', Cleaner.remove_outliers column threshold s = (s', Ok (df s'))
        ∧ working_copy s' = Some d'.
Proof.
  intros Hd Hcol Hxs Hstd d'. unfold Cleaner.remove_outliers.
  rewrite (bind_ok _ _ _ _ _ (self_df_ok _ _ Hd)). rewrite Hcol. simpl negb. cbv iota.
  rewrite Hxs. unfold lift at 1. unfold mbind at 1. unfold py_bind, bind at 1.
  rewrite Hstd. fold d'.
  unfold mbind, py_bind, bind, rebind_df, self_df, self_ref, when, log_append. simpl.
  rewrite lookup_insert_eq.
  destruct (0 <? len d - len d')%nat; eexists; (split; [reflexivity|]);
    unfold working_copy; simpl; apply lookup_insert_eq.
Qed.

(** C8, as the code has it. When the column is there, holds numbers or
    nulls, and its standard deviation is not zero, [remove_outliers] leaves
    the rows whose score is at most the threshold: no row with a null in
    that column stays, and no row whose score exceeds the threshold. A column
    with fewer than two values has no standard deviation ([NaN], which is
    not zero), and then no row stays at all. *)
Theorem remove_outliers_drops_nulls (s : component) (d : DataFrame)
    (column : string) (threshold : Q) (xs : list (option Q)) :
  working_copy s = Some d →
  has_column d column = true →
  as_numbers (series d column) = Ok xs →
  ((length (dropna_cells (series d column)) < 2)%nat →
   std_is_zero (std_squared xs) = false)
  ∧ (std_is_zero (std_squared xs) = false →
     ∃ s' l d',
       Cleaner.remove_outliers column threshold s = (s', Ok l)
       ∧ working_copy s' = Some d'
       ∧ d' = boolean_index d
                ((λ x, zscore_le x (mean xs) (std_squared xs) threshold) <$> xs)
       ∧ Forall (λ c, isnull c = false
                      ∧ ∃ x m v,
                          as_number c = Ok (Some x)
                          ∧ mean xs = Some m ∧ std_squared xs = Some v ∧ (0 < v)%Q
                          ∧ zscore_gt (Some x) (Some m) (Some v) threshold = false
                          ∧ (Rabs ((Q2R x - Q2R m) / sqrt (Q2R v)) <= Q2R threshold)%R)
                (series d' column)
       ∧ ((length (dropna_cells (series d column)) < 2)%nat → rows d' = [])).
Proof.
  intros Hd Hcol Hxs.
  assert (Hfew : (length (dropna_cells (series d column)) < 2)%nat →
                 std_squared xs = None).
  { intros Hlen. apply std_squared_few. by rewrite (present_length _ _ Hxs). }
  split; [by intros ->%Hfew|].
  intros Hstd.
  destruct (remove_outliers_run s d column threshold xs Hd Hcol Hxs Hstd) as (s' & Hrun & Hw).
  eexists s', _, _. split; [exact Hrun|]. split; [exact Hw|]. split; [reflexivity|].
  split.
  - rewrite series_boolean_index.
    unfold has_column in Hcol. apply bool_decide_eq_true in Hcol as [i Hi].
    unfold series in Hxs. rewrite Hi in Hxs |- *.
    apply Forall_fmap.
    eapply Forall_impl; [exact (mask_rows_kept _ i (rows d) xs Hxs)|].
    intros r (x & Hx & Hle). simpl. split.
    + revert Hx Hle. destruct (cell_at i r); try done.
      simpl. by intros [= <-].
    + destruct x as [x|], (mean xs) as [m|], (std_squared xs) as [v|] eqn:Hv;
        try done.
      pose proof (std_squared_positive xs v Hv Hstd) as Hpos.
      exists x, m, v. do 4 (split; [done|]).
      split; [exact (zscore_le_not_gt (Some x) (Some m) (Some v) threshold Hle)|].
      by apply zscore_le_real.
  - intros Hlen. simpl. rewrite (Hfew Hlen). apply mask_rows_none.
    intros x. unfold zscore_le. by destruct x, (mean xs).
Qed.

Lemma remove_outliers_drops_nulls_witness :
  ((length (dropna_cells (series Sample.five_six_null_hundred "A")) < 2)%nat →
   std_is_zero (std_squared [Some 5%Q; Some 6%Q; None; Some 100%Q]) = false)
  ∧ (std_is_zero (std_squared [Some 5%Q; Some 6%Q; None; Some 100%Q]) = false →
     ∃ s' l d',
       Cleaner.remove_outliers "A" 3 (Sample.holding Sample.five_six_null_hundred)
       = (s', Ok l)
       ∧ working_copy s' = Some d'
       ∧ d' = boolean_index Sample.five_six_null_hundred
                ((λ x, zscore_le x (mean [Some 5%Q; Some 6%Q; None; Some 100%Q])
                         (std_squared [Some 5%Q; Some 6%Q; None; Some 100%Q]) 3)
                 <$> [Some 5%Q; Some 6%Q; None; Some 100%Q])
       ∧ Forall (λ c, isnull c = false
                      ∧ ∃ x m v,
                          as_number c = Ok (Some x)
                          ∧ mean [Some 5%Q; Some 6%Q; None; Some 100%Q] = Some m
                          ∧ std_squared [Some 5%Q; Some 6%Q; None; Some 100%Q] = Some v
                          ∧ (0 < v)%Q
                          ∧ zscore_gt (Some x) (Some m) (Some v) 3 = false
                          ∧ (Rabs ((Q2R x - Q2R m) / sqrt (Q2R v)) <= Q2R 3)%R)
                (series d' "A")
       ∧ ((length (dropna_cells (series Sample.five_six_null_hundred "A")) < 2)%nat →
          rows d' = [])).
Proof.
  apply (remove_outliers_drops_nulls (Sample.holding Sample.five_six_null_hundred)
           Sample.five_six_null_hundred "A" 3 [Some 5%Q; Some 6%Q; None; Some 100%Q]);
    reflexivity.
Defined.

(** C8 as it is stated fails where the guard on a zero standard deviation
    returns early: on [[5, 5, null]] the call changes nothing and the row
    with the null stays. *)
Lemma remove_outliers_keeps_null_at_zero_std :
  has_column Sample.five_five_null "A" = true
  ∧ Cleaner.remove_outliers "A" 3 (Sample.holding Sample.five_five_null)
    = (Sample.holding Sample.five_five_null, Ok 1%positive)
  ∧ working_copy (Sample.holding Sample.five_five_null) = Some Sample.five_five_null
  ∧ series Sample.five_five_null "A" = [VFloat 5; VFloat 5; NA].
Proof. repeat split; vm_compute; reflexivity. Qed.

(** ** Fixing values in a column that is not there *)

Lemma col_pos_new c dt cols :
  col_pos c cols = None → col_pos c (cols ++ [(c, dt)]) = Some (length cols).
Proof.
  induction cols as [|[n dt'] cols IH]; simpl.
  - by rewrite String.eqb_refl.
  - destruct (String.eqb n c); [done|].
    destruct (col_pos c cols); [done|]. intros _. by rewrite IH.
Qed.

Lemma upcast_new_column_dtype v : upcast (new_column_dtype v) v = new_column_dtype v.
Proof. by destruct v. Qed.

Lemma coerce_idempotent dt v : coerce dt (coerce dt v) = coerce dt v.
Proof. by destruct dt, v. Qed.

Lemma has_column_false d c : has_column d c = false → col_pos c (columns d) = None.
Proof.
  unfold has_column. intros Hc%bool_decide_eq_false.
  destruct (col_pos c (columns d)); [|done]. destruct Hc. eauto.
Qed.

Section created_column.
Variables (d : DataFrame) (column : string) (v : cell).
Hypothesis Hrect : rectangular d = true.
Hypothesis Hnew : col_pos column (columns d) = None.

Abbreviation created := (Cleaner.created d column v).
Abbreviation hits := (Cleaner.hits d).

Lemma at_set_creates idx : at_set idx column v d = created [idx].
Proof.
  unfold at_set, created. rewrite Hnew. f_equal.
  apply list_fmap_ext. intros _ r _. f_equal.
  by rewrite (bool_decide_ext (label r = idx) (label r ∈ [idx]))
    by (by rewrite list_elem_of_singleton).
Qed.

Lemma created_index fixed : index (created fixed) = index d.
Proof.
  unfold index, created. simpl. rewrite <- list_fmap_compose.
  by apply list_fmap_ext.
Qed.

Lemma created_col_pos fixed :
  col_pos column (columns (created fixed)) = Some (length (columns d)).
Proof. apply col_pos_new, Hnew. Qed.

Lemma created_dtype fixed : dtype_of (created fixed) column = new_column_dtype v.
Proof.
  unfold dtype_of. rewrite created_col_pos. unfold created. cbn [columns].
  by rewrite lookup_app_r, Nat.sub_diag by lia.
Qed.

Lemma at_set_created idx fixed :
  at_set idx column v (created fixed) = created (idx :: fixed).
Proof.
  unfold at_set. rewrite created_col_pos, created_dtype, upcast_new_column_dtype.
  unfold set_dtype, created. cbn [columns rows].
  rewrite lookup_app_r, Nat.sub_diag by lia. cbn [lookup list_lookup].
  f_equal.
  - rewrite insert_app_r_alt, Nat.sub_diag by lia. reflexivity.
  - rewrite <- list_fmap_compose. apply list_fmap_ext. intros k r Hr. cbn [compose].
    assert (Hlen : length (cells r) = length (columns d)).
    { unfold rectangular in Hrect. rewrite forallb_forall in Hrect.
      apply Nat.eqb_eq, Hrect, list_elem_of_In. by eapply list_elem_of_lookup_2. }
    unfold set_cell, append_cell, cell_at. cbn [label cells].
    rewrite <- Hlen.
    rewrite insert_app_r_alt, Nat.sub_diag, lookup_app_r, Nat.sub_diag by lia.
    cbn [lookup list_lookup default].
    rewrite insert_app_r_alt, Nat.sub_diag by lia. cbn [insert list_insert].
    rewrite (bool_decide_ext (label r ∈ idx :: fixed) (label r = idx ∨ label r ∈ fixed))
      by apply elem_of_cons.
    destruct (bool_decide (label r = idx)) eqn:Hidx.
    + apply bool_decide_eq_true in Hidx.
      rewrite (bool_decide_eq_true_2 (label r = idx ∨ _)) by auto.
      reflexivity.
    + apply bool_decide_eq_false in Hidx.
      rewrite (bool_decide_ext (label r = idx ∨ label r ∈ fixed) (label r ∈ fixed))
        by tauto.
      destruct (bool_decide (label r ∈ fixed)); cbn [Datatypes.id];
        [by rewrite coerce_idempotent | by destruct (new_column_dtype v)].
Qed.

Lemma fix_each_created rest : ∀ fixed count s,
  working_copy s = Some (created fixed) →
  ∃ s', Cleaner.fix_each column v rest count s
        = (s', Ok (count + length (hits rest))%nat)
        ∧ working_copy s' = Some (created (reverse (hits rest) ++ fixed))
        ∧ df s' = df s ∧ log s' = log s.
Proof.
  induction rest as [|idx rest IH]; intros fixed count s Hs.
  - exists s. simpl. rewrite Nat.add_0_r. done.
  - cbn [Cleaner.fix_each]. rewrite (bind_ok _ _ _ _ _ (self_df_ok _ _ Hs)).
    rewrite created_index. unfold hits. rewrite filter_cons.
    destruct (decide (idx ∈ index d)) as [Hin|Hin].
    + rewrite (bool_decide_eq_true_2 _ Hin).
      unfold mbind at 1, py_bind, bind at 1.
      destruct (IH (idx :: fixed) (S count) (mutate_df (at_set idx column v) s).1)
        as (s' & Hrun & Hw & Hdf & Hlog).
      { rewrite working_copy_mutate, Hs. simpl. by rewrite at_set_created. }
      exists s'. simpl in Hrun |- *. rewrite Hrun. split; [do 2 f_equal; unfold hits; lia|].
      split; [|done]. rewrite Hw. fold (hits rest). rewrite reverse_cons, <- app_assoc.
      done.
    + rewrite (bool_decide_eq_false_2 _ Hin). by apply IH.
Qed.

Lemma fix_each_creates rest : ∀ count s,
  working_copy s = Some d →
  hits rest ≠ [] →
  ∃ s', Cleaner.fix_each column v rest count s
        = (s', Ok (count + length (hits rest))%nat)
        ∧ working_copy s' = Some (created (reverse (hits rest)))
        ∧ df s' = df s ∧ log s' = log s.
Proof.
  induction rest as [|idx rest IH]; intros count s Hs Hhit; [done|].
  cbn [Cleaner.fix_each]. rewrite (bind_ok _ _ _ _ _ (self_df_ok _ _ Hs)).
  unfold hits in *. rewrite filter_cons in Hhit |- *.
  destruct (decide (idx ∈ index d)) as [Hin|Hin].
  - rewrite (bool_decide_eq_true_2 _ Hin).
    unfold mbind at 1, py_bind, bind at 1.
    destruct (fix_each_created rest [idx] (S count) (mutate_df (at_set idx column v) s).1)
      as (s' & Hrun & Hw & Hdf & Hlog).
    { rewrite working_copy_mutate, Hs. simpl. by rewrite at_set_creates. }
    exists s'. simpl in Hrun |- *. rewrite Hrun. split; [do 2 f_equal; unfold hits; lia|].
    split; [|done]. rewrite Hw. by rewrite reverse_cons.
  - rewrite (bool_decide_eq_false_2 _ Hin). by apply IH.
Qed.

Lemma created_hits idxs :
  created (reverse (hits idxs)) = created idxs.
Proof.
  unfold created. f_equal. apply list_fmap_ext. intros k r Hr. f_equal.
  rewrite (bool_decide_ext (label r ∈ reverse (hits idxs)) (label r ∈ idxs)); [done|].
  rewrite elem_of_reverse. unfold hits.
  rewrite list_elem_of_filter. split; [tauto|]. intros Hin. split; [|done].
  unfold index. apply list_elem_of_fmap. exists r. split; [done|].
  by eapply list_elem_of_lookup_2.
Qed.

Lemma created_series fixed :
  series (created fixed) column
  = (λ r, if bool_decide (label r ∈ fixed)
          then coerce (new_column_dtype v) v else NA) <$> rows d.
Proof.
  unfold series, created. cbn [columns rows]. rewrite (col_pos_new _ _ _ Hnew).
  rewrite <- list_fmap_compose. apply list_fmap_ext. intros k r Hr. cbn [compose].
  assert (Hlen : length (cells r) = length (columns d)).
  { unfold rectangular in Hrect. rewrite forallb_forall in Hrect.
    apply Nat.eqb_eq, Hrect, list_elem_of_In. by eapply list_elem_of_lookup_2. }
  unfold cell_at, append_cell. cbn [cells]. rewrite <- Hlen.
  by rewrite lookup_app_r, Nat.sub_diag by lia.
Qed.

End created_column.

(** C9. When the named column is not in the working copy and at least one
    of the given indices labels a row, [fix_invalid_values] does not skip:
    the column is added as the last one, holding [fix_value] in the rows
    whose label is among the indices and null in the others, and the log
    receives the number of indices that were found. *)
Theorem fix_invalid_values_creates_column (s : component) (d : DataFrame)
    (column : string) (indices : list Z) (fix_value : cell) :
  working_copy s = Some d →
  rectangular d = true →
  has_column d column = false →
  (∃ idx, idx ∈ indices ∧ idx ∈ index d) →
  let count := length (filter (λ idx, idx ∈ index d) indices) in
  let dt := new_column_dtype fix_value in
  let value (r : row) :=
    if bool_decide (label r ∈ indices) then coerce dt fix_value else NA in
  ∃ s' d',
    Cleaner.fix_invalid_values column indices fix_value s = (s', Ok (df s))
    ∧ working_copy s' = Some d'
    ∧ has_column d' column = true
    ∧ columns d' = columns d ++ [(column, dt)]
    ∧ rows d' = (λ r, append_cell (value r) r) <$> rows d
    ∧ series d' column = value <$> rows d
    ∧ (0 < count)%nat
    ∧ Cleaner.cleaning_log s'
      = Cleaner.cleaning_log s
        ++ ["Fixed " +:+ pretty count +:+ " invalid values in '" +:+ column +:+ "'"].
Proof.
  intros Hs Hrect Hcol (idx & Hidx & Hrow) count dt value.
  apply has_column_false in Hcol.
  assert (Hhit : filter (λ idx, idx ∈ index d) indices ≠ []).
  { intros Hnil. assert (Hin : idx ∈ filter (λ idx, idx ∈ index d) indices)
      by by apply list_elem_of_filter.
    rewrite Hnil in Hin. by apply not_elem_of_nil in Hin. }
  assert (Hpos : (0 < count)%nat).
  { subst count. destruct (filter _ indices); [done|simpl; lia]. }
  destruct (fix_each_creates d column fix_value Hrect Hcol indices 0%nat s Hs Hhit)
    as (s1 & Hrun & Hw & Hdf & Hlog).
  rewrite (created_hits d column fix_value) in Hw.
  unfold Cleaner.hits, Cleaner.created in Hrun, Hw.
  unfold Cleaner.fix_invalid_values.
  rewrite (bind_ok _ _ _ _ _ Hrun). cbn [Nat.add]. fold count.
  apply Nat.ltb_lt in Hpos as Hposb. rewrite Hposb.
  unfold when, mbind, py_bind, bind, log_append, self_ref. cbn [df].
  eexists _, _. split; [by rewrite Hdf|].
  split; [unfold working_copy in *; cbn [heap df]; rewrite <- Hdf; exact Hw|].
  split; [|split; [reflexivity|split; [reflexivity|]]].
  - unfold has_column. cbn [columns]. rewrite (col_pos_new _ _ _ Hcol).
    apply bool_decide_eq_true. eauto.
  - split; [exact (created_series d column fix_value Hrect Hcol indices)|].
    split; [by apply Nat.ltb_lt|].
    unfold Cleaner.cleaning_log. cbn [log]. by rewrite Hlog.
Qed.

Lemma fix_invalid_values_creates_column_witness :
  ∃ s' d',
    Cleaner.fix_invalid_values "B" [0; 5; 2]%Z (VStr "x")
      (Sample.holding (Sample.one_two_null_four "A"))
    = (s', Ok 1%positive)
    ∧ working_copy s' = Some d'
    ∧ has_column d' "B" = true
    ∧ columns d' = [("A", float64); ("B", object)]
    ∧ rows d'
      = (λ r, append_cell (if bool_decide (label r ∈ [0; 5; 2]%Z) then VStr "x" else NA) r)
        <$> rows (Sample.one_two_null_four "A")
    ∧ series d' "B"
      = (λ r, if bool_decide (label r ∈ [0; 5; 2]%Z) then VStr "x" else NA)
        <$> rows (Sample.one_two_null_four "A")
    ∧ (0 < 2)%nat
    ∧ Cleaner.cleaning_log s' = ["Fixed 2 invalid values in 'B'"].
Proof.
  apply (fix_invalid_values_creates_column
           (Sample.holding (Sample.one_two_null_four "A"))
           (Sample.one_two_null_four "A") "B" [0; 5; 2]%Z (VStr "x")).
  - reflexivity.
  - reflexivity.
  - reflexivity.
  - exists 0%Z. split; [by apply list_elem_of_here|]. by apply list_elem_of_here.
Defined.

(** ** Roles *)

Lemma true_div_ok a b : (0 < b)%nat → ∃ q, true_div a b = Ok q.
Proof. destruct b; [lia|]. intros _. simpl. eauto. Qed.

(** a column goes to one bucket, and the division is never by zero *)
Lemma classify_column_total d s column :
  ∃ s', TableauPrep.classify_column d s column = Ok s'
        ∧ TableauPrep.dimensions s' ++ TableauPrep.measures s' ++ TableauPrep.dates s'
          ≡ₚ column :: TableauPrep.dimensions s ++ TableauPrep.measures s
                       ++ TableauPrep.dates s.
Proof.
  unfold TableauPrep.classify_column.
  assert (Hratio : ∃ q, (if (0 <? len d)%nat
                         then true_div (nunique (series d column)) (len d)
                         else Ok 0%Q) = Ok q).
  { destruct (0 <? len d)%nat eqn:Hlen; [|eauto].
    apply true_div_ok. by apply Nat.ltb_lt. }
  destruct Hratio as [q ->].
  destruct (dtype_eqb (dtype_of d column) datetime64);
    [|destruct (dtype_eqb (dtype_of d column) int64 || dtype_eqb (dtype_of d column) float64);
      [destruct (Qlt_bool (1 # 2) q)|]];
    eexists; (split; [reflexivity|]); cbn [TableauPrep.dimensions TableauPrep.measures TableauPrep.dates].
  all: solve_Permutation.
Qed.

Lemma classify_columns_total d cols : ∀ s,
  ∃ g, TableauPrep.classify_columns d cols s = Ok g
       ∧ TableauPrep.dimensions g ++ TableauPrep.measures g ++ TableauPrep.dates g
         ≡ₚ cols ++ TableauPrep.dimensions s ++ TableauPrep.measures s
                 ++ TableauPrep.dates s.
Proof.
  induction cols as [|c cols IH]; intros s.
  - exists s. done.
  - destruct (classify_column_total d s c) as (s' & Hc & Hp).
    destruct (IH s') as (g & Hg & Hpg).
    exists g. simpl. rewrite Hc. split; [exact Hg|].
    rewrite Hpg, Hp. solve_Permutation.
Qed.

Lemma guide_total d :
  ∃ g, TableauPrep.guide d = Ok g
       ∧ TableauPrep.dimensions g ++ TableauPrep.measures g ++ TableauPrep.dates g
         ≡ₚ column_names d.
Proof.
  destruct (classify_columns_total d (column_names d) (TableauPrep.Suggestions [] [] []))
    as (g & Hg & Hp).
  exists g. split; [exact Hg|]. simpl in Hp. by rewrite app_nil_r in Hp.
Qed.

Lemma suggested_role_known g column :
  column ∈ TableauPrep.dimensions g ++ TableauPrep.measures g ++ TableauPrep.dates g →
  TableauPrep.suggested_role g column ≠ TableauPrep.Unknown.
Proof.
  rewrite !elem_of_app. intros Hin. unfold TableauPrep.suggested_role.
  repeat case_bool_decide; try done. tauto.
Qed.

(** C10. Every row of the table built by [generate_metadata] carries the
    role Dimension, Measure or Date and never Unknown: the buckets of
    [create_dimension_measure_guide] hold every column of the frame, each
    in one bucket. *)
Theorem generate_metadata_roles `{Library} (s : component) (d : DataFrame) :
  working_copy s = Some d →
  ∃ g table,
    TableauPrep.create_dimension_measure_guide s = (s, Ok g)
    ∧ TableauPrep.generate_metadata s = (s, Ok table)
    ∧ TableauPrep.Column_Name <$> table = column_names d
    ∧ TableauPrep.dimensions g ++ TableauPrep.measures g ++ TableauPrep.dates g
      ≡ₚ column_names d
    ∧ Forall (λ r, TableauPrep.Suggested_Role r = TableauPrep.suggested_role g (TableauPrep.Column_Name r)
                   ∧ TableauPrep.Suggested_Role r ∈ [TableauPrep.Dimension; TableauPrep.Measure; TableauPrep.Date])
             table.
Proof.
  intros Hs. destruct (guide_total d) as (g & Hg & Hp).
  assert (Hguide : TableauPrep.create_dimension_measure_guide s = (s, Ok g)).
  { unfold TableauPrep.create_dimension_measure_guide.
    rewrite (bind_ok _ _ _ _ _ (self_df_ok _ _ Hs)). unfold lift. by rewrite Hg. }
  exists g, (TableauPrep.describe d g <$> column_names d).
  split; [exact Hguide|]. split; [|split; [|split; [exact Hp|]]].
  - unfold TableauPrep.generate_metadata.
    rewrite (bind_ok _ _ _ _ _ Hguide), (bind_ok _ _ _ _ _ (self_df_ok _ _ Hs)).
    reflexivity.
  - rewrite <- list_fmap_compose. apply list_fmap_id.
  - apply Forall_fmap, Forall_forall. intros c Hc. cbn [compose TableauPrep.describe
      TableauPrep.Suggested_Role TableauPrep.Column_Name]. split; [done|].
    assert (Hk := suggested_role_known g c). rewrite Hp in Hk. specialize (Hk Hc).
    destruct (TableauPrep.suggested_role g c); [| | |done];
      rewrite !elem_of_cons; auto.
Qed.

Lemma generate_metadata_roles_witness :
  ∃ g table,
    TableauPrep.create_dimension_measure_guide (Sample.holding Sample.sales)
    = (Sample.holding Sample.sales, Ok g)
    ∧ TableauPrep.generate_metadata (H := Sample.library) (Sample.holding Sample.sales)
      = (Sample.holding Sample.sales, Ok table)
    ∧ TableauPrep.Column_Name <$> table = column_names Sample.sales
    ∧ TableauPrep.dimensions g ++ TableauPrep.measures g ++ TableauPrep.dates g
      ≡ₚ column_names Sample.sales
    ∧ Forall (λ r, TableauPrep.Suggested_Role r = TableauPrep.suggested_role g (TableauPrep.Column_Name r)
                   ∧ TableauPrep.Suggested_Role r ∈ [TableauPrep.Dimension; TableauPrep.Measure; TableauPrep.Date])
             table.
Proof.
  apply (generate_metadata_roles (H := Sample.library) (Sample.holding Sample.sales) Sample.sales).
  reflexivity.
Defined.

(** ** A frame without rows *)

Lemma classify_columns_no_rows d cols : ∀ s,
  len d = 0%nat →
  TableauPrep.classify_columns d cols s
  = Ok (TableauPrep.Suggestions
          (TableauPrep.dimensions s
           ++ filter (λ c, dtype_eqb (dtype_of d c) datetime64 = false) cols)
          (TableauPrep.measures s)
          (TableauPrep.dates s
           ++ filter (λ c, dtype_eqb (dtype_of d c) datetime64 = true) cols)).
Proof.
  induction cols as [|c cols IH]; intros s Hlen.
  - simpl. rewrite !app_nil_r. by destruct s.
  - cbn [TableauPrep.classify_columns]. unfold TableauPrep.classify_column.
    rewrite Hlen. cbn [Nat.ltb Nat.leb]. rewrite !filter_cons.
    change (Qlt_bool (1 # 2) 0) with false.
    destruct (dtype_eqb (dtype_of d c) datetime64) eqn:Hdt.
    + rewrite IH by done. cbn [TableauPrep.dimensions TableauPrep.measures TableauPrep.dates].
      rewrite decide_False, decide_True by done. by rewrite <- app_assoc.
    + assert (Hdim : (if dtype_eqb (dtype_of d c) int64 || dtype_eqb (dtype_of d c) float64
                      then Ok (TableauPrep.Suggestions (TableauPrep.dimensions s ++ [c])
                                 (TableauPrep.measures s) (TableauPrep.dates s))
                      else Ok (TableauPrep.Suggestions (TableauPrep.dimensions s ++ [c])
                                 (TableauPrep.measures s) (TableauPrep.dates s)))
                     = Ok (TableauPrep.Suggestions (TableauPrep.dimensions s ++ [c])
                             (TableauPrep.measures s) (TableauPrep.dates s))).
      { by destruct (_ || _). }
      rewrite Hdim, IH by done.
      cbn [TableauPrep.dimensions TableauPrep.measures TableauPrep.dates].
      rewrite decide_True, decide_False by done. by rewrite <- app_assoc.
Qed.

(** C3, as the code has it. On a frame without rows
    [create_dimension_measure_guide] does not divide (the ratio is taken to
    be 0) and returns: no column is a measure, the date-time columns are
    the dates and every other column is a dimension. The three buckets are
    all empty only for a frame without columns. *)
Theorem guide_without_rows (s : component) (d : DataFrame) :
  working_copy s = Some d →
  len d = 0%nat →
  ∃ g,
    TableauPrep.create_dimension_measure_guide s = (s, Ok g)
    ∧ TableauPrep.measures g = []
    ∧ TableauPrep.dates g
      = filter (λ c, dtype_eqb (dtype_of d c) datetime64 = true) (column_names d)
    ∧ TableauPrep.dimensions g
      = filter (λ c, dtype_eqb (dtype_of d c) datetime64 = false) (column_names d)
    ∧ (TableauPrep.dimensions g = [] ∧ TableauPrep.measures g = []
       ∧ TableauPrep.dates g = [] ↔ columns d = []).
Proof.
  intros Hs Hlen.
  pose proof (classify_columns_no_rows d (column_names d)
                (TableauPrep.Suggestions [] [] []) Hlen) as Hg.
  cbn [TableauPrep.dimensions TableauPrep.measures TableauPrep.dates app] in Hg.
  eexists. split.
  { unfold TableauPrep.create_dimension_measure_guide, TableauPrep.guide.
    rewrite (bind_ok _ _ _ _ _ (self_df_ok _ _ Hs)). unfold lift. by rewrite Hg. }
  cbn [TableauPrep.dimensions TableauPrep.measures TableauPrep.dates].
  split; [done|]. split; [done|]. split; [done|].
  unfold column_names. destruct (columns d) as [|[c dt] cols]; [done|].
  split; [|done]. intros (Hdim & _ & Hdates). exfalso.
  cbn [fmap list_fmap fst] in Hdim, Hdates. rewrite filter_cons in Hdim, Hdates.
  destruct (dtype_eqb (dtype_of d c) datetime64).
  - by rewrite decide_True in Hdates.
  - by rewrite decide_True in Hdim.
Qed.

Lemma guide_without_rows_witness :
  ∃ g,
    TableauPrep.create_dimension_measure_guide (Sample.holding Sample.empty_text)
    = (Sample.holding Sample.empty_text, Ok g)
    ∧ TableauPrep.measures g = []
    ∧ TableauPrep.dates g
      = filter (λ c, dtype_eqb (dtype_of Sample.empty_text c) datetime64 = true)
               (column_names Sample.empty_text)
    ∧ TableauPrep.dimensions g
      = filter (λ c, dtype_eqb (dtype_of Sample.empty_text c) datetime64 = false)
               (column_names Sample.empty_text)
    ∧ (TableauPrep.dimensions g = [] ∧ TableauPrep.measures g = []
       ∧ TableauPrep.dates g = [] ↔ columns Sample.empty_text = []).
Proof.
  apply (guide_without_rows (Sample.holding Sample.empty_text) Sample.empty_text);
    reflexivity.
Defined.

(** C3 as it is stated fails on a frame without rows that has a column:
    the column is put in a bucket. *)
Lemma guide_without_rows_not_empty :
  len Sample.empty_text = 0%nat
  ∧ TableauPrep.create_dimension_measure_guide (Sample.holding Sample.empty_text)
    = (Sample.holding Sample.empty_text,
       Ok (TableauPrep.Suggestions ["name"] [] [])).
Proof. split; vm_compute; reflexivity. Qed.

(** ** The caller's frames are never written to *)

Section frame.
Import Session.
Variable h : gmap loc DataFrame.

Lemma keeps_ret {A} (a : A) : keeps (apart h) (mret a).
Proof. by intros s Hs. Qed.

Lemma keeps_raise {A} e : keeps (apart h) (@raise component A e).
Proof. by intros s Hs. Qed.

Lemma keeps_lift {A} (r : result A) : keeps (apart h) (lift r).
Proof. by intros s Hs. Qed.

Lemma keeps_bind {A B} (m : py component A) (k : A → py component B) :
  keeps (apart h) m → (∀ a, keeps (apart h) (k a)) → keeps (apart h) (m ≫= k).
Proof.
  intros Hm Hk s Hs. unfold mbind, py_bind, bind.
  specialize (Hm s Hs). destruct (m s) as [s' [a|e]]; [|exact Hm].
  by apply Hk.
Qed.

Lemma keeps_self_df : keeps (apart h) self_df.
Proof. intros s Hs. unfold self_df. by destruct (heap s !! df s). Qed.

Lemma keeps_self_ref : keeps (apart h) self_ref.
Proof. by intros s Hs. Qed.

Lemma keeps_get : keeps (apart h) get.
Proof. by intros s Hs. Qed.

Lemma keeps_log_append msg : keeps (apart h) (log_append msg).
Proof. intros s Hs l Hl. exact (Hs l Hl). Qed.

(** a rebound [self.df] is a new object *)
Lemma keeps_rebind_df d : keeps (apart h) (rebind_df d).
Proof.
  intros s Hs l Hl. destruct (Hs l Hl) as [Hne Heq]. cbn.
  assert (Hfresh : l ≠ fresh (dom (heap s))).
  { intros ->. apply (is_fresh (dom (heap s))).
    apply elem_of_dom. by rewrite Heq. }
  split; [exact Hfresh|]. by rewrite lookup_insert_ne.
Qed.

(** a write through [self.df] reaches that object only *)
Lemma keeps_mutate_df f : keeps (apart h) (mutate_df f).
Proof.
  intros s Hs l Hl. destruct (Hs l Hl) as [Hne Heq]. cbn.
  split; [exact Hne|]. by rewrite lookup_alter_ne.
Qed.

Lemma keeps_when b (m : py component ()) :
  keeps (apart h) m → keeps (apart h) (when b m).
Proof. intros Hm. destruct b; [exact Hm|apply keeps_ret]. Qed.

Lemma keeps_for_each {A} (l : list A) (body : A → py component ()) :
  (∀ x, keeps (apart h) (body x)) → keeps (apart h) (for_each l body).
Proof.
  intros Hbody. induction l as [|x l IH]; [apply keeps_ret|].
  apply (keeps_bind (body x)); [apply Hbody|]. intros _. exact IH.
Qed.

End frame.

Create HintDb frame.

#[local] Hint Resolve keeps_ret keeps_raise keeps_lift keeps_self_df keeps_self_ref
  keeps_get keeps_log_append keeps_rebind_df keeps_mutate_df : frame.

(** splits a method body along its binds and branches *)
Ltac frame_step :=
  match goal with
  | |- Session.keeps _ (_ ≫= _) => apply keeps_bind; [|intros ?]
  | |- Session.keeps _ (when _ _) => apply keeps_when
  | |- Session.keeps _ (for_each _ _) => apply keeps_for_each; intros ?
  | |- Session.keeps _ (if ?b then _ else _) => destruct b
  | |- Session.keeps _ (match ?x with _ => _ end) => destruct x
  | |- Session.keeps _ (let '(_, _) := ?x in _) => destruct x
  | |- Session.keeps _ _ => solve [eauto with frame]
  end.

Ltac frame := repeat frame_step.

Section operations.
Import Session.
Context `{Library}.
Variable h : gmap loc DataFrame.

Lemma keeps_remove_duplicates keep : keeps (apart h) (Cleaner.remove_duplicates keep).
Proof. unfold Cleaner.remove_duplicates. frame. Qed.

Lemma keeps_fill_missing_values strategy :
  keeps (apart h) (Cleaner.fill_missing_values strategy).
Proof. unfold Cleaner.fill_missing_values, Cleaner.fill_missing_value. frame. Qed.

Lemma keeps_remove_outliers column threshold :
  keeps (apart h) (Cleaner.remove_outliers column threshold).
Proof. unfold Cleaner.remove_outliers. frame. Qed.

Lemma keeps_fix_each column fix_value invalid_indices : ∀ count,
  keeps (apart h) (Cleaner.fix_each column fix_value invalid_indices count).
Proof.
  induction invalid_indices as [|idx rest IH]; intros count; cbn [Cleaner.fix_each].
  - frame.
  - apply keeps_bind; [frame|]. intros d. destruct (bool_decide _); [|apply IH].
    apply keeps_bind; [frame|]. intros _. apply IH.
Qed.

Lemma keeps_fix_invalid_values column invalid_indices fix_value :
  keeps (apart h) (Cleaner.fix_invalid_values column invalid_indices fix_value).
Proof.
  unfold Cleaner.fix_invalid_values.
  apply keeps_bind; [apply keeps_fix_each|]. intros count. frame.
Qed.

Lemma keeps_clean_column_names : keeps (apart h) TableauPrep.clean_column_names.
Proof. unfold TableauPrep.clean_column_names. frame. Qed.

Lemma keeps_enforce_columns cols : ∀ type_changes,
  keeps (apart h) (TableauPrep.enforce_columns cols type_changes).
Proof.
  induction cols as [|column rest IH]; intros type_changes;
    cbn [TableauPrep.enforce_columns]; [frame|].
  apply keeps_bind; [|intros ?; apply IH].
  unfold TableauPrep.enforce_column. frame.
Qed.

Lemma keeps_enforce_data_types : keeps (apart h) TableauPrep.enforce_data_types.
Proof.
  unfold TableauPrep.enforce_data_types.
  apply keeps_bind; [frame|]. intros d.
  apply keeps_bind; [apply keeps_enforce_columns|]. intros type_changes. frame.
Qed.

Lemma cleaner_step_apart c s : apart h s → apart h (cleaner_step c s).
Proof.
  destruct c; cbn [cleaner_step].
  - apply keeps_remove_duplicates.
  - apply keeps_fill_missing_values.
  - apply keeps_remove_outliers.
  - apply keeps_fix_invalid_values.
Qed.

Lemma prep_step_apart c s : apart h s → apart h (prep_step c s).
Proof.
  destruct c; cbn [prep_step];
    [apply keeps_clean_column_names | apply keeps_enforce_data_types].
Qed.

Lemma run_apart {C} (step : C → component → component) calls :
  (∀ c s, apart h s → apart h (step c s)) →
  ∀ s, apart h s → apart h (run step calls s).
Proof.
  intros Hstep. unfold run. induction calls as [|c calls IH]; intros s Hs; [done|].
  simpl. by apply IH, Hstep.
Qed.

Lemma construct_apart orig s : construct h orig = Some s → apart h s.
Proof.
  unfold construct. destruct (h !! orig) as [d|]; [|done]. intros [= <-] l Hl. cbn.
  assert (Hfresh : l ≠ fresh (dom h)).
  { intros ->. apply (is_fresh (dom h)). by apply elem_of_dom. }
  split; [exact Hfresh|]. by rewrite lookup_insert_ne.
Qed.

End operations.

(** C4. A [DataCleaner] and a [TableauPrep] work on a copy made at
    construction: the copy is a new object holding what the caller's frame
    held, and whatever sequence of [remove_duplicates],
    [fill_missing_values], [remove_outliers], [fix_invalid_values] (for
    the cleaner) or of [clean_column_names], [enforce_data_types] (for
    the preparer) is run, the caller's frame, like every object that was
    on the heap before, holds afterwards what it held before. *)
Theorem original_never_mutated `{Library} (h : gmap loc DataFrame) (orig : loc)
    (s : component) :
  construct h orig = Some s →
  df s ≠ orig
  ∧ working_copy s = h !! orig
  ∧ (∀ calls l, is_Some (h !! l) →
       heap (Session.run Session.cleaner_step calls s) !! l = h !! l)
  ∧ (∀ calls l, is_Some (h !! l) →
       heap (Session.run Session.prep_step calls s) !! l = h !! l).
Proof.
  intros Hs. pose proof (construct_apart h orig s Hs) as Hap.
  assert (Horig : is_Some (h !! orig)).
  { unfold construct in Hs. by destruct (h !! orig). }
  split; [intros Heq; by destruct (Hap orig Horig)|].
  split.
  { unfold construct in Hs. destruct (h !! orig) as [d|]; [|done].
    injection Hs as <-. unfold working_copy. cbn. apply lookup_insert_eq. }
  split; intros calls l Hl.
  - exact (proj2 (run_apart h Session.cleaner_step calls (cleaner_step_apart h) s Hap l Hl)).
  - exact (proj2 (run_apart h Session.prep_step calls (prep_step_apart h) s Hap l Hl)).
Qed.

Lemma original_never_mutated_witness :
  df (Sample.copy_of Sample.sales) ≠ 1%positive
  ∧ working_copy (Sample.copy_of Sample.sales)
    = Sample.caller_heap Sample.sales !! 1%positive
  ∧ (∀ calls l, is_Some (Sample.caller_heap Sample.sales !! l) →
       heap (Session.run (Session.cleaner_step (H := Sample.library)) calls
               (Sample.copy_of Sample.sales)) !! l
       = Sample.caller_heap Sample.sales !! l)
  ∧ (∀ calls l, is_Some (Sample.caller_heap Sample.sales !! l) →
       heap (Session.run (Session.prep_step (H := Sample.library)) calls
               (Sample.copy_of Sample.sales)) !! l
       = Sample.caller_heap Sample.sales !! l).
Proof.
  apply (original_never_mutated (H := Sample.library)
           (Sample.caller_heap Sample.sales) 1%positive (Sample.copy_of Sample.sales)).
  reflexivity.
Defined.

(** ** Equality of rows, and which rows have a twin *)

Lemma key_eqb_refl k : key_eqb k k = true.
Proof.
  destruct k; simpl; [done| | |].
  - by apply Qeq_bool_iff.
  - apply String.eqb_refl.
  - apply Z.eqb_refl.
Qed.

Lemma key_eqb_sym a b : key_eqb a b = key_eqb b a.
Proof.
  destruct a, b; simpl; try done.
  - destruct (Qeq_bool q q0) eqn:H1, (Qeq_bool q0 q) eqn:H2; try done.
    + apply Qeq_bool_iff in H1. symmetry in H1. apply Qeq_bool_iff in H1. congruence.
    + apply Qeq_bool_iff in H2. symmetry in H2. apply Qeq_bool_iff in H2. congruence.
  - apply String.eqb_sym.
  - apply Z.eqb_sym.
Qed.

Lemma cells_eqb_refl cs : cells_eqb cs cs = true.
Proof.
  induction cs as [|c cs IH]; [done|]. simpl. unfold cell_eqb.
  by rewrite key_eqb_refl.
Qed.

Lemma cells_eqb_sym cs : ∀ cs', cells_eqb cs cs' = cells_eqb cs' cs.
Proof.
  induction cs as [|c cs IH]; intros [|c' cs']; try done.
  simpl. unfold cell_eqb. by rewrite key_eqb_sym, IH.
Qed.

Lemma seen_before_length rs : ∀ seen, length (seen_before seen rs) = length rs.
Proof. induction rs as [|r rs IH]; intros seen; [done|]. simpl. by rewrite IH. Qed.

(** [seen_before] marks a row when a row of [seen] or a row before it in
    the list equals it *)
Lemma seen_before_lookup rs : ∀ seen i r,
  rs !! i = Some r →
  ∃ b, seen_before seen rs !! i = Some b
       ∧ (b = true ↔
          existsb (cells_eqb (cells r)) seen = true
          ∨ ∃ j r', (j < i)%nat ∧ rs !! j = Some r'
                    ∧ cells_eqb (cells r) (cells r') = true).
Proof.
  induction rs as [|r0 rs IH]; intros seen i r Hi; [done|].
  destruct i as [|i].
  - injection Hi as <-. eexists. split; [reflexivity|]. split; [auto|].
    intros [H|(j & _ & Hj & _)]; [done|lia].
  - cbn in Hi. destruct (IH (cells r0 :: seen) i r Hi) as (b & Hb & Hiff).
    exists b. split; [exact Hb|]. rewrite Hiff. cbn [existsb]. split.
    + intros [H|(j & r' & Hj & Hr' & Heq)].
      * apply orb_true_iff in H as [H|H]; [|by left].
        right. exists 0%nat, r0. split; [lia|]. done.
      * right. exists (S j), r'. split; [lia|]. done.
    + intros [H|(j & r' & Hj & Hr' & Heq)].
      * left. by rewrite H, orb_true_r.
      * destruct j as [|j].
        -- injection Hr' as <-. left. by rewrite Heq.
        -- right. exists j, r'. split; [lia|]. done.
Qed.

(** [df.duplicated(keep=False)] marks the rows that have a twin: another
    row of the frame, before or after, with equal cells *)
Lemma duplicated_False_lookup rs i r :
  rs !! i = Some r →
  ∃ b, duplicated_rows keep_False rs !! i = Some b
       ∧ (b = true ↔ Terms.has_twin rs i r).
Proof.
  intros Hi. pose proof (lookup_lt_Some _ _ _ Hi) as Hlt.
  destruct (seen_before_lookup rs [] i r Hi) as (b1 & Hb1 & H1).
  assert (Hrev : reverse rs !! (length rs - S i)%nat = Some r).
  { rewrite reverse_lookup by lia. rewrite <- Hi. f_equal. lia. }
  destruct (seen_before_lookup (reverse rs) [] _ r Hrev) as (b2 & Hb2 & H2).
  exists (b1 || b2). split.
  { unfold duplicated_rows. apply lookup_zip_with_Some. exists b1, b2.
    split; [done|]. split; [done|].
    rewrite reverse_lookup by (rewrite seen_before_length, length_reverse; lia).
    rewrite seen_before_length, length_reverse. rewrite <- Hb2. f_equal. }
  rewrite orb_true_iff, H1, H2. cbn [existsb]. unfold Terms.has_twin. split.
  - intros [[H|(j & r' & Hj & Hr' & Heq)]|[H|(j & r' & Hj & Hr' & Heq)]]; try done.
    + exists j, r'. split; [lia|]. done.
    + assert (Hjlt : (j < length rs)%nat) by lia.
      rewrite reverse_lookup in Hr' by lia.
      exists (length rs - S j)%nat, r'. split; [lia|]. done.
  - intros (j & r' & Hne & Hr' & Heq).
    pose proof (lookup_lt_Some _ _ _ Hr') as Hjlt.
    destruct (decide (j < i)%nat) as [Hji|Hji].
    + left. right. exists j, r'. split; [lia|]. done.
    + right. right. exists (length rs - S j)%nat, r'. split; [lia|].
      split; [|done]. rewrite reverse_lookup by lia. rewrite <- Hr'. f_equal. lia.
Qed.

Lemma mask_rows_lookup_all (P : row → Prop) rs : ∀ mask,
  length mask = length rs →
  (∀ i r b, rs !! i = Some r → mask !! i = Some b → b = false) →
  mask_rows mask rs = [].
Proof.
  induction rs as [|r rs IH]; intros [|b mask] Hlen Hall; try done.
  simpl. rewrite (Hall 0%nat r b eq_refl eq_refl). apply IH; [simpl in Hlen; lia|].
  intros i r' b' Hr Hb. exact (Hall (S i) r' b' Hr Hb).
Qed.

Lemma ForallOrdPairs_lookup {A} (R : A → A → Prop) l :
  ForallOrdPairs R l →
  ∀ i j x y, (i < j)%nat → l !! i = Some x → l !! j = Some y → R x y.
Proof.
  induction 1 as [|a l Ha _ IH]; intros i j x y Hij Hx Hy; [done|].
  destruct j as [|j]; [lia|]. destruct i as [|i].
  - injection Hx as <-. cbn in Hy. rewrite List.Forall_forall in Ha.
    apply Ha, list_elem_of_In. by eapply list_elem_of_lookup_2.
  - apply (IH i j); [lia|done..].
Qed.

(** rows that differ pairwise have no twin, whatever the order *)
Lemma distinct_no_twin rs :
  ForallOrdPairs differs rs →
  ∀ i j x y, i ≠ j → rs !! i = Some x → rs !! j = Some y →
             cells_eqb (cells x) (cells y) = false.
Proof.
  intros Hd i j x y Hne Hx Hy.
  destruct (decide (i < j)%nat) as [Hlt|Hge].
  - rewrite cells_eqb_sym. exact (ForallOrdPairs_lookup _ _ Hd i j x y Hlt Hx Hy).
  - exact (ForallOrdPairs_lookup _ _ Hd j i y x ltac:(lia) Hy Hx).
Qed.

Lemma no_twin_no_duplicates rs :
  (∀ i j x y, i ≠ j → rs !! i = Some x → rs !! j = Some y →
              cells_eqb (cells x) (cells y) = false) →
  mask_rows (duplicated_rows keep_False rs) rs = [].
Proof.
  intros Hd. apply (mask_rows_lookup_all (λ _, True)).
  - unfold duplicated_rows. rewrite length_zip_with, length_reverse, !seen_before_length,
      length_reverse. lia.
  - intros i r b Hr Hb. destruct (duplicated_False_lookup rs i r Hr) as (b' & Hb' & Hiff).
    rewrite Hb in Hb'. injection Hb' as <-. destruct b; [|done].
    destruct (proj1 Hiff eq_refl) as (j & r' & Hne & Hr' & Heq).
    rewrite (Hd i j r r') in Heq; done.
Qed.

Lemma mask_rows_app m1 : ∀ m2 r1 r2,
  length m1 = length r1 →
  mask_rows (m1 ++ m2) (r1 ++ r2) = mask_rows m1 r1 ++ mask_rows m2 r2.
Proof.
  induction m1 as [|b m1 IH]; intros m2 [|r r1] r2 Hlen; try done.
  simpl in *. destruct b; simpl; rewrite IH by lia; done.
Qed.

Lemma mask_rows_reverse mask rs :
  length mask = length rs →
  mask_rows (reverse mask) (reverse rs) = reverse (mask_rows mask rs).
Proof.
  revert rs. induction mask as [|b mask IH]; intros [|r rs] Hlen; try done.
  simpl in Hlen. rewrite !reverse_cons.
  rewrite mask_rows_app by (rewrite !length_reverse; lia).
  rewrite IH by lia. simpl. destruct b; simpl.
  - by rewrite reverse_cons.
  - by rewrite app_nil_r.
Qed.

(** the rows [keep='last'] keeps are the first occurrences of the frame
    read backwards *)
Lemma drop_duplicates_last_rows d :
  rows (drop_duplicates keep_last d) = reverse (kept [] (reverse (rows d))).
Proof.
  unfold drop_duplicates, boolean_index, duplicated, duplicated_rows, kept. cbn [rows].
  rewrite fmap_reverse.
  rewrite <- (reverse_involutive (rows d)) at 2.
  apply mask_rows_reverse.
  by rewrite length_fmap, seen_before_length.
Qed.

(** whichever occurrence is kept, the rows that stay differ pairwise *)
Lemma drop_duplicates_distinct keep d :
  keep ≠ keep_False →
  ∀ i j x y, i ≠ j →
    rows (drop_duplicates keep d) !! i = Some x →
    rows (drop_duplicates keep d) !! j = Some y →
    cells_eqb (cells x) (cells y) = false.
Proof.
  intros Hkeep. destruct keep; [| |done].
  - apply distinct_no_twin. apply (kept_unseen_distinct (rows d) []).
  - rewrite drop_duplicates_last_rows. intros i j x y Hne Hx Hy.
    pose proof (lookup_lt_Some _ _ _ Hx) as Hi.
    pose proof (lookup_lt_Some _ _ _ Hy) as Hj.
    rewrite length_reverse in Hi, Hj.
    rewrite reverse_lookup in Hx, Hy by done.
    refine (distinct_no_twin _ (proj2 (kept_unseen_distinct (reverse (rows d)) [])) _ _ x y _ Hx Hy).
    lia.
Qed.

(** ** Column names: splitting, joining, cleaning *)

Lemma split_underscore_nonempty s : Str.split_underscore s ≠ [].
Proof.
  destruct s as [|a s]; [done|]. simpl.
  destruct (Ascii.eqb a "_"); [done|]. by destruct (Str.split_underscore s).
Qed.

Lemma join_cons sep w ws :
  ws ≠ [] → Str.join sep (w :: ws) = w +:+ sep +:+ Str.join sep ws.
Proof. by destruct ws. Qed.

Lemma word_chars_upper a : Str.is_word_char a = true → Str.is_word_char (Str.to_upper a) = true.
Proof. destruct a as [[] [] [] [] [] [] [] []]; vm_compute; done. Qed.

Lemma word_chars_lower a : Str.is_word_char a = true → Str.is_word_char (Str.to_lower a) = true.
Proof. destruct a as [[] [] [] [] [] [] [] []]; vm_compute; done. Qed.

Lemma has_special_app s t :
  Str.has_special (s +:+ t) = Str.has_special s || Str.has_special t.
Proof.
  induction s as [|a s IH]; [done|]. simpl. by rewrite IH, orb_assoc.
Qed.

Lemma sub_special_plain s : Str.has_special (Str.sub_special s) = false.
Proof.
  induction s as [|a s IH]; [done|]. cbn. fold (Str.sub_special s). rewrite IH.
  by destruct (Str.is_word_char a) eqn:Ha; [rewrite Ha|].
Qed.

Lemma squeeze_plain s :
  Str.has_special s = false → Str.has_special (Str.squeeze_underscores s) = false.
Proof.
  induction s as [|a s IH]; [done|]. cbn [Str.has_special].
  intros [Ha Hs]%orb_false_iff. specialize (IH Hs). cbn [Str.squeeze_underscores].
  destruct (Ascii.eqb a "_"); [destruct s as [|b s']|].
  - cbn. by rewrite Ha.
  - destruct (Ascii.eqb b "_"); [exact IH|]. cbn [Str.has_special]. by rewrite Ha, IH.
  - cbn [Str.has_special]. by rewrite Ha, IH.
Qed.

Lemma lstrip_plain s :
  Str.has_special s = false → Str.has_special (Str.lstrip_underscores s) = false.
Proof.
  induction s as [|a s IH]; [done|]. intros Hs. cbn [Str.lstrip_underscores].
  destruct (Ascii.eqb a "_"); [|done]. apply IH.
  cbn [Str.has_special] in Hs. by apply orb_false_iff in Hs as [_ Hs].
Qed.

Lemma rstrip_plain s :
  Str.has_special s = false → Str.has_special (Str.rstrip_underscores s) = false.
Proof.
  induction s as [|a s IH]; [done|]. cbn [Str.has_special].
  intros [Ha Hs]%orb_false_iff. specialize (IH Hs). cbn [Str.rstrip_underscores].
  destruct (Str.rstrip_underscores s) as [|b t].
  - destruct (Ascii.eqb a "_"); [done|]. cbn. by rewrite Ha.
  - cbn [Str.has_special] in *. by rewrite Ha, IH.
Qed.

Lemma split_plain s :
  Str.has_special s = false →
  Forall (λ w, Str.has_special w = false) (Str.split_underscore s).
Proof.
  induction s as [|a s IH]; [by repeat constructor|]. cbn [Str.has_special].
  intros [Ha Hs]%orb_false_iff. specialize (IH Hs). cbn [Str.split_underscore].
  destruct (Ascii.eqb a "_"); [by constructor|].
  destruct (Str.split_underscore s) as [|w ws].
  - repeat constructor. cbn. by rewrite Ha.
  - inversion IH as [|? ? Hw Hws]; subst. constructor; [|done].
    cbn [Str.has_special]. by rewrite Ha, Hw.
Qed.

Lemma lower_plain s : Str.has_special s = false → Str.has_special (Str.lower s) = false.
Proof.
  induction s as [|a s IH]; [done|]. cbn [Str.has_special].
  intros [Ha Hs]%orb_false_iff. cbn. fold (Str.lower s). rewrite (IH Hs).
  apply negb_false_iff in Ha. by rewrite (word_chars_lower a Ha).
Qed.

Lemma capitalize_plain s :
  Str.has_special s = false → Str.has_special (Str.capitalize s) = false.
Proof.
  destruct s as [|a s]; [done|]. cbn [Str.has_special Str.capitalize].
  intros [Ha Hs]%orb_false_iff. rewrite (lower_plain s Hs).
  apply negb_false_iff in Ha. by rewrite (word_chars_upper a Ha).
Qed.

Lemma join_plain ws :
  Forall (λ w, Str.has_special w = false) ws →
  Str.has_special (Str.join "_" ws) = false.
Proof.
  induction 1 as [|w ws Hw Hws IH]; [done|]. destruct ws as [|w' ws]; [done|].
  rewrite join_cons by done. rewrite !has_special_app, Hw, IH. done.
Qed.

Lemma clean_name_plain col : Str.has_special (TableauPrep.clean_name col) = false.
Proof.
  unfold TableauPrep.clean_name, Str.strip_underscores.
  apply join_plain, Forall_fmap.
  eapply Forall_impl;
    [apply split_plain, rstrip_plain, lstrip_plain, squeeze_plain, sub_special_plain|].
  intros w Hw. by apply capitalize_plain.
Qed.

Lemma plain_no_char a s :
  Str.is_word_char a = false → Str.has_special s = false → Str.has_char a s = false.
Proof.
  intros Ha. induction s as [|b s IH]; [done|]. cbn [Str.has_special Str.has_char].
  intros [Hb Hs]%orb_false_iff. rewrite (IH Hs), orb_false_r.
  destruct (Ascii.eqb a b) eqn:Hab; [|done]. apply Ascii.eqb_eq in Hab as ->.
  apply negb_false_iff in Hb. congruence.
Qed.

Lemma remove_char_plain a s :
  Str.has_special s = false → Str.has_special (Str.remove_char a s) = false.
Proof.
  induction s as [|b s IH]; [done|]. cbn [Str.has_special Str.remove_char].
  intros [Hb Hs]%orb_false_iff. destruct (Ascii.eqb a b); [by apply IH|].
  cbn [Str.has_special]. by rewrite Hb, IH.
Qed.

(** ['_'.join(s.split('_')) == s] *)
Lemma join_split_underscore (s : string) :
  Str.join "_" (Str.split_underscore s) = s.
Proof.
  induction s as [|a s IH]; [done|]. cbn [Str.split_underscore].
  destruct (Ascii.eqb a "_") eqn:Ha.
  - apply Ascii.eqb_eq in Ha as ->.
    rewrite join_cons by apply split_underscore_nonempty. by rewrite IH.
  - pose proof (split_underscore_nonempty s) as Hne.
    destruct (Str.split_underscore s) as [|w ws]; [done|].
    destruct ws as [|w' ws]; [by rewrite <- IH|].
    rewrite join_cons by done. rewrite join_cons in IH by done. by rewrite <- IH.
Qed.

(** *** Cleaning a clean name changes nothing *)

Lemma squeeze_starts s :
  Terms.starts_us (Str.squeeze_underscores s) = Terms.starts_us s.
Proof.
  induction s as [|a s IH]; [done|]. cbn [Str.squeeze_underscores].
  destruct (Ascii.eqb a "_") eqn:Ha; [|by cbn; rewrite Ha].
  destruct s as [|b s]; [by cbn; rewrite Ha|].
  destruct (Ascii.eqb b "_") eqn:Hb; [|by cbn; rewrite Ha].
  rewrite IH. cbn. by rewrite Ha, Hb.
Qed.

Lemma squeeze_no_double s : Terms.has_double_us (Str.squeeze_underscores s) = false.
Proof.
  induction s as [|a s IH]; [done|]. cbn [Str.squeeze_underscores].
  destruct (Ascii.eqb a "_") eqn:Ha.
  - destruct s as [|b s]; [by cbn; rewrite Ha|].
    destruct (Ascii.eqb b "_") eqn:Hb; [exact IH|].
    cbn [Terms.has_double_us]. rewrite IH, squeeze_starts. cbn. by rewrite Hb, andb_false_r.
  - cbn [Terms.has_double_us]. by rewrite Ha, IH.
Qed.

Lemma lstrip_starts s : Terms.starts_us (Str.lstrip_underscores s) = false.
Proof.
  induction s as [|a s IH]; [done|]. cbn [Str.lstrip_underscores].
  destruct (Ascii.eqb a "_") eqn:Ha; [exact IH|]. cbn. exact Ha.
Qed.

Lemma lstrip_no_double s :
  Terms.has_double_us s = false → Terms.has_double_us (Str.lstrip_underscores s) = false.
Proof.
  induction s as [|a s IH]; [done|]. intros Hs. cbn [Str.lstrip_underscores].
  destruct (Ascii.eqb a "_"); [|done]. apply IH.
  cbn [Terms.has_double_us] in Hs. by apply orb_false_iff in Hs as [_ Hs].
Qed.

Lemma rstrip_head s b t :
  Str.rstrip_underscores s = String b t → ∃ r, s = String b r.
Proof.
  destruct s as [|a s]; [done|]. cbn [Str.rstrip_underscores].
  destruct (Str.rstrip_underscores s).
  - destruct (Ascii.eqb a "_"); [done|]. intros [= -> _]. eauto.
  - intros [= -> _]. eauto.
Qed.

Lemma rstrip_starts s :
  Terms.starts_us s = false → Terms.starts_us (Str.rstrip_underscores s) = false.
Proof.
  destruct s as [|a s]; [done|]. cbn [Terms.starts_us Str.rstrip_underscores]. intros Ha.
  destruct (Str.rstrip_underscores s); [by rewrite Ha|done].
Qed.

Lemma rstrip_ends s : Terms.ends_us (Str.rstrip_underscores s) = false.
Proof.
  induction s as [|a s IH]; [done|]. cbn [Str.rstrip_underscores].
  destruct (Str.rstrip_underscores s) as [|b t] eqn:Hr.
  - destruct (Ascii.eqb a "_") eqn:Ha; [done|]. cbn. exact Ha.
  - exact IH.
Qed.

Lemma rstrip_no_double s :
  Terms.has_double_us s = false → Terms.has_double_us (Str.rstrip_underscores s) = false.
Proof.
  induction s as [|a s IH]; [done|]. cbn [Terms.has_double_us].
  intros [Ha Hs]%orb_false_iff. specialize (IH Hs). cbn [Str.rstrip_underscores].
  destruct (Str.rstrip_underscores s) as [|b t] eqn:Hr.
  - destruct (Ascii.eqb a "_") eqn:E; cbn; rewrite ?E; done.
  - destruct (rstrip_head _ _ _ Hr) as [r ->]. cbn [Terms.has_double_us] in IH |- *.
    cbn [Terms.starts_us] in Ha |- *. by rewrite Ha, IH.
Qed.

(** the words of [s.split('_')] are all non-empty exactly when [s] is not
    empty and has no underscore in front, at the end, or doubled *)
Lemma split_words_nonempty s :
  (Forall (λ w, w ≠ "") (Str.split_underscore s)
   ↔ s ≠ "" ∧ Terms.starts_us s = false ∧ Terms.ends_us s = false
     ∧ Terms.has_double_us s = false)
  ∧ (Forall (λ w, w ≠ "") (tail (Str.split_underscore s))
     ↔ Terms.ends_us s = false ∧ Terms.has_double_us s = false).
Proof.
  induction s as [|a s [IHall IHtail]].
  - split; [|by split]. split; [by intros [? _]%Forall_cons|by intros [? _]].
  - cbn [Str.split_underscore Terms.starts_us Terms.has_double_us].
    assert (Hends : Terms.ends_us (String a s)
                    = if bool_decide (s = "") then Ascii.eqb a "_" else Terms.ends_us s).
    { by destruct s. }
    rewrite Hends. destruct (Ascii.eqb a "_") eqn:Ha.
    + split; [split; [by intros [? _]%Forall_cons|by intros (_ & ? & _)]|].
      cbn [tail andb orb]. rewrite IHall. case_bool_decide as Hs.
      * split; [by intros [? _]|by intros [? _]].
      * rewrite orb_false_iff. tauto.
    + pose proof (split_underscore_nonempty s) as Hne.
      destruct (Str.split_underscore s) as [|w ws]; [done|].
      cbn [tail andb orb] in *. rewrite Forall_cons, IHtail.
      case_bool_decide as Hs; [subst s|]; split; split; try tauto; try done.
      all: intros; repeat split; try tauto; done.
Qed.

Lemma split_no_underscore s :
  Forall (λ w, Str.has_char "_" w = false) (Str.split_underscore s).
Proof.
  induction s as [|a s IH]; [by repeat constructor|]. cbn [Str.split_underscore].
  destruct (Ascii.eqb a "_") eqn:Ha; [by constructor|].
  destruct (Str.split_underscore s) as [|w ws].
  - repeat constructor. cbn [Str.has_char]. by rewrite Ascii.eqb_sym, Ha.
  - inversion IH as [|? ? Hw Hws]; subst. constructor; [|done].
    cbn [Str.has_char]. by rewrite Ascii.eqb_sym, Ha, Hw.
Qed.

Lemma split_app_underscore w r :
  Str.has_char "_" w = false →
  Str.split_underscore (w +:+ "_" +:+ r) = w :: Str.split_underscore r.
Proof.
  induction w as [|a w IH]; [done|]. cbn [Str.has_char].
  intros [Ha Hw]%orb_false_iff.
  change (String a w +:+ "_" +:+ r) with (String a (w +:+ "_" +:+ r)).
  cbn [Str.split_underscore]. by rewrite Ascii.eqb_sym, Ha, (IH Hw).
Qed.

Lemma split_word w :
  Str.has_char "_" w = false → Str.split_underscore w = [w].
Proof.
  induction w as [|a w IH]; [done|]. cbn [Str.has_char].
  intros [Ha Hw]%orb_false_iff. cbn [Str.split_underscore].
  by rewrite Ascii.eqb_sym, Ha, (IH Hw).
Qed.

(** [('_'.join(words)).split('_') == words] for words without underscore *)
Lemma split_join_underscore ws :
  ws ≠ [] → Forall (λ w, Str.has_char "_" w = false) ws →
  Str.split_underscore (Str.join "_" ws) = ws.
Proof.
  intros Hne Hws. induction Hws as [|w ws Hw Hws IH]; [done|].
  destruct ws as [|w' ws]; [by apply split_word|].
  rewrite join_cons by done. rewrite split_app_underscore by done.
  by rewrite IH.
Qed.

Lemma sub_special_id s : Str.has_special s = false → Str.sub_special s = s.
Proof.
  induction s as [|a s IH]; [done|]. cbn [Str.has_special].
  intros [Ha Hs]%orb_false_iff. cbn. fold (Str.sub_special s). rewrite (IH Hs).
  apply negb_false_iff in Ha. by rewrite Ha.
Qed.

Lemma squeeze_id s : Terms.has_double_us s = false → Str.squeeze_underscores s = s.
Proof.
  induction s as [|a s IH]; [done|]. cbn [Terms.has_double_us].
  intros [Ha Hs]%orb_false_iff. cbn [Str.squeeze_underscores]. rewrite (IH Hs).
  destruct (Ascii.eqb a "_"); [|done]. destruct s as [|b s]; [done|].
  cbn in Ha. by rewrite Ha.
Qed.

Lemma lstrip_id s : Terms.starts_us s = false → Str.lstrip_underscores s = s.
Proof. destruct s as [|a s]; [done|]. cbn. by intros ->. Qed.

Lemma rstrip_id s : Terms.ends_us s = false → Str.rstrip_underscores s = s.
Proof.
  induction s as [|a s IH]; [done|]. intros Hs. cbn [Str.rstrip_underscores].
  destruct s as [|b s]; [cbn in *; by rewrite Hs|].
  rewrite IH by done. done.
Qed.

Lemma lower_idempotent s : Str.lower (Str.lower s) = Str.lower s.
Proof.
  induction s as [|a s IH]; [done|]. cbn. fold (Str.lower s). fold (Str.lower (Str.lower s)).
  rewrite IH. f_equal. destruct a as [[] [] [] [] [] [] [] []]; vm_compute; done.
Qed.

Lemma capitalize_idempotent s : Str.capitalize (Str.capitalize s) = Str.capitalize s.
Proof.
  destruct s as [|a s]; [done|]. cbn [Str.capitalize]. rewrite lower_idempotent.
  f_equal. destruct a as [[] [] [] [] [] [] [] []]; vm_compute; done.
Qed.

Lemma lower_no_underscore s :
  Str.has_char "_" s = false → Str.has_char "_" (Str.lower s) = false.
Proof.
  induction s as [|a s IH]; [done|]. cbn [Str.has_char].
  intros [Ha Hs]%orb_false_iff. cbn. fold (Str.lower s). rewrite (IH Hs), orb_false_r.
  revert Ha. destruct a as [[] [] [] [] [] [] [] []]; vm_compute; done.
Qed.

Lemma capitalize_no_underscore s :
  Str.has_char "_" s = false → Str.has_char "_" (Str.capitalize s) = false.
Proof.
  destruct s as [|a s]; [done|]. cbn [Str.has_char Str.capitalize].
  intros [Ha Hs]%orb_false_iff. rewrite (lower_no_underscore s Hs), orb_false_r.
  revert Ha. destruct a as [[] [] [] [] [] [] [] []]; vm_compute; done.
Qed.

Lemma capitalize_nonempty s : s ≠ "" → Str.capitalize s ≠ "".
Proof. by destruct s. Qed.

Lemma clean_name_idempotent (col : string) :
  TableauPrep.clean_name (TableauPrep.clean_name col) = TableauPrep.clean_name col.
Proof.
  pose proof (clean_name_plain col) as Hplain.
  set (t0 := Str.strip_underscores (Str.squeeze_underscores (Str.sub_special col))).
  set (ws := Str.capitalize <$> Str.split_underscore t0).
  change (TableauPrep.clean_name col) with (Str.join "_" ws) in *.
  assert (Htidy : Terms.starts_us t0 = false ∧ Terms.ends_us t0 = false
                  ∧ Terms.has_double_us t0 = false).
  { unfold t0, Str.strip_underscores. split; [|split].
    - apply rstrip_starts, lstrip_starts.
    - apply rstrip_ends.
    - apply rstrip_no_double, lstrip_no_double, squeeze_no_double. }
  destruct (decide (t0 = "")) as [Ht0|Ht0]; [unfold ws; rewrite Ht0; reflexivity|].
  assert (Hne : Forall (λ w, w ≠ "") ws).
  { apply Forall_fmap. eapply Forall_impl;
      [apply (proj1 (split_words_nonempty t0)); tauto|].
    intros w Hw. by apply capitalize_nonempty. }
  assert (Hus : Forall (λ w, Str.has_char "_" w = false) ws).
  { apply Forall_fmap. eapply Forall_impl; [apply split_no_underscore|].
    intros w Hw. by apply capitalize_no_underscore. }
  assert (Hws : ws ≠ []).
  { unfold ws. intros Heq%fmap_nil_inv. by apply split_underscore_nonempty in Heq. }
  assert (Hsplit := split_join_underscore ws Hws Hus).
  rewrite <- Hsplit in Hne.
  apply (proj1 (split_words_nonempty _)) in Hne as (_ & Hs & He & Hd).
  unfold TableauPrep.clean_name, Str.strip_underscores.
  rewrite sub_special_id, squeeze_id, lstrip_id, rstrip_id, Hsplit by done.
  unfold ws. rewrite <- list_fmap_compose. f_equal.
  apply list_fmap_ext. intros _ w _. apply capitalize_idempotent.
Qed.

(** A name as [clean_column_names] writes it holds letters, digits and
    underscores only, does not start or end with an underscore, has no
    two underscores in a row, and each of its words, the parts between
    underscores, is in the form [capitalize] gives: first character in
    upper case, the letters after it in lower case. *)
Theorem clean_name_format (col : string) :
  Str.has_special (TableauPrep.clean_name col) = false
  ∧ Terms.starts_us (TableauPrep.clean_name col) = false
  ∧ Terms.ends_us (TableauPrep.clean_name col) = false
  ∧ Terms.has_double_us (TableauPrep.clean_name col) = false
  ∧ Forall (λ w, Str.capitalize w = w)
      (Str.split_underscore (TableauPrep.clean_name col)).
Proof.
  split; [apply clean_name_plain|].
  set (t0 := Str.strip_underscores (Str.squeeze_underscores (Str.sub_special col))).
  set (ws := Str.capitalize <$> Str.split_underscore t0).
  change (TableauPrep.clean_name col) with (Str.join "_" ws).
  destruct (decide (t0 = "")) as [Ht0|Ht0].
  { unfold ws. rewrite Ht0. cbn. by repeat constructor. }
  assert (Htidy : Terms.starts_us t0 = false ∧ Terms.ends_us t0 = false
                  ∧ Terms.has_double_us t0 = false).
  { unfold t0, Str.strip_underscores. split; [|split].
    - apply rstrip_starts, lstrip_starts.
    - apply rstrip_ends.
    - apply rstrip_no_double, lstrip_no_double, squeeze_no_double. }
  assert (Hne : Forall (λ w, w ≠ "") ws).
  { apply Forall_fmap. eapply Forall_impl;
      [apply (proj1 (split_words_nonempty t0)); tauto|].
    intros w Hw. by apply capitalize_nonempty. }
  assert (Hus : Forall (λ w, Str.has_char "_" w = false) ws).
  { apply Forall_fmap. eapply Forall_impl; [apply split_no_underscore|].
    intros w Hw. by apply capitalize_no_underscore. }
  assert (Hws : ws ≠ []).
  { unfold ws. intros Heq%fmap_nil_inv. by apply split_underscore_nonempty in Heq. }
  assert (Hsplit := split_join_underscore ws Hws Hus).
  rewrite <- Hsplit in Hne.
  apply (proj1 (split_words_nonempty _)) in Hne as (_ & Hs & He & Hd).
  split; [done|]. split; [done|]. split; [done|].
  rewrite Hsplit. unfold ws. apply Forall_fmap, Forall_forall. intros w _. cbn.
  apply capitalize_idempotent.
Qed.

(** ** Renaming the columns *)

Lemma foldl_insert_lookup (f : string → string) cols : ∀ (m : gmap string string) n,
  foldl (λ m col, <[col := f col]> m) m cols !! n
  = if bool_decide (n ∈ cols) then Some (f n) else m !! n.
Proof.
  induction cols as [|c cols IH]; intros m n; [done|]. cbn [foldl]. rewrite IH.
  destruct (decide (n ∈ cols)) as [Hin|Hin].
  - rewrite !bool_decide_eq_true_2; [done|by apply list_elem_of_further|done].
  - rewrite (bool_decide_eq_false_2 _ Hin). destruct (decide (n = c)) as [->|Hne].
    + rewrite lookup_insert_eq. by rewrite bool_decide_eq_true_2 by apply list_elem_of_here.
    + rewrite lookup_insert_ne by done. rewrite bool_decide_eq_false_2; [done|].
      rewrite elem_of_cons. tauto.
Qed.

Lemma foldl_insert_dom (f : string → string) cols : ∀ (m : gmap string string),
  dom (foldl (λ m col, <[col := f col]> m) m cols) = list_to_set cols ∪ dom m.
Proof.
  induction cols as [|c cols IH]; intros m; cbn [foldl list_to_set].
  - by rewrite union_empty_l_L.
  - rewrite IH, dom_insert_L. rewrite (union_comm_L {[c]} (list_to_set cols)).
    by rewrite union_assoc_L.
Qed.

Lemma rename_clean d :
  TableauPrep.rename
    (foldl (λ m col, <[col := TableauPrep.clean_name col]> m) ∅ (column_names d)) d
  = Frame ((λ c, (TableauPrep.clean_name c.1, c.2)) <$> columns d) (rows d).
Proof.
  unfold TableauPrep.rename. f_equal. apply list_fmap_ext. intros i [n dt] Hi.
  rewrite foldl_insert_lookup. rewrite bool_decide_eq_true_2; [done|].
  unfold column_names. apply list_elem_of_fmap. exists (n, dt). split; [done|].
  by eapply list_elem_of_lookup_2.
Qed.

Lemma clean_column_names_run (s : component) (d : DataFrame) :
  working_copy s = Some d →
  ∃ s',
    TableauPrep.clean_column_names s = (s', Ok (df s))
    ∧ working_copy s'
      = Some (Frame ((λ c, (TableauPrep.clean_name c.1, c.2)) <$> columns d) (rows d))
    ∧ TableauPrep.prep_log s'
      = TableauPrep.prep_log s
        ++ ["Standardized "
            +:+ pretty (size (list_to_set (column_names d) : gset string))
            +:+ " column names for Tableau"].
Proof.
  intros Hs. unfold TableauPrep.clean_column_names.
  rewrite (bind_ok _ _ _ _ _ (self_df_ok _ _ Hs)).
  unfold mbind, py_bind, bind, mutate_df, log_append, self_ref. cbn.
  eexists. split; [reflexivity|]. split.
  - unfold working_copy in *. cbn. rewrite lookup_alter. case_decide; [|done].
    rewrite Hs. cbn. by rewrite rename_clean.
  - unfold TableauPrep.prep_log. cbn. do 3 f_equal. rewrite <- size_dom.
    rewrite foldl_insert_dom, dom_empty_L, union_empty_r_L. done.
Qed.

(** [clean_column_names] renames in place: every column gets the cleaned
    form of its name, the dtypes and the rows stay, and the call cannot
    fail. The number logged is the number of distinct names the frame
    had, which is the number of its columns when no name occurs twice. *)
Theorem clean_column_names_renames (s : component) (d : DataFrame) :
  working_copy s = Some d →
  ∃ s' d',
    TableauPrep.clean_column_names s = (s', Ok (df s))
    ∧ df s' = df s
    ∧ working_copy s' = Some d'
    ∧ column_names d' = TableauPrep.clean_name <$> column_names d
    ∧ (columns d').*2 = (columns d).*2
    ∧ rows d' = rows d
    ∧ TableauPrep.prep_log s'
      = TableauPrep.prep_log s
        ++ ["Standardized "
            +:+ pretty (size (list_to_set (column_names d) : gset string))
            +:+ " column names for Tableau"]
    ∧ (NoDup (column_names d) →
       size (list_to_set (column_names d) : gset string) = length (columns d)).
Proof.
  intros Hs. destruct (clean_column_names_run s d Hs) as (s' & Hrun & Hw & Hlog).
  exists s', (Frame ((λ c, (TableauPrep.clean_name c.1, c.2)) <$> columns d) (rows d)).
  split; [done|]. split.
  { unfold TableauPrep.clean_column_names in Hrun.
    rewrite (bind_ok _ _ _ _ _ (self_df_ok _ _ Hs)) in Hrun.
    unfold mbind, py_bind, bind, mutate_df, log_append, self_ref in Hrun. cbn in Hrun.
    by injection Hrun as <-. }
  split; [done|]. unfold column_names. cbn [columns rows].
  rewrite <- !list_fmap_compose. split; [by apply list_fmap_ext|].
  split; [by apply list_fmap_ext|]. split; [done|]. split; [done|].
  intros Hnd. rewrite size_list_to_set by done. by rewrite length_fmap.
Qed.

Lemma clean_column_names_renames_witness :
  ∃ s' d',
    TableauPrep.clean_column_names (Sample.holding Sample.sales)
    = (s', Ok (df (Sample.holding Sample.sales)))
    ∧ df s' = df (Sample.holding Sample.sales)
    ∧ working_copy s' = Some d'
    ∧ column_names d' = TableauPrep.clean_name <$> column_names Sample.sales
    ∧ (columns d').*2 = (columns Sample.sales).*2
    ∧ rows d' = rows Sample.sales
    ∧ TableauPrep.prep_log s'
      = TableauPrep.prep_log (Sample.holding Sample.sales)
        ++ ["Standardized "
            +:+ pretty (size (list_to_set (column_names Sample.sales) : gset string))
            +:+ " column names for Tableau"]
    ∧ (NoDup (column_names Sample.sales) →
       size (list_to_set (column_names Sample.sales) : gset string)
       = length (columns Sample.sales)).
Proof. by apply (clean_column_names_renames (Sample.holding Sample.sales)). Defined.

(** Cleaning a cleaned name gives the same name, so that a second
    [clean_column_names] leaves the working copy the first one left; it
    adds a second line to the log all the same. *)
Theorem clean_column_names_twice (s : component) (d : DataFrame) :
  working_copy s = Some d →
  ∃ s1 s2 l1 l2,
    TableauPrep.clean_column_names s = (s1, Ok l1)
    ∧ TableauPrep.clean_column_names s1 = (s2, Ok l2)
    ∧ working_copy s2 = working_copy s1
    ∧ length (TableauPrep.prep_log s2) = S (length (TableauPrep.prep_log s1))
    ∧ ∀ col, TableauPrep.clean_name (TableauPrep.clean_name col)
             = TableauPrep.clean_name col.
Proof.
  intros Hs.
  destruct (clean_column_names_run s d Hs) as (s1 & Hr1 & Hw1 & _).
  destruct (clean_column_names_run s1 _ Hw1) as (s2 & Hr2 & Hw2 & Hlog2).
  exists s1, s2, (df s), (df s1). split; [done|]. split; [done|].
  split; [|split].
  - rewrite Hw1, Hw2. cbn [columns rows]. do 2 f_equal.
    rewrite <- list_fmap_compose. apply list_fmap_ext. intros i [n dt] _. cbn.
    f_equal. apply clean_name_idempotent.
  - rewrite Hlog2, length_app. cbn [length]. lia.
  - apply clean_name_idempotent.
Qed.

Lemma clean_column_names_twice_witness :
  ∃ s1 s2 l1 l2,
    TableauPrep.clean_column_names (Sample.holding Sample.sales) = (s1, Ok l1)
    ∧ TableauPrep.clean_column_names s1 = (s2, Ok l2)
    ∧ working_copy s2 = working_copy s1
    ∧ length (TableauPrep.prep_log s2) = S (length (TableauPrep.prep_log s1))
    ∧ ∀ col, TableauPrep.clean_name (TableauPrep.clean_name col)
             = TableauPrep.clean_name col.
Proof.
  by apply (clean_column_names_twice (Sample.holding Sample.sales) Sample.sales).
Defined.

(** ** The buckets of the guide *)

Lemma half_lt_ratio (a b : nat) :
  (0 < b)%nat →
  Qlt_bool (1 # 2) (inject_Z (Z.of_nat a) / inject_Z (Z.of_nat b)) = (b <? 2 * a)%nat.
Proof.
  intros Hb.
  unfold Qlt_bool, Qle_bool, Qdiv, Qinv, Qmult, inject_Z. cbn [Qnum Qden].
  destruct (Z.of_nat b) as [|p|p] eqn:Hp; [lia| |lia].
  cbn [Qnum Qden]. apply eq_true_iff_eq. rewrite negb_true_iff, Z.leb_gt, Nat.ltb_lt.
  rewrite !Pos2Z.inj_mul, <- Hp. lia.
Qed.

Lemma classify_column_bucket d s column :
  TableauPrep.classify_column d s column
  = Ok match Terms.bucket d column with
       | TableauPrep.Date =>
           TableauPrep.Suggestions (TableauPrep.dimensions s) (TableauPrep.measures s)
             (TableauPrep.dates s ++ [column])
       | TableauPrep.Measure =>
           TableauPrep.Suggestions (TableauPrep.dimensions s)
             (TableauPrep.measures s ++ [column]) (TableauPrep.dates s)
       | _ =>
           TableauPrep.Suggestions (TableauPrep.dimensions s ++ [column])
             (TableauPrep.measures s) (TableauPrep.dates s)
       end.
Proof.
  unfold TableauPrep.classify_column, Terms.bucket.
  destruct (0 <? len d)%nat eqn:Hlen.
  - apply Nat.ltb_lt in Hlen. unfold true_div.
    destruct (len d) as [|n] eqn:Hn; [lia|]. rewrite <- Hn.
    rewrite half_lt_ratio by lia.
    destruct (dtype_eqb _ datetime64); [done|].
    destruct (dtype_eqb _ int64 || dtype_eqb _ float64); [|done].
    by destruct (len d <? _)%nat.
  - apply Nat.ltb_ge in Hlen.
    assert (Hrows : rows d = []).
    { unfold len in Hlen. destruct (rows d); [done|]. cbn in Hlen. lia. }
    assert (Hnone : nunique (series d column) = 0%nat).
    { unfold series. rewrite Hrows. by destruct (col_pos _ _). }
    rewrite Hnone. change (Qlt_bool (1 # 2) 0) with false.
    replace (len d <? 2 * 0)%nat with false by (symmetry; apply Nat.ltb_ge; lia).
    destruct (dtype_eqb _ datetime64); [done|].
    by destruct (dtype_eqb _ int64 || dtype_eqb _ float64).
Qed.

Lemma classify_columns_buckets d cols : ∀ s,
  TableauPrep.classify_columns d cols s
  = Ok (TableauPrep.Suggestions
          (TableauPrep.dimensions s
           ++ filter (λ c, Terms.bucket d c = TableauPrep.Dimension) cols)
          (TableauPrep.measures s
           ++ filter (λ c, Terms.bucket d c = TableauPrep.Measure) cols)
          (TableauPrep.dates s
           ++ filter (λ c, Terms.bucket d c = TableauPrep.Date) cols)).
Proof.
  induction cols as [|c cols IH]; intros s.
  - cbn. rewrite !app_nil_r. by destruct s.
  - cbn [TableauPrep.classify_columns]. rewrite classify_column_bucket, !filter_cons.
    assert (Hb : Terms.bucket d c ≠ TableauPrep.Unknown).
    { unfold Terms.bucket. repeat case_match; done. }
    destruct (Terms.bucket d c) eqn:Hbucket; [| | |done]; rewrite IH;
      cbn [TableauPrep.dimensions TableauPrep.measures TableauPrep.dates];
      repeat (first [rewrite decide_True by done | rewrite decide_False by done]);
      by rewrite <- ?app_assoc.
Qed.

(** The guide sorts the columns by one rule: a date-time column is a
    date; an [int64] or [float64] column with more distinct values than
    half the number of rows is a measure; every other column is a
    dimension, a numeric one with exactly half as many distinct values as
    rows included. The call never fails. *)
Theorem guide_buckets (s : component) (d : DataFrame) :
  working_copy s = Some d →
  TableauPrep.create_dimension_measure_guide s
  = (s, Ok (TableauPrep.Suggestions
              (filter (λ c, Terms.bucket d c = TableauPrep.Dimension) (column_names d))
              (filter (λ c, Terms.bucket d c = TableauPrep.Measure) (column_names d))
              (filter (λ c, Terms.bucket d c = TableauPrep.Date) (column_names d)))).
Proof.
  intros Hs. unfold TableauPrep.create_dimension_measure_guide, TableauPrep.guide.
  rewrite (bind_ok _ _ _ _ _ (self_df_ok _ _ Hs)). unfold lift.
  by rewrite classify_columns_buckets.
Qed.

Lemma guide_buckets_witness :
  TableauPrep.create_dimension_measure_guide (Sample.holding Sample.sales)
  = (Sample.holding Sample.sales,
     Ok (TableauPrep.Suggestions
           (filter (λ c, Terms.bucket Sample.sales c = TableauPrep.Dimension)
              (column_names Sample.sales))
           (filter (λ c, Terms.bucket Sample.sales c = TableauPrep.Measure)
              (column_names Sample.sales))
           (filter (λ c, Terms.bucket Sample.sales c = TableauPrep.Date)
              (column_names Sample.sales)))).
Proof. by apply (guide_buckets (Sample.holding Sample.sales) Sample.sales). Defined.

(** ** Labels, names and columns under the updates of pandas *)

Lemma mask_rows_sublist mask : ∀ rs, mask_rows mask rs `sublist_of` rs.
Proof.
  induction mask as [|b mask IH]; intros [|r rs]; cbn; try apply sublist_nil_l.
  destruct b; [apply sublist_skip|apply sublist_cons]; apply IH.
Qed.

Lemma index_boolean_index d mask : index (boolean_index d mask) `sublist_of` index d.
Proof. unfold index. cbn. apply fmap_sublist, mask_rows_sublist. Qed.

Lemma set_cells_labels i vs : ∀ rs, label <$> set_cells i vs rs = label <$> rs.
Proof.
  induction vs as [|v vs IH]; intros [|r rs]; cbn; try done. by rewrite IH.
Qed.

Lemma append_cells_labels vs : ∀ rs,
  (length rs ≤ length vs)%nat → label <$> zip_with append_cell vs rs = label <$> rs.
Proof.
  induction vs as [|v vs IH]; intros [|r rs] Hlen; cbn in *; try done; [lia|].
  rewrite IH by lia. done.
Qed.

Lemma set_dtype_names i dt cols : (set_dtype i dt cols).*1 = cols.*1.
Proof.
  unfold set_dtype. destruct (cols !! i) as [[n dt']|] eqn:Hi; [|done].
  rewrite list_fmap_insert. cbn. apply list_insert_id.
  by rewrite list_lookup_fmap, Hi.
Qed.

Lemma index_set_column c dt vs d : index (set_column c dt vs d) = index d.
Proof.
  unfold set_column, index. destruct (col_pos c (columns d)); cbn.
  - apply set_cells_labels.
  - apply append_cells_labels. rewrite length_app, length_replicate. unfold len. lia.
Qed.

Lemma names_set_column c dt vs d :
  column_names d `prefix_of` column_names (set_column c dt vs d).
Proof.
  unfold set_column, column_names. destruct (col_pos c (columns d)); cbn.
  - by rewrite set_dtype_names.
  - rewrite fmap_app. by apply prefix_app_r.
Qed.

Lemma names_set_column_present c dt vs d :
  has_column d c = true → column_names (set_column c dt vs d) = column_names d.
Proof.
  unfold has_column, set_column, column_names. intros Hc.
  apply bool_decide_eq_true in Hc. destruct Hc as [i Hi]. rewrite Hi. cbn.
  apply set_dtype_names.
Qed.

Lemma index_at_set idx c v d : index (at_set idx c v d) = index d.
Proof.
  unfold at_set, index. destruct (col_pos c (columns d)); cbn;
    rewrite <- list_fmap_compose; apply list_fmap_ext; intros i r _; cbn;
    by destruct (bool_decide (label r = idx)).
Qed.

Lemma names_at_set idx c v d :
  column_names d `prefix_of` column_names (at_set idx c v d).
Proof.
  unfold at_set, column_names. destruct (col_pos c (columns d)); cbn.
  - by rewrite set_dtype_names.
  - rewrite fmap_app. by apply prefix_app_r.
Qed.

Lemma col_pos_Some c cols : ∀ i,
  col_pos c cols = Some i → ∃ dt, cols !! i = Some (c, dt).
Proof.
  induction cols as [|[n dt] cols IH]; intros i; cbn; [done|].
  destruct (String.eqb n c) eqn:E.
  - intros [= <-]. apply String.eqb_eq in E as ->. by eexists.
  - destruct (col_pos c cols) as [j|]; [|done]. cbn. intros [= <-]. by apply IH.
Qed.

Lemma col_pos_names c cols : ∀ cols',
  cols.*1 = cols'.*1 → col_pos c cols = col_pos c cols'.
Proof.
  induction cols as [|[n dt] cols IH]; intros [|[n' dt'] cols']; cbn; try done.
  intros [= -> Hrest]. by rewrite (IH _ Hrest).
Qed.

Lemma col_pos_set_dtype c i dt cols : col_pos c (set_dtype i dt cols) = col_pos c cols.
Proof. apply col_pos_names, set_dtype_names. Qed.

Lemma rectangular_row d r i c :
  rectangular d = true → r ∈ rows d → col_pos c (columns d) = Some i →
  (i < length (cells r))%nat.
Proof.
  intros Hrect Hr Hi. unfold rectangular in Hrect. rewrite forallb_forall in Hrect.
  apply list_elem_of_In, Hrect, Nat.eqb_eq in Hr. rewrite Hr.
  destruct (col_pos_Some _ _ _ Hi) as [dt Hdt]. by eapply lookup_lt_Some.
Qed.

Lemma cell_at_set_cell i v r : (i < length (cells r))%nat → cell_at i (set_cell i v r) = v.
Proof. intros Hi. unfold cell_at, set_cell. cbn. by rewrite list_lookup_insert_eq. Qed.

Lemma cell_at_set_cell_ne i j v r : i ≠ j → cell_at j (set_cell i v r) = cell_at j r.
Proof. intros Hij. unfold cell_at, set_cell. cbn. by rewrite list_lookup_insert_ne. Qed.

Lemma set_cells_same i vs : ∀ rs,
  length vs = length rs → Forall (λ r, i < length (cells r))%nat rs →
  cell_at i <$> set_cells i vs rs = vs.
Proof.
  induction vs as [|v vs IH]; intros [|r rs] Hlen Hrs; cbn in *; try done.
  apply Forall_cons in Hrs as [Hr Hrs]. rewrite cell_at_set_cell by done.
  f_equal. apply IH; [lia|done].
Qed.

Lemma set_cells_other i j vs : ∀ rs,
  i ≠ j → cell_at j <$> set_cells i vs rs = cell_at j <$> rs.
Proof.
  induction vs as [|v vs IH]; intros [|r rs] Hij; cbn; try done.
  by rewrite cell_at_set_cell_ne, IH.
Qed.

Lemma series_length d c : has_column d c = true → length (series d c) = len d.
Proof.
  unfold has_column, series, len. intros [i Hi]%bool_decide_eq_true. rewrite Hi.
  apply length_fmap.
Qed.

(** the column written is what was written *)
Lemma series_set_column d c dt vs :
  rectangular d = true → has_column d c = true → length vs = len d →
  series (set_column c dt vs d) c = vs.
Proof.
  intros Hrect Hc Hlen. apply bool_decide_eq_true in Hc as [i Hi].
  unfold series, set_column. rewrite Hi. cbn [columns rows].
  rewrite col_pos_set_dtype, Hi. apply set_cells_same; [done|].
  apply Forall_forall. intros r Hr. by eapply rectangular_row.
Qed.

(** the other columns are what they were *)
Lemma series_set_column_other d c c' dt vs :
  has_column d c = true → c' ≠ c →
  series (set_column c dt vs d) c' = series d c'.
Proof.
  intros Hc Hne. apply bool_decide_eq_true in Hc as [i Hi].
  unfold series, set_column. rewrite Hi. cbn [columns rows].
  rewrite col_pos_set_dtype. destruct (col_pos c' (columns d)) as [j|] eqn:Hj; [|done].
  apply set_cells_other. intros ->.
  destruct (col_pos_Some _ _ _ Hi) as [dt1 H1]. destruct (col_pos_Some _ _ _ Hj) as [dt2 H2].
  congruence.
Qed.

Lemma isnull_coerce dt v : isnull (coerce dt v) = isnull v.
Proof. by destruct dt, v. Qed.

Lemma null_count_filled dt v cs :
  isnull v = false → null_count (coerce dt <$> fillna v cs) = 0%nat.
Proof.
  intros Hv. unfold null_count, fillna. induction cs as [|c cs IH]; [done|].
  cbn [fmap list_fmap]. rewrite filter_cons, isnull_coerce.
  destruct (isnull c) eqn:Hc; rewrite ?Hv, ?Hc; by rewrite decide_False.
Qed.

Lemma fill_column_series d c v :
  rectangular d = true → has_column d c = true →
  series (Cleaner.fill_column c v d) c
  = coerce (upcast (dtype_of d c) v) <$> fillna v (series d c).
Proof.
  intros Hrect Hc. unfold Cleaner.fill_column. apply series_set_column; [done..|].
  unfold fillna. by rewrite !length_fmap, series_length.
Qed.

Lemma dtype_eqb_eq a b : dtype_eqb a b = true ↔ a = b.
Proof. destruct a, b; cbn; split; congruence. Qed.

Lemma names_has_column d c : c ∈ column_names d → has_column d c = true.
Proof.
  unfold has_column, column_names. intros Hc. apply bool_decide_eq_true.
  induction (columns d) as [|[n dt] cols IH]; [by apply elem_of_nil in Hc|].
  cbn. destruct (String.eqb n c) eqn:Hnc; [by eexists|].
  apply elem_of_cons in Hc as [->|Hc]; [by rewrite String.eqb_refl in Hnc|].
  destruct (IH Hc) as [i ->]. by eexists.
Qed.

Lemma dtype_of_set_column d c dt vs :
  has_column d c = true → dtype_of (set_column c dt vs d) c = dt.
Proof.
  intros Hc. apply bool_decide_eq_true in Hc as [i Hi].
  unfold dtype_of, set_column. rewrite Hi. cbn [columns].
  rewrite col_pos_set_dtype, Hi. destruct (col_pos_Some _ _ _ Hi) as [dt0 Hdt].
  unfold set_dtype. rewrite Hdt.
  by rewrite list_lookup_insert_eq by (by eapply lookup_lt_Some).
Qed.

Lemma dtype_of_set_column_other d c c' dt vs :
  has_column d c = true → c' ≠ c →
  dtype_of (set_column c dt vs d) c' = dtype_of d c'.
Proof.
  intros Hc Hne. apply bool_decide_eq_true in Hc as [i Hi].
  unfold dtype_of, set_column. rewrite Hi. cbn [columns].
  rewrite col_pos_set_dtype. destruct (col_pos c' (columns d)) as [j|] eqn:Hj; [|done].
  assert (Hij : i ≠ j).
  { intros ->. destruct (col_pos_Some _ _ _ Hi) as [dt1 H1].
    destruct (col_pos_Some _ _ _ Hj) as [dt2 H2]. congruence. }
  unfold set_dtype. destruct (columns d !! i) as [[n dt0]|]; [|done].
  by rewrite list_lookup_insert_ne.
Qed.

(** ** What an operation leaves of the shape of the working copy *)

Section invariants.
Import Session.
Context {A B : Type} (P : component → Prop).

Lemma inv_ret (a : A) : keeps P (mret a).
Proof. by intros s Hs. Qed.

Lemma inv_raise e : keeps P (@raise component A e).
Proof. by intros s Hs. Qed.

Lemma inv_lift (r : result A) : keeps P (lift r).
Proof. by intros s Hs. Qed.

Lemma inv_bind (m : py component A) (k : A → py component B) :
  keeps P m → (∀ a, keeps P (k a)) → keeps P (m ≫= k).
Proof.
  intros Hm Hk s Hs. unfold mbind, py_bind, bind.
  specialize (Hm s Hs). destruct (m s) as [s' [a|e]]; [|exact Hm].
  by apply Hk.
Qed.

Lemma inv_self_ref : keeps P self_ref.
Proof. by intros s Hs. Qed.

Lemma inv_when b (m : py component ()) : keeps P m → keeps P (when b m).
Proof. intros Hm. destruct b; [exact Hm|by intros s Hs]. Qed.

End invariants.

Lemma inv_for_each {A} (P : component → Prop) (l : list A) (body : A → py component ()) :
  (∀ x, Session.keeps P (body x)) → Session.keeps P (for_each l body).
Proof.
  intros Hbody. induction l as [|x l IH]; [by intros s Hs|].
  apply (inv_bind P (body x)); [apply Hbody|]. intros _. exact IH.
Qed.

Section within.
Import Session.
Variable R : DataFrame → Prop.

Lemma within_log_append msg : keeps (Terms.within R) (log_append msg).
Proof. intros s (d & Hd & HR). by exists d. Qed.

(** what [self.df] reads has the property *)
Lemma within_self_df_bind {B} (k : DataFrame → py component B) :
  (∀ d, R d → keeps (Terms.within R) (k d)) → keeps (Terms.within R) (self_df ≫= k).
Proof.
  intros Hk s (d & Hd & HR).
  rewrite (bind_ok _ _ _ _ _ (self_df_ok _ _ Hd)). apply Hk; [done|]. by exists d.
Qed.

Lemma within_rebind_df d : R d → keeps (Terms.within R) (rebind_df d).
Proof.
  intros HR s _. exists d. split; [|done]. unfold working_copy. cbn.
  by rewrite lookup_insert_eq.
Qed.

Lemma within_mutate_df f : (∀ d, R d → R (f d)) → keeps (Terms.within R) (mutate_df f).
Proof.
  intros Hf s (d & Hd & HR). exists (f d). split; [|by apply Hf].
  unfold working_copy in *. cbn. by rewrite lookup_alter_eq, Hd.
Qed.

End within.

Create HintDb shape.

#[local] Hint Resolve inv_ret inv_raise inv_lift inv_self_ref within_log_append : shape.

(** splits a method body along its binds and branches, keeping what is
    known of each frame read from [self.df] *)
Ltac shape_step :=
  match goal with
  | |- Session.keeps _ (self_df ≫= _) => apply within_self_df_bind; intros ? ?
  | |- Session.keeps _ (_ ≫= _) => apply inv_bind; [|intros ?]
  | |- Session.keeps _ (when _ _) => apply inv_when
  | |- Session.keeps _ (for_each _ _) => apply inv_for_each; intros ?
  | |- Session.keeps _ (rebind_df _) => apply within_rebind_df
  | |- Session.keeps _ (mutate_df _) => apply within_mutate_df; intros ? ?
  | |- Session.keeps _ (if ?b then _ else _) => destruct b eqn:?
  | |- Session.keeps _ (match ?x with _ => _ end) => destruct x
  | |- Session.keeps _ (let '(_, _) := ?x in _) => destruct x
  | |- Session.keeps _ _ => solve [eauto with shape]
  end.

Ltac shape := repeat shape_step; eauto with shape.

Section shrunk.
Variable d0 : DataFrame.

Lemma shrunk_boolean_index d mask :
  Terms.shrunk d0 d → Terms.shrunk d0 (boolean_index d mask).
Proof.
  intros [Hi Hn]. split; [|done]. etrans; [apply index_boolean_index|done].
Qed.

Lemma shrunk_set_column c dt vs d :
  Terms.shrunk d0 d → Terms.shrunk d0 (set_column c dt vs d).
Proof.
  intros [Hi Hn]. split; [by rewrite index_set_column|].
  etrans; [done|apply names_set_column].
Qed.

Lemma shrunk_at_set idx c v d : Terms.shrunk d0 d → Terms.shrunk d0 (at_set idx c v d).
Proof.
  intros [Hi Hn]. split; [by rewrite index_at_set|].
  etrans; [done|apply names_at_set].
Qed.

End shrunk.

#[local] Hint Resolve shrunk_boolean_index shrunk_set_column shrunk_at_set : shape.

Section cleaner_shape.
Import Session.
Context `{Library}.
Variable d0 : DataFrame.

Lemma shrunk_remove_duplicates keep :
  keeps (Terms.within (Terms.shrunk d0)) (Cleaner.remove_duplicates keep).
Proof. unfold Cleaner.remove_duplicates, drop_duplicates. shape. Qed.

Lemma shrunk_fill_missing_values strategy :
  keeps (Terms.within (Terms.shrunk d0)) (Cleaner.fill_missing_values strategy).
Proof.
  unfold Cleaner.fill_missing_values, Cleaner.fill_missing_value, Cleaner.fill_column,
    dropna_subset.
  shape.
Qed.

Lemma shrunk_remove_outliers column threshold :
  keeps (Terms.within (Terms.shrunk d0)) (Cleaner.remove_outliers column threshold).
Proof. unfold Cleaner.remove_outliers. shape. Qed.

Lemma shrunk_fix_each column fix_value invalid_indices : ∀ count,
  keeps (Terms.within (Terms.shrunk d0))
    (Cleaner.fix_each column fix_value invalid_indices count).
Proof.
  induction invalid_indices as [|idx rest IH]; intros count; cbn [Cleaner.fix_each].
  - shape.
  - apply within_self_df_bind. intros d Hd. destruct (bool_decide _); [|apply IH].
    apply inv_bind; [shape|]. intros _. apply IH.
Qed.

Lemma shrunk_fix_invalid_values column invalid_indices fix_value :
  keeps (Terms.within (Terms.shrunk d0))
    (Cleaner.fix_invalid_values column invalid_indices fix_value).
Proof.
  unfold Cleaner.fix_invalid_values.
  apply inv_bind; [apply shrunk_fix_each|]. intros count. shape.
Qed.

End cleaner_shape.

Lemma run_keeps {C} (P : component → Prop) (step : C → component → component) calls :
  (∀ c s, P s → P (step c s)) → ∀ s, P s → P (Session.run step calls s).
Proof.
  intros Hstep. unfold Session.run.
  induction calls as [|c calls IH]; intros s Hs; [done|].
  cbn [foldl]. by apply IH, Hstep.
Qed.

(** Whatever a [DataCleaner] is asked to do, in whatever sequence, and
    however each call ends, the working copy afterwards has rows of the
    working copy before only, in their order and under their labels, and
    still has every column it had, in its place and under its name: rows
    are only ever dropped, columns only ever added at the end. *)
Theorem cleaner_only_drops_rows `{Library} (calls : list Session.cleaner_call)
    (s : component) (d : DataFrame) :
  working_copy s = Some d →
  ∃ d', working_copy (Session.run Session.cleaner_step calls s) = Some d'
        ∧ index d' `sublist_of` index d
        ∧ column_names d `prefix_of` column_names d'.
Proof.
  intros Hs.
  assert (Hin : Terms.within (Terms.shrunk d) s) by (by exists d).
  assert (Hout : Terms.within (Terms.shrunk d)
                   (Session.run Session.cleaner_step calls s)).
  { clear Hs. revert s Hin. apply run_keeps. intros c s Hin.
    destruct c; cbn [Session.cleaner_step].
    - by apply shrunk_remove_duplicates.
    - by apply shrunk_fill_missing_values.
    - by apply shrunk_remove_outliers.
    - by apply shrunk_fix_invalid_values. }
  destruct Hout as (d' & Hd' & Hi & Hn). by exists d'.
Qed.

Lemma cleaner_only_drops_rows_witness :
  ∃ d', working_copy
          (Session.run (Session.cleaner_step (H := Sample.library))
             [Session.fill_missing_values [("x", VStr "drop")];
              Session.fix_invalid_values "flag" [0%Z] (VInt 1)]
             (Sample.holding (Sample.one_two_null_four "x"))) = Some d'
        ∧ index d' `sublist_of` index (Sample.one_two_null_four "x")
        ∧ column_names (Sample.one_two_null_four "x") `prefix_of` column_names d'.
Proof. by apply (cleaner_only_drops_rows (H := Sample.library)). Defined.

(** *** The preparer *)

Section prep_shape.
Import Session.
Context `{Library}.

Lemma same_shape_set_column d0 c dt vs d :
  c ∈ column_names d0 → Terms.same_shape d0 d →
  Terms.same_shape d0 (set_column c dt vs d).
Proof.
  intros Hc [Hi Hn]. split; [by rewrite index_set_column|].
  rewrite names_set_column_present; [done|].
  apply names_has_column. by rewrite Hn.
Qed.

(** a column found to be of dtype [object] is none of those kept *)
Lemma same_typed_set_column d0 d d1 c dt vs :
  c ∈ column_names d0 →
  Terms.same_typed d0 d → dtype_eqb (dtype_of d c) object = true →
  Terms.same_typed d0 d1 →
  Terms.same_typed d0 (set_column c dt vs d1).
Proof.
  intros Hc [_ Hd] Hobject [Hshape Hd1].
  split; [by apply same_shape_set_column|].
  intros c' Hc'.
  assert (Hne : c' ≠ c).
  { intros ->. apply dtype_eqb_eq in Hobject.
    destruct (Hd c Hc') as [_ Hdt]. congruence. }
  assert (Hhas : has_column d1 c = true).
  { apply names_has_column. destruct Hshape as [_ ->]. done. }
  rewrite series_set_column_other, dtype_of_set_column_other by done.
  by apply Hd1.
Qed.

Lemma same_typed_enforce_column d0 column type_changes :
  column ∈ column_names d0 →
  keeps (Terms.within (Terms.same_typed d0))
    (TableauPrep.enforce_column column type_changes).
Proof.
  intros Hc. unfold TableauPrep.enforce_column.
  shape;
    match goal with
    | Hd : Terms.same_typed d0 ?d,
      Hb : context [dtype_eqb (dtype_of ?d column) object] |- _ =>
        apply (same_typed_set_column d0 d); [done|done| |done];
        first [exact Hb | by apply andb_true_iff in Hb as [_ Hb]]
    end.
Qed.

Lemma same_typed_enforce_columns d0 cols : ∀ type_changes,
  cols ⊆ column_names d0 →
  keeps (Terms.within (Terms.same_typed d0))
    (TableauPrep.enforce_columns cols type_changes).
Proof.
  induction cols as [|column rest IH]; intros type_changes Hcols;
    cbn [TableauPrep.enforce_columns]; [shape|].
  apply inv_bind.
  - apply same_typed_enforce_column, Hcols, list_elem_of_here.
  - intros tc. apply IH. intros x Hx. by apply Hcols, list_elem_of_further.
Qed.

Lemma same_typed_enforce_data_types s d :
  working_copy s = Some d →
  Terms.within (Terms.same_typed d) (TableauPrep.enforce_data_types s).1.
Proof.
  intros Hs. unfold TableauPrep.enforce_data_types.
  rewrite (bind_ok _ _ _ _ _ (self_df_ok _ _ Hs)).
  assert (Hin : Terms.within (Terms.same_typed d) s) by (by exists d).
  clear Hs. revert s Hin.
  change (keeps (Terms.within (Terms.same_typed d))
            (type_changes ← TableauPrep.enforce_columns (column_names d) [];
             when (negb (bool_decide (type_changes = [])))
               (log_append ("Converted " +:+ pretty (length type_changes)
                            +:+ " column types");;
                for_each type_changes (λ change, log_append ("  - " +:+ change)));;
             self_ref)).
  apply inv_bind; [by apply same_typed_enforce_columns|]. intros tc. shape.
Qed.

Lemma same_size_rename d0 m d :
  Terms.same_size d0 d → Terms.same_size d0 (TableauPrep.rename m d).
Proof.
  intros [Hi Hn]. split; [done|]. unfold TableauPrep.rename. cbn.
  by rewrite length_fmap.
Qed.

Lemma same_size_prep_step d0 c s :
  Terms.within (Terms.same_size d0) s →
  Terms.within (Terms.same_size d0) (prep_step c s).
Proof.
  destruct c; cbn [prep_step].
  - revert s. change (keeps (Terms.within (Terms.same_size d0))
                        TableauPrep.clean_column_names).
    unfold TableauPrep.clean_column_names. shape. by apply same_size_rename.
  - intros (d & Hd & Hi & Hn).
    destruct (same_typed_enforce_data_types s d Hd) as (d' & Hd' & [Hi' Hn'] & _).
    exists d'. split; [done|]. split; [congruence|].
    rewrite <- Hn. unfold column_names in Hn'.
    by rewrite <- (length_fmap fst (columns d')), Hn', length_fmap.
Qed.

End prep_shape.

(** [enforce_data_types] converts columns where they stand, and columns
    of dtype [object] only: afterwards the working copy has the row
    labels and the column names it had before, in the same order, and
    every column that was of another dtype holds what it held, under the
    dtype it had. *)
Theorem enforce_data_types_keeps_shape `{Library} (s : component) (d : DataFrame) :
  working_copy s = Some d →
  ∃ d', working_copy (TableauPrep.enforce_data_types s).1 = Some d'
        ∧ index d' = index d
        ∧ column_names d' = column_names d
        ∧ ∀ c, dtype_of d c ≠ object →
               series d' c = series d c ∧ dtype_of d' c = dtype_of d c.
Proof.
  intros Hs.
  destruct (same_typed_enforce_data_types s d Hs) as (d' & Hd' & [Hi Hn] & Hkept).
  by exists d'.
Qed.

Lemma enforce_data_types_keeps_shape_witness :
  ∃ d', working_copy
          (TableauPrep.enforce_data_types (H := Sample.library)
             (Sample.holding Sample.sales)).1 = Some d'
        ∧ index d' = index Sample.sales
        ∧ column_names d' = column_names Sample.sales
        ∧ ∀ c, dtype_of Sample.sales c ≠ object →
               series d' c = series Sample.sales c
               ∧ dtype_of d' c = dtype_of Sample.sales c.
Proof. by apply (enforce_data_types_keeps_shape (H := Sample.library)). Defined.

(** Whatever a [TableauPrep] is asked to do, in whatever sequence, the
    working copy keeps its rows, under their labels and in their order,
    and its number of columns. *)
Theorem prep_keeps_rows_and_columns `{Library} (calls : list Session.prep_call)
    (s : component) (d : DataFrame) :
  working_copy s = Some d →
  ∃ d', working_copy (Session.run Session.prep_step calls s) = Some d'
        ∧ index d' = index d
        ∧ length (columns d') = length (columns d).
Proof.
  intros Hs.
  assert (Hin : Terms.within (Terms.same_size d) s) by (by exists d).
  assert (Hout : Terms.within (Terms.same_size d)
                   (Session.run Session.prep_step calls s)).
  { clear Hs. revert s Hin. apply run_keeps. intros c s. apply same_size_prep_step. }
  destruct Hout as (d' & Hd' & Hi & Hn). by exists d'.
Qed.

Lemma prep_keeps_rows_and_columns_witness :
  ∃ d', working_copy
          (Session.run (Session.prep_step (H := Sample.library))
             [Session.clean_column_names; Session.enforce_data_types]
             (Sample.holding Sample.sales)) = Some d'
        ∧ index d' = index Sample.sales
        ∧ length (columns d') = length (columns Sample.sales).
Proof. by apply (prep_keeps_rows_and_columns (H := Sample.library)). Defined.

Section nothing_to_convert.
Context `{Library}.

Lemma enforce_column_skips column type_changes s d :
  working_copy s = Some d →
  dtype_eqb (dtype_of d column) object = false →
  TableauPrep.enforce_column column type_changes s = (s, Ok type_changes).
Proof.
  intros Hs Hdt. unfold TableauPrep.enforce_column.
  rewrite (bind_ok _ _ _ _ _ (self_df_ok _ _ Hs)). rewrite Hdt, andb_false_r.
  rewrite (bind_ok (mret type_changes) _ s s type_changes eq_refl).
  rewrite (bind_ok _ _ _ _ _ (self_df_ok _ _ Hs)). rewrite Hdt.
  rewrite (bind_ok (mret type_changes) _ s s type_changes eq_refl).
  rewrite (bind_ok _ _ _ _ _ (self_df_ok _ _ Hs)). by rewrite Hdt.
Qed.

Lemma enforce_columns_skip cols : ∀ type_changes s d,
  working_copy s = Some d →
  (∀ c, c ∈ cols → dtype_of d c ≠ object) →
  TableauPrep.enforce_columns cols type_changes s = (s, Ok type_changes).
Proof.
  induction cols as [|column rest IH]; intros type_changes s d Hs Hcols; [done|].
  cbn [TableauPrep.enforce_columns].
  assert (Hdt : dtype_eqb (dtype_of d column) object = false).
  { destruct (dtype_eqb _ _) eqn:Hdt; [|done].
    apply dtype_eqb_eq in Hdt. by apply Hcols in Hdt; [|apply list_elem_of_here]. }
  rewrite (bind_ok _ _ _ _ _ (enforce_column_skips column type_changes s d Hs Hdt)).
  apply (IH _ _ d Hs). intros c Hc. by apply Hcols, list_elem_of_further.
Qed.

End nothing_to_convert.

(** On a frame that has no column of dtype [object], [enforce_data_types]
    converts nothing: the working copy is untouched and nothing is
    logged. *)
Theorem enforce_data_types_nothing_to_convert `{Library} (s : component)
    (d : DataFrame) :
  working_copy s = Some d →
  (∀ c, c ∈ column_names d → dtype_of d c ≠ object) →
  TableauPrep.enforce_data_types s = (s, Ok (df s)).
Proof.
  intros Hs Hcols. unfold TableauPrep.enforce_data_types.
  rewrite (bind_ok _ _ _ _ _ (self_df_ok _ _ Hs)).
  by rewrite (bind_ok _ _ _ _ _ (enforce_columns_skip _ [] s d Hs Hcols)).
Qed.

Lemma enforce_data_types_nothing_to_convert_witness :
  TableauPrep.enforce_data_types (H := Sample.library)
    (Sample.holding Sample.tens_and_thousand)
  = (Sample.holding Sample.tens_and_thousand,
     Ok (df (Sample.holding Sample.tens_and_thousand))).
Proof.
  apply (enforce_data_types_nothing_to_convert (H := Sample.library) _
           Sample.tens_and_thousand); [reflexivity|].
  intros c Hc. apply list_elem_of_singleton in Hc as ->. by vm_compute.
Defined.

(** ** Filling, dropping and fixing: the edges *)

Section fill.
Context `{Library}.

Lemma fill_missing_single column method s :
  Cleaner.fill_missing_values [(column, method)] s
  = match Cleaner.fill_missing_value column method s with
    | (s', Ok _) => (s', Ok (df s'))
    | (s', Raise e) => (s', Raise e)
    end.
Proof.
  unfold Cleaner.fill_missing_values. cbn [for_each].
  unfold mbind, py_bind, bind, ret, self_ref.
  by destruct (Cleaner.fill_missing_value column method s) as [s' [[]|e]].
Qed.

Lemma fill_missing_value_skip column method s d :
  working_copy s = Some d →
  has_column d column = false ∨ null_count (series d column) = 0%nat →
  Cleaner.fill_missing_value column method s = (s, Ok tt).
Proof.
  intros Hs Hskip. unfold Cleaner.fill_missing_value.
  rewrite (bind_ok _ _ _ _ _ (self_df_ok _ _ Hs)).
  destruct (has_column d column); [|done]. cbn [negb].
  destruct Hskip as [Hno|Hzero]; [done|]. by rewrite Hzero.
Qed.

End fill.

(** A column named in the strategy that the frame does not have, or that
    has no null, is passed over: when that is so of every entry,
    [fill_missing_values] changes nothing and logs nothing, whatever the
    methods are. *)
Theorem fill_missing_values_skips `{Library} (strategy : list (string * cell))
    (s : component) (d : DataFrame) :
  working_copy s = Some d →
  (∀ column method, (column, method) ∈ strategy →
     has_column d column = false ∨ null_count (series d column) = 0%nat) →
  Cleaner.fill_missing_values strategy s = (s, Ok (df s)).
Proof.
  intros Hs Hskip. unfold Cleaner.fill_missing_values.
  assert (Hloop : for_each strategy
                    (λ '(column, method), Cleaner.fill_missing_value column method) s
                  = (s, Ok tt)).
  { induction strategy as [|[column method] rest IH]; [done|].
    cbn [for_each]. unfold bind.
    rewrite (fill_missing_value_skip column method s d Hs)
      by (eapply Hskip, list_elem_of_here).
    apply IH. intros c m Hin. eapply Hskip, list_elem_of_further, Hin. }
  unfold mbind, py_bind, bind. by rewrite Hloop.
Qed.

Lemma fill_missing_values_skips_witness :
  Cleaner.fill_missing_values (H := Sample.library)
    [("y", VStr "mean"); ("amount", VStr "drop")]
    (Sample.holding Sample.tens_and_thousand)
  = (Sample.holding Sample.tens_and_thousand,
     Ok (df (Sample.holding Sample.tens_and_thousand))).
Proof.
  apply (fill_missing_values_skips (H := Sample.library) _ _ Sample.tens_and_thousand);
    [reflexivity|].
  intros column method Hin.
  apply elem_of_cons in Hin as [Heq|Hin]; [injection Heq as -> ->; by left|].
  apply elem_of_cons in Hin as [Heq|Hin]; [injection Heq as -> ->; by right|].
  by apply elem_of_nil in Hin.
Defined.

(** *** Dropping the rows with a null *)

Lemma mask_notna_length i rs :
  length (mask_rows (notna <$> (cell_at i <$> rs)) rs)
  = (length rs - null_count (cell_at i <$> rs))%nat.
Proof.
  unfold null_count, notna. induction rs as [|r rs IH]; [done|].
  cbn [fmap list_fmap mask_rows]. rewrite filter_cons.
  assert (Hle : (length (filter (λ c, isnull c = true) (cell_at i <$> rs))
                 ≤ length rs)%nat).
  { etrans; [apply length_filter|]. by rewrite length_fmap. }
  destruct (isnull (cell_at i r)); cbn [negb].
  - rewrite decide_True by done. cbn [length]. rewrite IH. lia.
  - rewrite decide_False by done. cbn [length]. rewrite IH. lia.
Qed.

Lemma mask_notna_series i rs :
  cell_at i <$> mask_rows (notna <$> (cell_at i <$> rs)) rs
  = dropna_cells (cell_at i <$> rs).
Proof.
  unfold dropna_cells, notna. induction rs as [|r rs IH]; [done|].
  cbn [fmap list_fmap mask_rows]. rewrite filter_cons.
  destruct (isnull (cell_at i r)); cbn [negb].
  - by rewrite decide_False.
  - rewrite decide_True by done. cbn [fmap list_fmap]. by rewrite IH.
Qed.

Lemma series_dropna_subset d c : series (dropna_subset c d) c = dropna_cells (series d c).
Proof.
  unfold dropna_subset. rewrite series_boolean_index. unfold series.
  destruct (col_pos c (columns d)); [apply mask_notna_series|done].
Qed.

Lemma len_dropna_subset d c :
  has_column d c = true →
  (len d - len (dropna_subset c d))%nat = null_count (series d c).
Proof.
  intros [i Hi]%bool_decide_eq_true.
  unfold dropna_subset, len, boolean_index, series. cbn [rows]. rewrite Hi.
  rewrite mask_notna_length.
  assert (null_count (cell_at i <$> rows d) ≤ length (rows d))%nat; [|lia].
  unfold null_count. etrans; [apply length_filter|]. by rewrite length_fmap.
Qed.

Lemma null_count_dropna cs : null_count (dropna_cells cs) = 0%nat.
Proof.
  unfold null_count, dropna_cells. induction cs as [|c cs IH]; [done|].
  rewrite filter_cons. destruct (isnull c) eqn:Hc.
  - by rewrite decide_False.
  - rewrite decide_True by done. rewrite filter_cons, Hc. by rewrite decide_False.
Qed.

(** The method ['drop'] on a column that has nulls leaves, in a new frame,
    the rows that have a value there, so that the column has no null
    afterwards; the number logged is the number of nulls the column had,
    which is never zero: a column without nulls is passed over before
    the method is looked at. *)
Theorem fill_missing_drop `{Library} (column : string) (s : component) (d : DataFrame) :
  working_copy s = Some d →
  has_column d column = true →
  null_count (series d column) ≠ 0%nat →
  ∃ s',
    Cleaner.fill_missing_values [(column, VStr "drop")] s = (s', Ok (df s'))
    ∧ working_copy s' = Some (dropna_subset column d)
    ∧ series (dropna_subset column d) column = dropna_cells (series d column)
    ∧ null_count (series (dropna_subset column d) column) = 0%nat
    ∧ heap s' !! df s = Some d
    ∧ Cleaner.cleaning_log s'
      = Cleaner.cleaning_log s
        ++ ["Dropped " +:+ pretty (null_count (series d column))
            +:+ " rows with missing '" +:+ column +:+ "'"].
Proof.
  intros Hs Hc Hnull. rewrite fill_missing_single. unfold Cleaner.fill_missing_value.
  rewrite (bind_ok _ _ _ _ _ (self_df_ok _ _ Hs)). rewrite Hc. cbn [negb].
  apply Nat.eqb_neq in Hnull as Hnull'. rewrite Hnull'.
  change (Cleaner.is_token (VStr "drop") "mean") with false.
  change (Cleaner.is_token (VStr "drop") "median") with false.
  change (Cleaner.is_token (VStr "drop") "mode") with false.
  change (Cleaner.is_token (VStr "drop") "drop") with true. cbv iota.
  unfold mbind, py_bind, bind, rebind_df, self_df, log_append. cbn.
  rewrite lookup_insert_eq. cbn. eexists (Component _ _ _). split; [reflexivity|].
  unfold working_copy, Cleaner.cleaning_log. cbn.
  change (length (mask_rows (notna <$> series d column) (rows d)))
    with (len (dropna_subset column d)).
  rewrite lookup_insert_eq, len_dropna_subset, series_dropna_subset, null_count_dropna
    by done.
  repeat split; try done.
  rewrite lookup_insert_ne; [exact Hs|].
  intros Heq. apply (is_fresh (dom (heap s))). rewrite Heq.
  apply elem_of_dom. unfold working_copy in Hs. by rewrite Hs.
Qed.

Lemma fill_missing_drop_witness :
  ∃ s',
    Cleaner.fill_missing_values (H := Sample.library) [("A", VStr "drop")]
      (Sample.holding (Sample.one_two_null_four "A")) = (s', Ok (df s'))
    ∧ working_copy s' = Some (dropna_subset "A" (Sample.one_two_null_four "A"))
    ∧ series (dropna_subset "A" (Sample.one_two_null_four "A")) "A"
      = dropna_cells (series (Sample.one_two_null_four "A") "A")
    ∧ null_count (series (dropna_subset "A" (Sample.one_two_null_four "A")) "A") = 0%nat
    ∧ heap s' !! df (Sample.holding (Sample.one_two_null_four "A"))
      = Some (Sample.one_two_null_four "A")
    ∧ Cleaner.cleaning_log s'
      = Cleaner.cleaning_log (Sample.holding (Sample.one_two_null_four "A"))
        ++ ["Dropped "
            +:+ pretty (null_count (series (Sample.one_two_null_four "A") "A"))
            +:+ " rows with missing '" +:+ "A" +:+ "'"].
Proof.
  apply (fill_missing_drop (H := Sample.library) "A"
           (Sample.holding (Sample.one_two_null_four "A")));
    [reflexivity|reflexivity|by vm_compute].
Defined.

(** *** Filling with a value *)

Section fill_value.
Context `{Library}.

(** the two steps every filling branch ends with *)
Lemma fill_and_log s d column v msg :
  working_copy s = Some d →
  ∃ s', (mutate_df (Cleaner.fill_column column v);; log_append msg) s = (s', Ok tt)
        ∧ df s' = df s
        ∧ working_copy s' = Some (Cleaner.fill_column column v d)
        ∧ Cleaner.cleaning_log s' = Cleaner.cleaning_log s ++ [msg].
Proof.
  intros Hs. unfold mbind, py_bind, bind, mutate_df, log_append. cbn.
  eexists (Component _ _ _). split; [reflexivity|]. split; [done|]. split; [|done].
  unfold working_copy in *. cbn. by rewrite lookup_alter_eq, Hs.
Qed.

Lemma fill_column_other d column v c' :
  has_column d column = true → c' ≠ column →
  series (Cleaner.fill_column column v d) c' = series d c'.
Proof. intros Hc Hne. unfold Cleaner.fill_column. by apply series_set_column_other. Qed.

Lemma index_fill_column d column v : index (Cleaner.fill_column column v d) = index d.
Proof. apply index_set_column. Qed.

End fill_value.

(** A value that is none of the four method names and not null is
    written, in place, into the null cells of the column; the column has
    no null afterwards, the other columns and the row labels are what
    they were, and the log names the number of nulls filled and the
    value. *)
Theorem fill_missing_constant `{Library} (column : string) (v : cell)
    (s : component) (d : DataFrame) :
  working_copy s = Some d →
  rectangular d = true →
  has_column d column = true →
  null_count (series d column) ≠ 0%nat →
  isnull v = false →
  (∀ token, token ∈ ["mean"; "median"; "mode"; "drop"] →
     Cleaner.is_token v token = false) →
  ∃ s' d',
    Cleaner.fill_missing_values [(column, v)] s = (s', Ok (df s'))
    ∧ df s' = df s
    ∧ working_copy s' = Some d'
    ∧ series d' column
      = coerce (upcast (dtype_of d column) v) <$> fillna v (series d column)
    ∧ null_count (series d' column) = 0%nat
    ∧ (∀ c', c' ≠ column → series d' c' = series d c')
    ∧ index d' = index d
    ∧ Cleaner.cleaning_log s'
      = Cleaner.cleaning_log s
        ++ ["Filled " +:+ pretty (null_count (series d column))
            +:+ " missing values in '" +:+ column +:+ "' with '"
            +:+ py_str v +:+ "'"].
Proof.
  intros Hs Hrect Hc Hnull Hv Htok. rewrite fill_missing_single.
  unfold Cleaner.fill_missing_value.
  rewrite (bind_ok _ _ _ _ _ (self_df_ok _ _ Hs)). rewrite Hc. cbn [negb].
  apply Nat.eqb_neq in Hnull as Hnull'. rewrite Hnull'.
  rewrite !Htok by (rewrite !elem_of_cons; auto 6). rewrite Hv.
  destruct (fill_and_log s d column v
              ("Filled " +:+ pretty (null_count (series d column))
               +:+ " missing values in '" +:+ column +:+ "' with '"
               +:+ py_str v +:+ "'") Hs)
    as (s' & Hrun & Hdf & Hw & Hlog).
  change ((mret tt;; mutate_df (Cleaner.fill_column column v);;
           log_append ("Filled " +:+ pretty (null_count (series d column))
                       +:+ " missing values in '" +:+ column +:+ "' with '"
                       +:+ py_str v +:+ "'")) s)
    with ((mutate_df (Cleaner.fill_column column v);;
           log_append ("Filled " +:+ pretty (null_count (series d column))
                       +:+ " missing values in '" +:+ column +:+ "' with '"
                       +:+ py_str v +:+ "'")) s).
  rewrite Hrun. exists s', (Cleaner.fill_column column v d).
  rewrite fill_column_series by done.
  repeat split; try done.
  - by apply null_count_filled.
  - intros c' Hne. by apply fill_column_other.
  - apply index_fill_column.
Qed.

Lemma fill_missing_constant_witness :
  ∃ s' d',
    Cleaner.fill_missing_values (H := Sample.library) [("A", VInt 0)]
      (Sample.holding (Sample.one_two_null_four "A")) = (s', Ok (df s'))
    ∧ df s' = df (Sample.holding (Sample.one_two_null_four "A"))
    ∧ working_copy s' = Some d'
    ∧ series d' "A"
      = coerce (upcast (dtype_of (Sample.one_two_null_four "A") "A") (VInt 0))
        <$> fillna (VInt 0) (series (Sample.one_two_null_four "A") "A")
    ∧ null_count (series d' "A") = 0%nat
    ∧ (∀ c', c' ≠ "A" → series d' c' = series (Sample.one_two_null_four "A") c')
    ∧ index d' = index (Sample.one_two_null_four "A")
    ∧ Cleaner.cleaning_log s'
      = Cleaner.cleaning_log (Sample.holding (Sample.one_two_null_four "A"))
        ++ ["Filled "
            +:+ pretty (null_count (series (Sample.one_two_null_four "A") "A"))
            +:+ " missing values in '" +:+ "A" +:+ "' with '"
            +:+ py_str (H := Sample.library) (VInt 0) +:+ "'"].
Proof.
  apply (fill_missing_constant (H := Sample.library) "A" (VInt 0)
           (Sample.holding (Sample.one_two_null_four "A")));
    [reflexivity|reflexivity|reflexivity|by vm_compute|reflexivity|].
  intros token _. reflexivity.
Defined.

(** *** A column of nulls only *)

Lemma as_numbers_nulls cs :
  Forall (λ c, isnull c = true) cs → ∃ xs, as_numbers cs = Ok xs ∧ present xs = [].
Proof.
  induction 1 as [|c cs Hc Hcs (xs & Hxs & Hp)]; [by exists []|].
  exists (None :: xs). cbn [as_numbers]. rewrite Hxs. by destruct c.
Qed.

Lemma fillna_nulls dt cs :
  Forall (λ c, isnull c = true) cs → coerce dt <$> fillna NA cs = cs.
Proof.
  unfold fillna. induction 1 as [|c cs Hc Hcs IH]; [done|].
  cbn [fmap list_fmap]. rewrite IH. by destruct c, dt.
Qed.

Lemma null_count_nulls cs :
  Forall (λ c, isnull c = true) cs → null_count cs = length cs.
Proof.
  unfold null_count. induction 1 as [|c cs Hc Hcs IH]; [done|].
  rewrite filter_cons, decide_True by done. cbn. by rewrite IH.
Qed.

(** A [float64] column that holds nulls only has no mean and no median:
    the methods ['mean'] and ['median'] then fill with [NaN], which
    leaves every cell of the column null and the dtype as it is, and the
    log says that the nulls, all the rows, were filled, with [nan]. *)
Theorem fill_missing_average_of_nulls `{Library} (column method : string)
    (s : component) (d : DataFrame) :
  working_copy s = Some d →
  rectangular d = true →
  has_column d column = true →
  dtype_of d column = float64 →
  series d column ≠ [] →
  Forall (λ c, isnull c = true) (series d column) →
  method ∈ ["mean"; "median"] →
  ∃ s' d',
    Cleaner.fill_missing_values [(column, VStr method)] s = (s', Ok (df s'))
    ∧ working_copy s' = Some d'
    ∧ series d' column = series d column
    ∧ dtype_of d' column = float64
    ∧ Cleaner.cleaning_log s'
      = Cleaner.cleaning_log s
        ++ ["Filled " +:+ pretty (len d) +:+ " missing values in '" +:+ column
            +:+ "' with " +:+ method +:+ ": nan"].
Proof.
  intros Hs Hrect Hc Hdt Hne Hnulls Hmethod. rewrite fill_missing_single.
  unfold Cleaner.fill_missing_value.
  rewrite (bind_ok _ _ _ _ _ (self_df_ok _ _ Hs)). cbv zeta. rewrite Hc. cbn [negb].
  rewrite (null_count_nulls _ Hnulls), (series_length _ _ Hc).
  assert (Hlen : (len d =? 0)%nat = false).
  { apply Nat.eqb_neq. rewrite <- (series_length _ _ Hc).
    by destruct (series d column). }
  rewrite Hlen. destruct (as_numbers_nulls _ Hnulls) as (xs & Hxs & Hp).
  assert (Hmean : mean xs = None) by (unfold mean; by rewrite Hp).
  assert (Hmedian : median xs = None) by (unfold median; by rewrite Hp).
  assert (Hfill : series (Cleaner.fill_column column NA d) column = series d column).
  { rewrite fill_column_series by done. by apply fillna_nulls. }
  assert (Hkind : dtype_of (Cleaner.fill_column column NA d) column = float64).
  { unfold Cleaner.fill_column. rewrite dtype_of_set_column by done. by rewrite Hdt. }
  rewrite !elem_of_cons in Hmethod. destruct Hmethod as [->|[->|Hnil]];
    [| |by apply elem_of_nil in Hnil].
  - change (Cleaner.is_token (VStr "mean") "mean") with true. cbv iota.
    rewrite Hxs. rewrite (bind_ok (lift (Ok xs)) _ s s xs eq_refl).
    rewrite Hmean.
    destruct (fill_and_log s d column NA
                ("Filled " +:+ pretty (len d) +:+ " missing values in '" +:+ column
                 +:+ "' with mean: " +:+ format_2f None) Hs)
      as (s' & Hrun & Hdf & Hw & Hlog).
    cbn [Cleaner.float_cell]. exists s', (Cleaner.fill_column column NA d).
    split; [by rewrite Hrun|done].
  - change (Cleaner.is_token (VStr "median") "mean") with false.
    change (Cleaner.is_token (VStr "median") "median") with true. cbv iota.
    rewrite Hxs. rewrite (bind_ok (lift (Ok xs)) _ s s xs eq_refl).
    rewrite Hmedian.
    destruct (fill_and_log s d column NA
                ("Filled " +:+ pretty (len d) +:+ " missing values in '" +:+ column
                 +:+ "' with median: " +:+ format_2f None) Hs)
      as (s' & Hrun & Hdf & Hw & Hlog).
    cbn [Cleaner.float_cell]. exists s', (Cleaner.fill_column column NA d).
    split; [by rewrite Hrun|done].
Qed.

Lemma fill_missing_average_of_nulls_witness :
  ∃ s' d',
    Cleaner.fill_missing_values (H := Sample.library) [("A", VStr "median")]
      (Sample.holding (Sample.single "A" float64 [NA; NA])) = (s', Ok (df s'))
    ∧ working_copy s' = Some d'
    ∧ series d' "A" = series (Sample.single "A" float64 [NA; NA]) "A"
    ∧ dtype_of d' "A" = float64
    ∧ Cleaner.cleaning_log s'
      = Cleaner.cleaning_log (Sample.holding (Sample.single "A" float64 [NA; NA]))
        ++ ["Filled " +:+ pretty (len (Sample.single "A" float64 [NA; NA]))
            +:+ " missing values in '" +:+ "A" +:+ "' with " +:+ "median" +:+ ": nan"].
Proof.
  apply (fill_missing_average_of_nulls (H := Sample.library) "A" "median"
           (Sample.holding (Sample.single "A" float64 [NA; NA])));
    [reflexivity|reflexivity|reflexivity|reflexivity|by vm_compute| |].
  - by repeat constructor.
  - rewrite !elem_of_cons. auto.
Defined.

(** *** The most frequent value *)

Lemma unique_elem_of x cs : x ∈ unique cs → x ∈ cs.
Proof.
  induction cs as [|c cs IH]; [done|]. cbn [unique].
  rewrite !elem_of_cons, list_elem_of_filter. intros [->|[_ Hx]]; auto.
Qed.

Lemma mode_not_null cs m : m ∈ mode cs → isnull m = false.
Proof.
  unfold mode.
  set (ms := filter _ (unique (dropna_cells cs))).
  assert (Hms : ∀ x, x ∈ ms → isnull x = false).
  { intros x Hx. apply list_elem_of_filter in Hx as [_ Hx].
    apply unique_elem_of in Hx. unfold dropna_cells in Hx.
    by apply list_elem_of_filter in Hx as [Hx _]. }
  destruct ms as [|m0 ms'] eqn:Hmseq; [by intros ?%elem_of_nil|].
  destruct (forallb _ _).
  - rewrite merge_sort_Permutation. apply Hms.
  - apply Hms.
Qed.

Lemma mode_nulls cs : Forall (λ c, isnull c = true) cs → mode cs = [].
Proof.
  intros Hcs. unfold mode.
  assert (Hnone : dropna_cells cs = []).
  { unfold dropna_cells. induction Hcs as [|c cs Hc Hcs IH]; [done|].
    rewrite filter_cons, decide_False by (by rewrite Hc). exact IH. }
  by rewrite Hnone.
Qed.

(** The method ['mode'] fills with the first of the most frequent values
    of the column, or with the text [Unknown] when the column holds nulls
    only; either way the value is not null, so that the column has no
    null afterwards. *)
Theorem fill_missing_mode `{Library} (column : string) (s : component) (d : DataFrame) :
  working_copy s = Some d →
  rectangular d = true →
  has_column d column = true →
  null_count (series d column) ≠ 0%nat →
  ∃ s' d' v,
    Cleaner.fill_missing_values [(column, VStr "mode")] s = (s', Ok (df s'))
    ∧ working_copy s' = Some d'
    ∧ v = default (VStr "Unknown") (head (mode (series d column)))
    ∧ isnull v = false
    ∧ (Forall (λ c, isnull c = true) (series d column) → v = VStr "Unknown")
    ∧ series d' column
      = coerce (upcast (dtype_of d column) v) <$> fillna v (series d column)
    ∧ null_count (series d' column) = 0%nat
    ∧ Cleaner.cleaning_log s'
      = Cleaner.cleaning_log s
        ++ ["Filled " +:+ pretty (null_count (series d column))
            +:+ " missing values in '" +:+ column +:+ "' with mode: " +:+ py_str v].
Proof.
  intros Hs Hrect Hc Hnull. rewrite fill_missing_single.
  unfold Cleaner.fill_missing_value.
  rewrite (bind_ok _ _ _ _ _ (self_df_ok _ _ Hs)). cbv zeta. rewrite Hc. cbn [negb].
  apply Nat.eqb_neq in Hnull as Hnull'. rewrite Hnull'.
  change (Cleaner.is_token (VStr "mode") "mean") with false.
  change (Cleaner.is_token (VStr "mode") "median") with false.
  change (Cleaner.is_token (VStr "mode") "mode") with true. cbv iota.
  set (v := default (VStr "Unknown") (head (mode (series d column)))).
  assert (Hv : isnull v = false).
  { unfold v. destruct (mode (series d column)) as [|m ms] eqn:Hmode; [done|].
    cbn. apply (mode_not_null (series d column)). rewrite Hmode. apply list_elem_of_here. }
  destruct (fill_and_log s d column v
              ("Filled " +:+ pretty (null_count (series d column))
               +:+ " missing values in '" +:+ column +:+ "' with mode: " +:+ py_str v) Hs)
    as (s' & Hrun & Hdf & Hw & Hlog).
  rewrite Hrun. exists s', (Cleaner.fill_column column v d), v.
  rewrite fill_column_series by done.
  repeat split; try done.
  - intros Hnulls. unfold v. by rewrite mode_nulls.
  - by apply null_count_filled.
Qed.

Lemma fill_missing_mode_witness :
  ∃ s' d' v,
    Cleaner.fill_missing_values (H := Sample.library) [("A", VStr "mode")]
      (Sample.holding Sample.five_five_null) = (s', Ok (df s'))
    ∧ working_copy s' = Some d'
    ∧ v = default (VStr "Unknown") (head (mode (series Sample.five_five_null "A")))
    ∧ isnull v = false
    ∧ (Forall (λ c, isnull c = true) (series Sample.five_five_null "A") →
       v = VStr "Unknown")
    ∧ series d' "A"
      = coerce (upcast (dtype_of Sample.five_five_null "A") v)
        <$> fillna v (series Sample.five_five_null "A")
    ∧ null_count (series d' "A") = 0%nat
    ∧ Cleaner.cleaning_log s'
      = Cleaner.cleaning_log (Sample.holding Sample.five_five_null)
        ++ ["Filled " +:+ pretty (null_count (series Sample.five_five_null "A"))
            +:+ " missing values in '" +:+ "A" +:+ "' with mode: "
            +:+ py_str (H := Sample.library) v].
Proof.
  apply (fill_missing_mode (H := Sample.library) "A"
           (Sample.holding Sample.five_five_null));
    [reflexivity|reflexivity|reflexivity|by vm_compute].
Defined.

(** *** Fixing the cells of a column that is there *)

Lemma fix_each_absent column v idxs : ∀ count s d,
  working_copy s = Some d →
  (∀ idx, idx ∈ idxs → idx ∉ index d) →
  Cleaner.fix_each column v idxs count s = (s, Ok count).
Proof.
  induction idxs as [|idx rest IH]; intros count s d Hs Habsent; [done|].
  cbn [Cleaner.fix_each]. rewrite (bind_ok _ _ _ _ _ (self_df_ok _ _ Hs)).
  rewrite bool_decide_eq_false_2 by (apply Habsent, list_elem_of_here).
  apply (IH _ _ d Hs). intros i Hi. by apply Habsent, list_elem_of_further.
Qed.

(** Indices that label no row are passed over: when none of the indices
    given labels a row, and so when none is given, [fix_invalid_values]
    changes nothing, adds no column and logs nothing. *)
Theorem fix_invalid_values_absent (column : string) (invalid_indices : list Z)
    (fix_value : cell) (s : component) (d : DataFrame) :
  working_copy s = Some d →
  (∀ idx, idx ∈ invalid_indices → idx ∉ index d) →
  Cleaner.fix_invalid_values column invalid_indices fix_value s = (s, Ok (df s)).
Proof.
  intros Hs Habsent. unfold Cleaner.fix_invalid_values.
  by rewrite (bind_ok _ _ _ _ _ (fix_each_absent _ _ _ 0%nat s d Hs Habsent)).
Qed.

Lemma fix_invalid_values_absent_witness :
  Cleaner.fix_invalid_values "B" [7; -1]%Z (VStr "x")
    (Sample.holding (Sample.one_two_null_four "A"))
  = (Sample.holding (Sample.one_two_null_four "A"),
     Ok (df (Sample.holding (Sample.one_two_null_four "A")))).
Proof.
  apply (fix_invalid_values_absent "B" [7; -1]%Z (VStr "x")
           (Sample.holding (Sample.one_two_null_four "A"))
           (Sample.one_two_null_four "A")); [reflexivity|].
  intros idx Hidx Hin.
  change (index (Sample.one_two_null_four "A")) with [0; 1; 2; 3]%Z in Hin.
  rewrite !elem_of_cons in Hidx. rewrite !elem_of_cons in Hin.
  destruct Hidx as [->|[->|Hnil]]; [| |by apply elem_of_nil in Hnil];
    by destruct Hin as [?|[?|[?|[?|?%elem_of_nil]]]].
Defined.

Lemma upcast_idempotent dt v : upcast (upcast dt v) v = upcast dt v.
Proof. by destruct dt, v. Qed.

Lemma set_dtype_idempotent i dt cols :
  set_dtype i dt (set_dtype i dt cols) = set_dtype i dt cols.
Proof.
  unfold set_dtype. destruct (cols !! i) as [[n dt0]|] eqn:Hi; [|by rewrite Hi].
  rewrite list_lookup_insert_eq by (by eapply lookup_lt_Some).
  by rewrite list_insert_insert_eq.
Qed.

Lemma set_dtype_lookup i dt cols n dt0 :
  cols !! i = Some (n, dt0) → set_dtype i dt cols !! i = Some (n, dt).
Proof.
  intros Hi. unfold set_dtype. rewrite Hi.
  apply list_lookup_insert_eq. by eapply lookup_lt_Some.
Qed.

Section fixed_column.
Variables (d : DataFrame) (column : string) (v : cell) (i : nat).
Hypothesis Hrect : rectangular d = true.
Hypothesis Hpos : col_pos column (columns d) = Some i.

Abbreviation dt := (upcast (dtype_of d column) v).

Lemma fixed_unfold F :
  Terms.fixed d column v F
  = Frame (set_dtype i dt (columns d))
          ((λ r, set_cell i (coerce dt (if bool_decide (label r ∈ F)
                                        then v else cell_at i r)) r) <$> rows d).
Proof. unfold Terms.fixed. by rewrite Hpos. Qed.

Lemma at_set_fixes idx : at_set idx column v d = Terms.fixed d column v [idx].
Proof.
  rewrite fixed_unfold. unfold at_set. rewrite Hpos. cbv zeta. f_equal.
  apply list_fmap_ext. intros k r Hr.
  rewrite (bool_decide_ext (label r ∈ [idx]) (label r = idx)) by apply list_elem_of_singleton.
  by destruct (bool_decide (label r = idx)).
Qed.

Lemma fixed_index F : index (Terms.fixed d column v F) = index d.
Proof.
  rewrite fixed_unfold. unfold index. cbn [rows]. rewrite <- list_fmap_compose.
  by apply list_fmap_ext.
Qed.

Lemma fixed_dtype F : dtype_of (Terms.fixed d column v F) column = dt.
Proof.
  rewrite fixed_unfold. unfold dtype_of. cbn [columns].
  rewrite col_pos_set_dtype, Hpos.
  destruct (col_pos_Some _ _ _ Hpos) as [dt0 Hi].
  by rewrite (set_dtype_lookup _ _ _ _ _ Hi).
Qed.

Lemma at_set_fixed idx F :
  at_set idx column v (Terms.fixed d column v F) = Terms.fixed d column v (idx :: F).
Proof.
  unfold at_set. rewrite fixed_dtype. rewrite !fixed_unfold. cbn [columns rows].
  rewrite col_pos_set_dtype, Hpos. cbv zeta. rewrite upcast_idempotent.
  rewrite set_dtype_idempotent. f_equal.
  rewrite <- list_fmap_compose. apply list_fmap_ext. intros k r Hr. cbn [compose].
  assert (Hlen : (i < length (cells r))%nat).
  { eapply rectangular_row; [done| |done]. by eapply list_elem_of_lookup_2. }
  assert (Htwice : ∀ x y, set_cell i x (set_cell i y r) = set_cell i x r).
  { intros x y. unfold set_cell. cbn. by rewrite list_insert_insert_eq. }
  rewrite cell_at_set_cell by done. cbn [label set_cell]. rewrite !Htwice.
  rewrite (bool_decide_ext (label r ∈ idx :: F) (label r = idx ∨ label r ∈ F))
    by apply elem_of_cons.
  destruct (bool_decide (label r = idx)) eqn:Hidx.
  - apply bool_decide_eq_true in Hidx.
    by rewrite (bool_decide_eq_true_2 (label r = idx ∨ _)) by auto.
  - apply bool_decide_eq_false in Hidx.
    rewrite (bool_decide_ext (label r = idx ∨ label r ∈ F) (label r ∈ F)) by tauto.
    by rewrite coerce_idempotent.
Qed.

Lemma fix_each_fixed rest : ∀ F count s,
  working_copy s = Some (Terms.fixed d column v F) →
  ∃ s', Cleaner.fix_each column v rest count s
        = (s', Ok (count + length (Cleaner.hits d rest))%nat)
        ∧ working_copy s' = Some (Terms.fixed d column v (reverse (Cleaner.hits d rest) ++ F))
        ∧ df s' = df s ∧ log s' = log s.
Proof.
  induction rest as [|idx rest IH]; intros F count s Hs.
  - exists s. cbn. rewrite Nat.add_0_r. done.
  - cbn [Cleaner.fix_each]. rewrite (bind_ok _ _ _ _ _ (self_df_ok _ _ Hs)).
    rewrite fixed_index. unfold Cleaner.hits. rewrite filter_cons.
    destruct (decide (idx ∈ index d)) as [Hin|Hin].
    + rewrite (bool_decide_eq_true_2 _ Hin).
      destruct (IH (idx :: F) (S count) (mutate_df (at_set idx column v) s).1)
        as (s' & Hrun & Hw & Hdf & Hlog).
      { rewrite working_copy_mutate, Hs. cbn. by rewrite at_set_fixed. }
      exists s'.
      rewrite (bind_ok (mutate_df (at_set idx column v)) _ s
                 (mutate_df (at_set idx column v) s).1 tt eq_refl).
      rewrite Hrun. split; [do 2 f_equal; cbn [length]; unfold Cleaner.hits; lia|].
      split; [|done]. rewrite Hw. fold (Cleaner.hits d rest).
      by rewrite reverse_cons, <- app_assoc.
    + rewrite (bool_decide_eq_false_2 _ Hin). by apply IH.
Qed.

Lemma fix_each_fixes rest : ∀ count s,
  working_copy s = Some d →
  Cleaner.hits d rest ≠ [] →
  ∃ s', Cleaner.fix_each column v rest count s
        = (s', Ok (count + length (Cleaner.hits d rest))%nat)
        ∧ working_copy s' = Some (Terms.fixed d column v (reverse (Cleaner.hits d rest)))
        ∧ df s' = df s ∧ log s' = log s.
Proof.
  induction rest as [|idx rest IH]; intros count s Hs Hhit; [done|].
  cbn [Cleaner.fix_each]. rewrite (bind_ok _ _ _ _ _ (self_df_ok _ _ Hs)).
  unfold Cleaner.hits in *. rewrite filter_cons in Hhit |- *.
  destruct (decide (idx ∈ index d)) as [Hin|Hin].
  - rewrite (bool_decide_eq_true_2 _ Hin).
    destruct (fix_each_fixed rest [idx] (S count) (mutate_df (at_set idx column v) s).1)
      as (s' & Hrun & Hw & Hdf & Hlog).
    { rewrite working_copy_mutate, Hs. cbn. by rewrite at_set_fixes. }
    exists s'.
    rewrite (bind_ok (mutate_df (at_set idx column v)) _ s
               (mutate_df (at_set idx column v) s).1 tt eq_refl).
    rewrite Hrun. split; [do 2 f_equal; cbn [length]; unfold Cleaner.hits; lia|].
    split; [|done]. rewrite Hw. by rewrite reverse_cons.
  - rewrite (bool_decide_eq_false_2 _ Hin). by apply IH.
Qed.

Lemma fixed_hits idxs :
  Terms.fixed d column v (reverse (Cleaner.hits d idxs)) = Terms.fixed d column v idxs.
Proof.
  rewrite !fixed_unfold. f_equal. apply list_fmap_ext. intros k r Hr. do 2 f_equal.
  rewrite (bool_decide_ext (label r ∈ reverse (Cleaner.hits d idxs)) (label r ∈ idxs));
    [done|].
  rewrite elem_of_reverse. unfold Cleaner.hits.
  rewrite list_elem_of_filter. split; [tauto|]. intros Hin. split; [|done].
  unfold index. apply list_elem_of_fmap. exists r. split; [done|].
  by eapply list_elem_of_lookup_2.
Qed.

Lemma fixed_series F :
  series (Terms.fixed d column v F) column
  = (λ r, coerce dt (if bool_decide (label r ∈ F) then v else cell_at i r)) <$> rows d.
Proof.
  rewrite fixed_unfold. unfold series. cbn [columns rows].
  rewrite col_pos_set_dtype, Hpos. rewrite <- list_fmap_compose.
  apply list_fmap_ext. intros k r Hr. cbn [compose]. apply cell_at_set_cell.
  eapply rectangular_row; [done| |done]. by eapply list_elem_of_lookup_2.
Qed.

End fixed_column.

(** On a column that is there, [fix_invalid_values] with an index that
    labels a row writes the value, in place, into that column of every
    row labelled by one of the indices given, and leaves the other cells
    of the column, held as the widened dtype holds them; the column takes
    the dtype that holds the value as well. The number logged counts the
    indices met, an index given twice twice. *)
Theorem fix_invalid_values_overwrites (column : string) (invalid_indices : list Z)
    (fix_value : cell) (s : component) (d : DataFrame) (i : nat) :
  working_copy s = Some d →
  rectangular d = true →
  col_pos column (columns d) = Some i →
  Cleaner.hits d invalid_indices ≠ [] →
  let dt := upcast (dtype_of d column) fix_value in
  ∃ s' d',
    Cleaner.fix_invalid_values column invalid_indices fix_value s = (s', Ok (df s'))
    ∧ df s' = df s
    ∧ working_copy s' = Some d'
    ∧ d' = Terms.fixed d column fix_value invalid_indices
    ∧ column_names d' = column_names d
    ∧ index d' = index d
    ∧ dtype_of d' column = dt
    ∧ series d' column
      = (λ r, coerce dt (if bool_decide (label r ∈ invalid_indices)
                         then fix_value else cell_at i r)) <$> rows d
    ∧ Cleaner.cleaning_log s'
      = Cleaner.cleaning_log s
        ++ ["Fixed " +:+ pretty (length (Cleaner.hits d invalid_indices))
            +:+ " invalid values in '" +:+ column +:+ "'"].
Proof.
  intros Hs Hrect Hpos Hhit dt. unfold Cleaner.fix_invalid_values.
  destruct (fix_each_fixes d column fix_value i Hrect Hpos invalid_indices 0%nat s Hs Hhit)
    as (s1 & Hrun & Hw & Hdf & Hlog).
  rewrite (bind_ok _ _ _ _ _ Hrun). cbn [Nat.add].
  assert (Hpositive : (0 <? length (Cleaner.hits d invalid_indices))%nat = true).
  { apply Nat.ltb_lt. destruct (Cleaner.hits d invalid_indices); [done|cbn; lia]. }
  rewrite Hpositive. cbn [when].
  unfold mbind, py_bind, bind, log_append, self_ref. cbn.
  eexists (Component _ _ _), _. split; [reflexivity|]. cbn [df].
  split; [done|]. rewrite (fixed_hits d column fix_value i Hpos) in Hw.
  split; [exact Hw|]. split; [done|].
  split; [|split; [|split; [|split]]].
  - rewrite (fixed_unfold d column fix_value i Hpos). unfold column_names. cbn [columns].
    apply set_dtype_names.
  - by apply (fixed_index d column fix_value i).
  - by apply (fixed_dtype d column fix_value i).
  - by apply fixed_series.
  - unfold Cleaner.cleaning_log. cbn. by rewrite Hlog.
Qed.

Lemma fix_invalid_values_overwrites_witness :
  let d := Sample.one_two_null_four "A" in
  let dt := upcast (dtype_of d "A") (VStr "x") in
  ∃ s' d',
    Cleaner.fix_invalid_values "A" [2; 9; 2]%Z (VStr "x") (Sample.holding d)
    = (s', Ok (df s'))
    ∧ df s' = df (Sample.holding d)
    ∧ working_copy s' = Some d'
    ∧ d' = Terms.fixed d "A" (VStr "x") [2; 9; 2]%Z
    ∧ column_names d' = column_names d
    ∧ index d' = index d
    ∧ dtype_of d' "A" = dt
    ∧ series d' "A"
      = (λ r, coerce dt (if bool_decide (label r ∈ [2; 9; 2]%Z)
                         then VStr "x" else cell_at 0 r)) <$> rows d
    ∧ Cleaner.cleaning_log s'
      = Cleaner.cleaning_log (Sample.holding d)
        ++ ["Fixed " +:+ pretty (length (Cleaner.hits d [2; 9; 2]%Z))
            +:+ " invalid values in '" +:+ "A" +:+ "'"].
Proof.
  intros d dt.
  apply (fix_invalid_values_overwrites "A" [2; 9; 2]%Z (VStr "x") (Sample.holding d) d 0);
    [reflexivity|reflexivity|reflexivity|by vm_compute].
Defined.

(** ** Duplicates: what is kept *)

Lemma key_eqb_trans a b c : key_eqb a b = true → key_eqb b c = true → key_eqb a c = true.
Proof.
  destruct a, b, c; cbn; try done.
  - rewrite !Qeq_bool_iff. intros ->. done.
  - rewrite !String.eqb_eq. congruence.
  - rewrite !Z.eqb_eq. congruence.
Qed.

Lemma cells_eqb_trans xs : ∀ ys zs,
  cells_eqb xs ys = true → cells_eqb ys zs = true → cells_eqb xs zs = true.
Proof.
  induction xs as [|x xs IH]; intros [|y ys] [|z zs]; cbn; try done.
  rewrite !andb_true_iff. intros [Hxy Hxys] [Hyz Hyzs]. split.
  - by eapply key_eqb_trans.
  - by eapply IH.
Qed.

Lemma kept_cons seen r rs :
  kept seen (r :: rs)
  = if existsb (cells_eqb (cells r)) seen then kept (cells r :: seen) rs
    else r :: kept (cells r :: seen) rs.
Proof. unfold kept. cbn. by destruct (existsb _ seen). Qed.

(** every row has an equal among the rows seen before or among those kept *)
Lemma kept_represents rs : ∀ seen r,
  r ∈ rs →
  existsb (cells_eqb (cells r)) seen = true
  ∨ ∃ r', r' ∈ kept seen rs ∧ cells_eqb (cells r) (cells r') = true.
Proof.
  induction rs as [|r0 rs IH]; intros seen r Hr; [by apply elem_of_nil in Hr|].
  rewrite kept_cons. apply elem_of_cons in Hr as [->|Hr].
  - destruct (existsb (cells_eqb (cells r0)) seen) eqn:Hseen; [by left|].
    right. exists r0. split; [apply list_elem_of_here|apply cells_eqb_refl].
  - destruct (IH (cells r0 :: seen) r Hr) as [Hs|(r' & Hr' & Heq)].
    + cbn in Hs. apply orb_true_iff in Hs as [Hr0|Hs]; [|by left].
      destruct (existsb (cells_eqb (cells r0)) seen) eqn:Hseen.
      * left. apply existsb_exists in Hseen as (x & Hx & Hr0x).
        apply existsb_exists. exists x. split; [done|]. by eapply cells_eqb_trans.
      * right. exists r0. split; [apply list_elem_of_here|done].
    + right. exists r'. split; [|done].
      destruct (existsb (cells_eqb (cells r0)) seen); [done|].
      by apply list_elem_of_further.
Qed.

Lemma drop_duplicates_represents keep d r :
  keep ≠ keep_False → r ∈ rows d →
  ∃ r', r' ∈ rows (drop_duplicates keep d) ∧ cells_eqb (cells r) (cells r') = true.
Proof.
  intros Hkeep Hr. destruct keep; [| |done].
  - destruct (kept_represents (rows d) [] r Hr) as [Hs|Hk]; [done|exact Hk].
  - rewrite drop_duplicates_last_rows.
    destruct (kept_represents (reverse (rows d)) [] r) as [Hs|(r' & Hr' & Heq)];
      [by apply elem_of_reverse|done|].
    exists r'. split; [by apply elem_of_reverse|done].
Qed.

Lemma remove_duplicates_run keep k s d :
  working_copy s = Some d →
  parse_keep keep = Ok k →
  let d' := drop_duplicates k d in
  let removed := (len d - len d')%nat in
  let l := fresh (dom (heap s)) in
  Cleaner.remove_duplicates keep s
  = (Component (<[l := d']> (heap s)) l
       (if (0 <? removed)%nat
        then log s ++ ["Removed " +:+ pretty removed +:+ " duplicate rows"]
        else log s),
     Ok l).
Proof.
  intros Hd Hk. cbv zeta. unfold Cleaner.remove_duplicates.
  rewrite (bind_ok _ _ _ _ _ (self_df_ok _ _ Hd)). rewrite Hk.
  unfold mbind, py_bind, bind, lift, rebind_df, self_df, self_ref, when. simpl.
  rewrite lookup_insert_eq.
  destruct (0 <? len d - len (drop_duplicates k d))%nat; reflexivity.
Qed.

(** After [remove_duplicates], with ['first'] as with ['last'], no two
    rows of the working copy are equal, and every row of the frame before
    has an equal among them: each distinct row is kept once. The log
    gets a line exactly when a row went. *)
Theorem remove_duplicates_keeps_one_of_each (keep : string) (s : component)
    (d : DataFrame) :
  working_copy s = Some d →
  keep ∈ ["first"; "last"] →
  ∃ s' d',
    Cleaner.remove_duplicates keep s = (s', Ok (df s'))
    ∧ working_copy s' = Some d'
    ∧ (∀ i j x y, i ≠ j → rows d' !! i = Some x → rows d' !! j = Some y →
         cells_eqb (cells x) (cells y) = false)
    ∧ (∀ r, r ∈ rows d →
         ∃ r', r' ∈ rows d' ∧ cells_eqb (cells r) (cells r') = true)
    ∧ Cleaner.cleaning_log s'
      = (if (len d' <? len d)%nat
         then Cleaner.cleaning_log s
              ++ ["Removed " +:+ pretty (len d - len d')%nat +:+ " duplicate rows"]
         else Cleaner.cleaning_log s).
Proof.
  intros Hs Hkeep.
  assert (Hk : ∃ k, parse_keep keep = Ok k ∧ k ≠ keep_False).
  { rewrite !elem_of_cons in Hkeep. destruct Hkeep as [->|[->|Hnil]];
      [by exists keep_first|by exists keep_last|by apply elem_of_nil in Hnil]. }
  destruct Hk as (k & Hparse & Hk).
  rewrite (remove_duplicates_run keep k s d Hs Hparse).
  eexists (Component _ _ _), (drop_duplicates k d). split; [reflexivity|].
  split; [unfold working_copy; cbn; apply lookup_insert_eq|].
  split; [by apply drop_duplicates_distinct|].
  split; [intros r Hr; by apply drop_duplicates_represents|].
  unfold Cleaner.cleaning_log. cbn [log].
  assert (Heq : (0 <? len d - len (drop_duplicates k d))%nat
                = (len (drop_duplicates k d) <? len d)%nat).
  { apply eq_true_iff_eq. rewrite !Nat.ltb_lt. lia. }
  by rewrite Heq.
Qed.

Lemma remove_duplicates_keeps_one_of_each_witness :
  ∃ s' d',
    Cleaner.remove_duplicates "last" (Sample.holding Sample.with_duplicates)
    = (s', Ok (df s'))
    ∧ working_copy s' = Some d'
    ∧ (∀ i j x y, i ≠ j → rows d' !! i = Some x → rows d' !! j = Some y →
         cells_eqb (cells x) (cells y) = false)
    ∧ (∀ r, r ∈ rows Sample.with_duplicates →
         ∃ r', r' ∈ rows d' ∧ cells_eqb (cells r) (cells r') = true)
    ∧ Cleaner.cleaning_log s'
      = (if (len d' <? len Sample.with_duplicates)%nat
         then Cleaner.cleaning_log (Sample.holding Sample.with_duplicates)
              ++ ["Removed " +:+ pretty (len Sample.with_duplicates - len d')%nat
                  +:+ " duplicate rows"]
         else Cleaner.cleaning_log (Sample.holding Sample.with_duplicates)).
Proof.
  apply (remove_duplicates_keeps_one_of_each "last"
           (Sample.holding Sample.with_duplicates) Sample.with_duplicates);
    [reflexivity|].
  rewrite !elem_of_cons. auto.
Defined.



(** ** Outliers: when nothing is removed *)





Lemma as_numbers_text cs t :
  VStr t ∈ cs → as_numbers cs = Raise TypeError.
Proof.
  intros Hin. induction cs as [|c0 cs IH]; [by apply elem_of_nil in Hin|].
  cbn [as_numbers]. apply elem_of_cons in Hin as [Heq|Hin].
  - rewrite <- Heq. cbn. by destruct (as_numbers cs).
  - rewrite (IH Hin). destruct (as_number c0) as [x|e] eqn:H0; [done|].
    destruct c0; cbn in H0; congruence.
Qed.

(** A column that holds a text somewhere cannot be averaged:
    [remove_outliers] raises [TypeError], and the working copy and the log
    are what they were. *)
Theorem remove_outliers_refuses_text (column : string) (threshold : Q)
    (s : component) (d : DataFrame) (t : string) :
  working_copy s = Some d →
  has_column d column = true →
  VStr t ∈ series d column →
  Cleaner.remove_outliers column threshold s = (s, Raise TypeError).
Proof.
  intros Hs Hc Hin. unfold Cleaner.remove_outliers.
  rewrite (bind_ok _ _ _ _ _ (self_df_ok _ _ Hs)). rewrite Hc. cbn [negb].
  by rewrite (as_numbers_text _ _ Hin).
Qed.

Lemma remove_outliers_refuses_text_witness :
  Cleaner.remove_outliers "date" 3 (Sample.holding Sample.bad_date)
  = (Sample.holding Sample.bad_date, Raise TypeError).
Proof.
  apply (remove_outliers_refuses_text "date" 3 _ Sample.bad_date "not a date");
    [reflexivity|reflexivity|].
  apply list_elem_of_here.
Defined.

(** ** The rows of the metadata table *)

Lemma unique_length cs : (length (unique cs) ≤ length cs)%nat.
Proof.
  induction cs as [|c cs IH]; [done|]. cbn [unique length].
  pose proof (length_filter (λ x, cell_eqb c x = false) (unique cs)). lia.
Qed.

Lemma null_count_dropna_length cs :
  (null_count cs + length (dropna_cells cs))%nat = length cs.
Proof.
  unfold null_count, dropna_cells. induction cs as [|c cs IH]; [done|].
  rewrite !filter_cons. destruct (isnull c).
  - rewrite decide_True, decide_False by done. cbn [length]. lia.
  - rewrite decide_False, decide_True by done. cbn [length]. lia.
Qed.

Lemma suggested_role_bucket d column :
  column ∈ column_names d →
  TableauPrep.suggested_role
    (TableauPrep.Suggestions
       (filter (λ c, Terms.bucket d c = TableauPrep.Dimension) (column_names d))
       (filter (λ c, Terms.bucket d c = TableauPrep.Measure) (column_names d))
       (filter (λ c, Terms.bucket d c = TableauPrep.Date) (column_names d)))
    column
  = Terms.bucket d column.
Proof.
  intros Hc. unfold TableauPrep.suggested_role.
  cbn [TableauPrep.dimensions TableauPrep.measures TableauPrep.dates].
  assert (Hb : Terms.bucket d column ≠ TableauPrep.Unknown).
  { unfold Terms.bucket. repeat case_match; done. }
  destruct (Terms.bucket d column) eqn:Hbucket; [| | |done].
  - rewrite bool_decide_eq_true_2; [done|]. by apply list_elem_of_filter.
  - rewrite bool_decide_eq_false_2
      by (rewrite list_elem_of_filter; intros [? _]; congruence).
    rewrite bool_decide_eq_true_2; [done|]. by apply list_elem_of_filter.
  - rewrite !bool_decide_eq_false_2
      by (rewrite list_elem_of_filter; intros [? _]; congruence).
    rewrite bool_decide_eq_true_2; [done|]. by apply list_elem_of_filter.
Qed.

(** [generate_metadata] changes nothing and returns one row per column,
    in column order. The role in a row is the bucket the guide puts the
    column in; the nulls and the distinct values counted in a row are
    together no more than the rows of the frame; the share of nulls is
    [NaN] exactly when the frame has no row; a column that is not [int64]
    or [float64] has ['N/A'] as minimum and maximum. *)
Theorem generate_metadata_rows `{Library} (s : component) (d : DataFrame) :
  working_copy s = Some d →
  ∃ table,
    TableauPrep.generate_metadata s = (s, Ok table)
    ∧ length table = length (columns d)
    ∧ ∀ i column, column_names d !! i = Some column →
        ∃ r, table !! i = Some r
             ∧ TableauPrep.Column_Name r = column
             ∧ TableauPrep.Suggested_Role r = Terms.bucket d column
             ∧ TableauPrep.Null_Count r = null_count (series d column)
             ∧ (TableauPrep.Null_Count r + TableauPrep.Unique_Values r ≤ len d)%nat
             ∧ (TableauPrep.Null_Percentage r = None ↔ len d = 0%nat)
             ∧ (dtype_of d column ∉ [int64; float64] →
                TableauPrep.Min_Value r = VStr "N/A"
                ∧ TableauPrep.Max_Value r = VStr "N/A").
Proof.
  intros Hs. unfold TableauPrep.generate_metadata.
  assert (Hguide : TableauPrep.create_dimension_measure_guide s
                   = (s, Ok (TableauPrep.Suggestions
                        (filter (λ c, Terms.bucket d c = TableauPrep.Dimension)
                           (column_names d))
                        (filter (λ c, Terms.bucket d c = TableauPrep.Measure)
                           (column_names d))
                        (filter (λ c, Terms.bucket d c = TableauPrep.Date)
                           (column_names d))))).
  { unfold TableauPrep.create_dimension_measure_guide, TableauPrep.guide.
    rewrite (bind_ok _ _ _ _ _ (self_df_ok _ _ Hs)). unfold lift.
    by rewrite classify_columns_buckets. }
  rewrite (bind_ok _ _ _ _ _ Hguide), (bind_ok _ _ _ _ _ (self_df_ok _ _ Hs)).
  eexists. split; [reflexivity|]. split.
  { unfold column_names. by rewrite !length_fmap. }
  intros i column Hi. rewrite list_lookup_fmap, Hi. cbn [fmap option_fmap option_map].
  eexists. split; [reflexivity|]. unfold TableauPrep.describe.
  cbn [TableauPrep.Column_Name TableauPrep.Suggested_Role TableauPrep.Null_Count
       TableauPrep.Unique_Values TableauPrep.Null_Percentage TableauPrep.Min_Value
       TableauPrep.Max_Value].
  assert (Hc : column ∈ column_names d) by (by eapply list_elem_of_lookup_2).
  split; [done|]. split; [by apply suggested_role_bucket|]. split; [done|].
  split; [|split].
  - unfold nunique. pose proof (unique_length (dropna_cells (series d column))).
    pose proof (null_count_dropna_length (series d column)).
    rewrite (series_length d column (names_has_column d column Hc)) in *. lia.
  - destruct (len d =? 0)%nat eqn:Hlen.
    + apply Nat.eqb_eq in Hlen. done.
    + apply Nat.eqb_neq in Hlen. done.
  - intros Hdt. rewrite !elem_of_cons in Hdt.
    destruct (dtype_of d column); try done; exfalso; apply Hdt; auto.
Qed.

Lemma generate_metadata_rows_witness :
  ∃ table,
    TableauPrep.generate_metadata (H := Sample.library) (Sample.holding Sample.sales)
    = (Sample.holding Sample.sales, Ok table)
    ∧ length table = length (columns Sample.sales)
    ∧ ∀ i column, column_names Sample.sales !! i = Some column →
        ∃ r, table !! i = Some r
             ∧ TableauPrep.Column_Name r = column
             ∧ TableauPrep.Suggested_Role r = Terms.bucket Sample.sales column
             ∧ TableauPrep.Null_Count r = null_count (series Sample.sales column)
             ∧ (TableauPrep.Null_Count r + TableauPrep.Unique_Values r
                ≤ len Sample.sales)%nat
             ∧ (TableauPrep.Null_Percentage r = None ↔ len Sample.sales = 0%nat)
             ∧ (dtype_of Sample.sales column ∉ [int64; float64] →
                TableauPrep.Min_Value r = VStr "N/A"
                ∧ TableauPrep.Max_Value r = VStr "N/A").
Proof. by apply (generate_metadata_rows (H := Sample.library)). Defined.

(** ** The validator: every check returns, and keeps the report in shape *)

Lemma for_each_ok {S A} (P : S → Prop) (l : list A) (body : A → py S ()) s :
  P s →
  (∀ x s1, x ∈ l → P s1 → ∃ s2, body x s1 = (s2, Ok tt) ∧ P s2) →
  ∃ s', for_each l body s = (s', Ok tt) ∧ P s'.
Proof.
  revert s. induction l as [|x l IH]; intros s Hs Hbody; [by exists s|].
  destruct (Hbody x s) as (s1 & Hx & Hs1); [by apply list_elem_of_here|done|].
  destruct (IH s1 Hs1) as (s' & Hrun & Hs').
  { intros y s2 Hy. apply Hbody. by apply list_elem_of_further. }
  exists s'. split; [|done]. cbn [for_each]. unfold bind. by rewrite Hx.
Qed.

Lemma for_each_skip {S A} (l : list A) (body : A → py S ()) s :
  (∀ x, x ∈ l → body x s = (s, Ok tt)) → for_each l body s = (s, Ok tt).
Proof.
  induction l as [|x l IH]; intros Hbody; [done|].
  cbn [for_each]. unfold bind. rewrite Hbody by apply list_elem_of_here.
  apply IH. intros y Hy. apply Hbody. by apply list_elem_of_further.
Qed.

Import Validator.

Lemma init_shaped d : shaped (issues (init d)).
Proof.
  unfold shaped, init. cbn [issues].
  split; [by vm_compute|]. repeat split; eexists; try split; try reflexivity.
  intros c e Hc. by rewrite lookup_empty in Hc.
Qed.

Lemma dom_insert_present (r : gmap string slot) K v w :
  r !! K = Some w → dom (<[K := v]> r) = dom r.
Proof.
  intros HK. rewrite dom_insert_L. apply subseteq_union_1_L.
  apply singleton_subseteq_l. by eapply elem_of_dom_2.
Qed.

Ltac shaped_insert :=
  match goal with
  | H : shaped _ |- _ =>
      destruct H as (Hdom & [? Hmv] & [? Hdup] & [? Hty] & [? Hout]
                     & (? & Hfmt & ?) & [? Hnames])
  end;
  unfold shaped;
  (split; [erewrite dom_insert_present; [eassumption|eassumption]|]);
  simplify_map_eq; naive_solver.

Lemma shaped_insert_mapping r K m :
  shaped r → K ∈ ["missing_values"; "type_errors"; "outliers"] →
  shaped (<[K := Mapping m]> r).
Proof.
  intros Hr HK.
  rewrite !elem_of_cons in HK. destruct HK as [->|[->|[->|HK]]];
    [| | |by apply not_elem_of_nil in HK]; shaped_insert.
Qed.

Lemma shaped_insert_format r m :
  shaped r → (∀ c e, m !! c = Some e → ∃ errors, e = FormatErrors errors) →
  shaped (<["format_errors" := Mapping m]> r).
Proof. intros Hr Hm. shaped_insert. Qed.

Lemma shaped_insert_sequence r K l :
  shaped r → K ∈ ["duplicates"; "column_name_issues"] →
  shaped (<[K := Sequence l]> r).
Proof.
  intros Hr HK.
  rewrite !elem_of_cons in HK. destruct HK as [->|[->|HK]];
    [| |by apply not_elem_of_nil in HK]; shaped_insert.
Qed.

Lemma shaped_mapping r K :
  shaped r → K ∈ ["missing_values"; "type_errors"; "outliers"; "format_errors"] →
  ∃ m, r !! K = Some (Mapping m).
Proof.
  intros (Hdom & Hmv & Hdup & Hty & Hout & (m & Hfmt & _) & Hnames) HK.
  rewrite !elem_of_cons in HK. destruct HK as [->|[->|[->|[->|HK]]]]; eauto.
  by apply not_elem_of_nil in HK.
Qed.


(** the state after [self.issues[K] = v] *)
Lemma issues_set_writes K v s0 s :
  writes_only K s0 s → shaped (<[K := v]> (issues s)) →
  writes_only K s0 (issues_set K v s).1.
Proof.
  intros (Hdf & _ & Hother) Hshaped. unfold issues_set. cbn.
  split; [done|]. split; [done|]. intros k Hk. cbn. rewrite lookup_insert_ne by done.
  by apply Hother.
Qed.

Lemma writes_only_refl K s : shaped (issues s) → writes_only K s s.
Proof. by intros Hs. Qed.

Lemma mapping_set_runs K column e s0 s :
  writes_only K s0 s →
  K ∈ ["missing_values"; "type_errors"; "outliers"] →
  ∃ s', mapping_set K column e s = (s', Ok tt) ∧ writes_only K s0 s'.
Proof.
  intros Hw HK. pose proof Hw as (_ & Hshaped & _).
  destruct (shaped_mapping (issues s) K Hshaped) as [m Hm].
  { rewrite !elem_of_cons in HK. rewrite !elem_of_cons.
    destruct HK as [?|[?|[?|HK]]]; [auto..|by apply not_elem_of_nil in HK]. }
  unfold mapping_set, issues_mapping, issues_get, mbind, py_bind, bind. rewrite Hm.
  eexists. split; [reflexivity|].
  apply (issues_set_writes K _ s0 s Hw). by apply shaped_insert_mapping.
Qed.

Lemma format_errors_set_runs column errors s0 s :
  writes_only "format_errors" s0 s →
  ∃ s', mapping_set "format_errors" column (FormatErrors errors) s = (s', Ok tt)
        ∧ writes_only "format_errors" s0 s'.
Proof.
  intros Hw. pose proof Hw as (_ & Hshaped & _).
  destruct Hshaped as (_ & _ & _ & _ & _ & (m & Hm & Hentries) & _).
  unfold mapping_set, issues_mapping, issues_get, mbind, py_bind, bind. rewrite Hm.
  eexists. split; [reflexivity|].
  apply (issues_set_writes _ _ s0 s Hw). apply shaped_insert_format; [apply Hw|].
  intros c e. rewrite lookup_insert. case_decide; [|by apply Hentries].
  intros [= <-]. eauto.
Qed.

Lemma check_column_names_runs s :
  shaped (issues s) →
  ∃ s', check_column_names s = (s', Ok tt) ∧ writes_only "column_name_issues" s s'.
Proof.
  intros Hs. unfold check_column_names, mbind, py_bind, bind, self_df, when.
  destruct (negb _); eexists; (split; [reflexivity|]); [|by apply writes_only_refl].
  apply issues_set_writes; [by apply writes_only_refl|].
  apply shaped_insert_sequence; [done|]. rewrite !elem_of_cons. tauto.
Qed.

Lemma check_column_names_nothing s :
  no_name_issues (df s) → check_column_names s = (s, Ok tt).
Proof.
  unfold no_name_issues, check_column_names, mbind, py_bind, bind, self_df.
  by intros ->.
Qed.

Lemma check_missing_values_runs s :
  shaped (issues s) →
  ∃ s', check_missing_values s = (s', Ok tt) ∧ writes_only "missing_values" s s'.
Proof.
  intros Hs. unfold check_missing_values, mbind, py_bind, bind, self_df.
  apply (for_each_ok (writes_only "missing_values" s)); [by apply writes_only_refl|].
  intros column s1 _ Hs1. unfold when.
  destruct (0 <? _)%nat; [|by exists s1].
  apply mapping_set_runs; [done|]. rewrite !elem_of_cons. tauto.
Qed.

Lemma check_missing_values_nothing s :
  no_missing_values (df s) → check_missing_values s = (s, Ok tt).
Proof.
  intros Hnone. unfold check_missing_values, mbind, py_bind, bind, self_df.
  apply for_each_skip. intros column Hcolumn. by rewrite (Hnone column Hcolumn).
Qed.

Lemma check_duplicates_runs s :
  shaped (issues s) →
  ∃ s', check_duplicates s = (s', Ok tt) ∧ writes_only "duplicates" s s'.
Proof.
  intros Hs. unfold check_duplicates, mbind, py_bind, bind, self_df, when.
  destruct (0 <? _)%nat; eexists; (split; [reflexivity|]); [|by apply writes_only_refl].
  apply issues_set_writes; [by apply writes_only_refl|].
  apply shaped_insert_sequence; [done|]. rewrite !elem_of_cons. tauto.
Qed.

Lemma check_duplicates_nothing s :
  no_duplicates (df s) → check_duplicates s = (s, Ok tt).
Proof.
  unfold no_duplicates, check_duplicates, mbind, py_bind, bind, self_df.
  by intros ->.
Qed.

(** *** Numeric columns of a well-formed frame hold numbers *)

Lemma col_pos_lookup (cols : list (string * dtype)) c dt :
  NoDup cols.*1 → (c, dt) ∈ cols →
  ∃ i, col_pos c cols = Some i ∧ cols !! i = Some (c, dt).
Proof.
  induction cols as [|[n dt0] cols IH]; intros Hnd Hin.
  - by apply not_elem_of_nil in Hin.
  - cbn [fmap list_fmap fst] in Hnd. apply NoDup_cons in Hnd as [Hn Hnd].
    cbn [col_pos]. destruct (String.eqb n c) eqn:Hnc.
    + apply String.eqb_eq in Hnc as ->. exists 0%nat. split; [done|].
      apply elem_of_cons in Hin as [[= ->]|Hin]; [done|].
      destruct Hn. apply list_elem_of_fmap. by exists (c, dt).
    + apply String.eqb_neq in Hnc.
      apply elem_of_cons in Hin as [[= -> ->]|Hin]; [done|].
      destruct (IH Hnd Hin) as (i & -> & Hi). by exists (S i).
Qed.

Lemma row_fits_lookup cols : ∀ cs i c dt,
  row_fits cols cs = true → cols !! i = Some (c, dt) →
  fits dt (default NA (cs !! i)) = true.
Proof.
  induction cols as [|[n dt0] cols IH]; intros cs i c dt Hfits Hi; [done|].
  destruct cs as [|x cs]; [done|]. cbn [row_fits] in Hfits.
  apply andb_true_iff in Hfits as [Hx Hcs].
  destruct i as [|i]; [by injection Hi as -> ->|]. by apply (IH cs i c).
Qed.

Lemma as_numbers_ok cs :
  Forall (λ c, ∃ x, as_number c = Ok x) cs → ∃ xs, as_numbers cs = Ok xs.
Proof.
  induction 1 as [|c cs [x Hx] _ [xs Hxs]]; [by exists []|].
  exists (x :: xs). cbn [as_numbers]. by rewrite Hx, Hxs.
Qed.

Lemma numeric_series_ok d column :
  well_formed d = true → column ∈ numeric_cols d →
  ∃ xs, as_numbers (series d column) = Ok xs.
Proof.
  unfold well_formed, numeric_cols. intros [Hnd Hrows]%andb_true_iff Hcol.
  apply bool_decide_eq_true in Hnd.
  apply list_elem_of_fmap in Hcol as ([c dt] & -> & Hin).
  apply list_elem_of_filter in Hin as [Hnum Hin]. cbn [fst snd] in *.
  destruct (col_pos_lookup (columns d) c dt Hnd Hin) as (i & Hpos & Hi).
  unfold series. rewrite Hpos. apply as_numbers_ok, Forall_fmap, Forall_forall.
  intros r Hr. cbn [compose]. rewrite forallb_forall in Hrows.
  assert (Hfit := row_fits_lookup _ _ i c dt (Hrows r (proj1 (list_elem_of_In _ _) Hr)) Hi).
  unfold cell_at. destruct (default NA (cells r !! i)), dt; try done; cbn; eauto.
Qed.

(** *** The other checks *)

Lemma check_numeric_outliers_runs threshold s :
  shaped (issues s) → well_formed (df s) = true →
  ∃ s', check_numeric_outliers threshold s = (s', Ok tt)
        ∧ writes_only "outliers" s s'.
Proof.
  intros Hs Hwf. unfold check_numeric_outliers, mbind, py_bind, bind, self_df.
  apply (for_each_ok (writes_only "outliers" s)); [by apply writes_only_refl|].
  intros column s1 Hcolumn Hs1.
  destruct (len (df s) <? _)%nat; [by exists s1|].
  destruct (numeric_series_ok _ _ Hwf Hcolumn) as [xs ->]. unfold lift, when.
  destruct (std_is_zero _); [by exists s1|].
  destruct (0 <? _)%nat; [|by exists s1].
  apply mapping_set_runs; [done|]. rewrite !elem_of_cons. auto.
Qed.

Lemma check_numeric_outliers_nothing threshold s :
  well_formed (df s) = true → no_outliers threshold (df s) →
  check_numeric_outliers threshold s = (s, Ok tt).
Proof.
  intros Hwf Hnone. unfold check_numeric_outliers, mbind, py_bind, bind, self_df.
  apply for_each_skip. intros column Hcolumn.
  destruct (len (df s) <? _)%nat; [done|].
  destruct (numeric_series_ok _ _ Hwf Hcolumn) as [xs Hxs]. rewrite Hxs. unfold lift.
  destruct (std_is_zero _); [done|]. by rewrite (Hnone column xs Hcolumn Hxs).
Qed.

Section with_library.
Context `{Library}.

Lemma check_email_format_runs s :
  shaped (issues s) →
  ∃ s', check_email_format s = (s', Ok tt) ∧ writes_only "format_errors" s s'.
Proof.
  intros Hs. unfold check_email_format, mbind, py_bind, bind, self_df.
  apply (for_each_ok (writes_only "format_errors" s)); [by apply writes_only_refl|].
  intros column s1 _ Hs1. unfold when.
  destruct (Str.contains _ _); [|by exists s1].
  destruct (negb _); [|by exists s1]. by apply format_errors_set_runs.
Qed.

Lemma check_email_format_nothing s :
  no_invalid_emails (df s) → check_email_format s = (s, Ok tt).
Proof.
  intros Hnone. unfold check_email_format, mbind, py_bind, bind, self_df.
  apply for_each_skip. intros column Hcolumn. unfold when.
  destruct (Str.contains _ _) eqn:Hname; [|done].
  by rewrite (Hnone column Hcolumn Hname).
Qed.

Lemma check_date_format_runs s :
  shaped (issues s) →
  ∃ s', check_date_format s = (s', Ok tt) ∧ writes_only "format_errors" s s'.
Proof.
  intros Hs. unfold check_date_format, mbind, py_bind, bind, self_df.
  apply (for_each_ok (writes_only "format_errors" s)); [by apply writes_only_refl|].
  intros column s1 _ Hs1. unfold when.
  destruct (Str.contains _ _); [|by exists s1].
  destruct (negb _); [|by exists s1].
  pose proof Hs1 as (_ & (_ & _ & _ & _ & _ & (m & Hm & Hentries) & _) & _).
  unfold issues_mapping, issues_get, mbind, py_bind, bind. rewrite Hm.
  unfold mret, py_ret, ret.
  assert (Hset : ∀ errors,
            writes_only "format_errors" s
              (issues_set "format_errors"
                 (Mapping (<[column := FormatErrors errors]> m)) s1).1).
  { intros errors. apply issues_set_writes; [done|].
    apply shaped_insert_format; [apply Hs1|].
    intros c e. rewrite lookup_insert. case_decide; [|by apply Hentries].
    intros [= <-]. eauto. }
  destruct (m !! column) as [e|] eqn:Hcolumn.
  - destruct (Hentries _ _ Hcolumn) as [errors ->]. eexists. split; [reflexivity|].
    apply Hset.
  - eexists. split; [reflexivity|]. apply Hset.
Qed.

Lemma check_date_format_nothing s :
  no_invalid_dates (df s) → check_date_format s = (s, Ok tt).
Proof.
  intros Hnone. unfold check_date_format, mbind, py_bind, bind, self_df.
  apply for_each_skip. intros column Hcolumn. unfold when.
  destruct (Str.contains _ _) eqn:Hname; [|done].
  by rewrite (Hnone column Hcolumn Hname).
Qed.

Lemma check_boolean_consistency_runs s :
  shaped (issues s) →
  ∃ s', check_boolean_consistency s = (s', Ok tt) ∧ writes_only "type_errors" s s'.
Proof.
  intros Hs. unfold check_boolean_consistency, mbind, py_bind, bind, self_df.
  apply (for_each_ok (writes_only "type_errors" s)); [by apply writes_only_refl|].
  intros column s1 _ Hs1. unfold when.
  destruct (dtype_eqb _ _); [|by exists s1].
  destruct (mixed_booleans _); [|by exists s1].
  apply mapping_set_runs; [done|]. rewrite !elem_of_cons. auto.
Qed.

Lemma check_boolean_consistency_nothing s :
  no_mixed_booleans (df s) → check_boolean_consistency s = (s, Ok tt).
Proof.
  intros Hnone. unfold check_boolean_consistency, mbind, py_bind, bind, self_df.
  apply for_each_skip. intros column Hcolumn. unfold when.
  destruct (dtype_eqb _ _) eqn:Hdt; [|done].
  by rewrite (Hnone column Hcolumn Hdt).
Qed.

End with_library.

(** carries a slot back over the checks that do not write it *)
Ltac carry :=
  repeat match goal with
    | Hw : writes_only ?K ?s ?s' |- context [issues ?s' !! ?k] =>
        rewrite (proj2 (proj2 Hw) k) by done
    end.

(** C7. On a well-formed frame [validate_all] raises nothing and returns
    [self.issues], a dict with the six keys, each holding a dict or a list
    as [__init__] set it up; a slot whose checks found nothing still holds
    its empty dict or empty list. *)
Theorem validate_all_total `{Library} (d : DataFrame) :
  well_formed d = true →
  ∃ s' report,
    validate_all (init d) = (s', Ok report)
    ∧ report = issues s'
    ∧ df s' = d
    ∧ dom report = report_keys
    ∧ shaped report
    ∧ (no_name_issues d → report !! "column_name_issues" = Some (Sequence []))
    ∧ (no_missing_values d → report !! "missing_values" = Some (Mapping ∅))
    ∧ (no_duplicates d → report !! "duplicates" = Some (Sequence []))
    ∧ (no_outliers 3 d → report !! "outliers" = Some (Mapping ∅))
    ∧ (no_invalid_emails d → no_invalid_dates d →
       report !! "format_errors" = Some (Mapping ∅))
    ∧ (no_mixed_booleans d → report !! "type_errors" = Some (Mapping ∅)).
Proof.
  intros Hwf. set (s0 := init d).
  destruct (check_column_names_runs s0 (init_shaped d)) as (s1 & Hr1 & Hw1).
  destruct (check_missing_values_runs s1 (proj1 (proj2 Hw1))) as (s2 & Hr2 & Hw2).
  destruct (check_duplicates_runs s2 (proj1 (proj2 Hw2))) as (s3 & Hr3 & Hw3).
  assert (Hd3 : df s3 = d).
  { by rewrite (proj1 Hw3), (proj1 Hw2), (proj1 Hw1). }
  destruct (check_numeric_outliers_runs 3 s3 (proj1 (proj2 Hw3))) as (s4 & Hr4 & Hw4);
    [by rewrite Hd3|].
  destruct (check_email_format_runs s4 (proj1 (proj2 Hw4))) as (s5 & Hr5 & Hw5).
  destruct (check_date_format_runs s5 (proj1 (proj2 Hw5))) as (s6 & Hr6 & Hw6).
  destruct (check_boolean_consistency_runs s6 (proj1 (proj2 Hw6))) as (s7 & Hr7 & Hw7).
  assert (Hd : df s7 = d ∧ df s6 = d ∧ df s5 = d ∧ df s4 = d ∧ df s2 = d ∧ df s1 = d).
  { rewrite (proj1 Hw7), (proj1 Hw6), (proj1 Hw5), (proj1 Hw4), Hd3,
      (proj1 Hw2), (proj1 Hw1). done. }
  destruct Hd as (Hd7 & Hd6 & Hd5 & Hd4 & Hd2 & Hd1).
  exists s7, (issues s7). split.
  { unfold validate_all.
    rewrite (bind_ok _ _ _ _ _ Hr1), (bind_ok _ _ _ _ _ Hr2), (bind_ok _ _ _ _ _ Hr3),
      (bind_ok _ _ _ _ _ Hr4), (bind_ok _ _ _ _ _ Hr5), (bind_ok _ _ _ _ _ Hr6),
      (bind_ok _ _ _ _ _ Hr7). reflexivity. }
  split; [done|]. split; [done|]. split; [apply Hw7|]. split; [apply Hw7|].
  repeat split.
  - intros Hnone. carry.
    rewrite check_column_names_nothing in Hr1 by done. by injection Hr1 as <-.
  - intros Hnone. carry.
    rewrite check_missing_values_nothing in Hr2 by by rewrite Hd1.
    injection Hr2 as <-. by carry.
  - intros Hnone. carry.
    rewrite check_duplicates_nothing in Hr3 by by rewrite Hd2.
    injection Hr3 as <-. by carry.
  - intros Hnone. carry.
    rewrite check_numeric_outliers_nothing in Hr4 by by rewrite Hd3.
    injection Hr4 as <-. by carry.
  - intros Hemails Hdates. carry.
    rewrite check_date_format_nothing in Hr6 by by rewrite Hd5.
    injection Hr6 as <-.
    rewrite check_email_format_nothing in Hr5 by by rewrite Hd4.
    injection Hr5 as <-. by carry.
  - intros Hnone.
    rewrite check_boolean_consistency_nothing in Hr7 by by rewrite Hd6.
    injection Hr7 as <-. by carry.
Qed.

Lemma validate_all_total_witness :
  ∃ s' report,
    validate_all (H := Sample.library) (init Sample.sales) = (s', Ok report)
    ∧ report = issues s'
    ∧ df s' = Sample.sales
    ∧ dom report = report_keys
    ∧ shaped report
    ∧ (no_name_issues Sample.sales →
       report !! "column_name_issues" = Some (Sequence []))
    ∧ (no_missing_values Sample.sales →
       report !! "missing_values" = Some (Mapping ∅))
    ∧ (no_duplicates Sample.sales → report !! "duplicates" = Some (Sequence []))
    ∧ (no_outliers 3 Sample.sales → report !! "outliers" = Some (Mapping ∅))
    ∧ (no_invalid_emails (H := Sample.library) Sample.sales →
       no_invalid_dates (H := Sample.library) Sample.sales →
       report !! "format_errors" = Some (Mapping ∅))
    ∧ (no_mixed_booleans (H := Sample.library) Sample.sales →
       report !! "type_errors" = Some (Mapping ∅)).
Proof.
  apply (validate_all_total (H := Sample.library) Sample.sales).
  reflexivity.
Defined.

(** ** The outlier check on five tens and a thousand *)

(** C2, as the code has it. For the column [[10, 10, 10, 10, 10, 1000]]
    the mean is 175 and the sample standard deviation is the square root
    of 163350, about 404.2; the score of 1000, [|1000 - 175| / std], is
    about 2.04 and does not exceed 3, so the check with threshold 3.0 flags
    nothing and leaves the [outliers] slot empty. The rule is the one
    stated: with threshold 2.0 the check flags one value, the 1000 in the
    row of index 5. *)
Theorem thousand_among_tens_scores :
  let xs := [Some 10; Some 10; Some 10; Some 10; Some 10; Some 1000]%Q in
  as_numbers (series Sample.tens_and_thousand "amount") = Ok xs
  ∧ mean xs = Some 175%Q
  ∧ std_squared xs = Some 163350%Q
  ∧ zscore_gt (Some 1000%Q) (mean xs) (std_squared xs) 3 = false
  ∧ ¬ (Rabs ((Q2R 1000 - Q2R 175) / sqrt (Q2R 163350)) > Q2R 3)%R
  ∧ check_numeric_outliers 3 (init Sample.tens_and_thousand)
    = (init Sample.tens_and_thousand, Ok tt)
  ∧ issues (check_numeric_outliers 2 (init Sample.tens_and_thousand)).1 !! "outliers"
    = Some (Mapping {[ "amount" := OutlierInfo 1 [VInt 1000] [5%Z] ]}).
Proof.
  repeat split; try (vm_compute; reflexivity).
  intros Hgt. apply zscore_gt_real in Hgt; [|done]. vm_compute in Hgt. discriminate.
Qed.

(** C2 as it is stated fails: with threshold 3.0 the check flags nothing
    in [[10, 10, 10, 10, 10, 1000]], and the [outliers] slot stays empty. *)
Lemma thousand_among_tens_not_flagged :
  check_numeric_outliers 3 (init Sample.tens_and_thousand)
  = (init Sample.tens_and_thousand, Ok tt)
  ∧ issues (init Sample.tens_and_thousand) !! "outliers" = Some (Mapping ∅)
  ∧ zscore_gt (Some 1000%Q) (Some 175%Q) (Some 163350%Q) 3 = false.
Proof. repeat split; vm_compute; reflexivity. Qed.

(** ** Running the validator twice *)

Lemma bad_date_invalid `{Library} :
  to_datetime (VStr "not a date") = None →
  invalid_dates Sample.bad_date "date" = [(0%Z, "not a date")].
Proof.
  intros Hbad. unfold invalid_dates, invalid_items. cbn. by rewrite Hbad.
Qed.

Lemma bad_date_other_checks `{Library} s :
  df s = Sample.bad_date →
  check_column_names s = (s, Ok tt) ∧ check_missing_values s = (s, Ok tt)
  ∧ check_duplicates s = (s, Ok tt) ∧ check_numeric_outliers 3 s = (s, Ok tt)
  ∧ check_email_format s = (s, Ok tt) ∧ check_boolean_consistency s = (s, Ok tt).
Proof.
  intros Hs. repeat split.
  - apply check_column_names_nothing. rewrite Hs. reflexivity.
  - unfold check_missing_values, mbind, py_bind, bind, self_df. rewrite Hs. reflexivity.
  - apply check_duplicates_nothing. rewrite Hs. reflexivity.
  - unfold check_numeric_outliers, mbind, py_bind, bind, self_df. rewrite Hs. reflexivity.
  - unfold check_email_format, mbind, py_bind, bind, self_df. rewrite Hs. reflexivity.
  - unfold check_boolean_consistency, mbind, py_bind, bind, self_df. rewrite Hs. reflexivity.
Qed.

Lemma bad_date_validate_all `{Library} s s' :
  df s = Sample.bad_date → df s' = Sample.bad_date →
  check_date_format s = (s', Ok tt) →
  validate_all s = (s', Ok (issues s')).
Proof.
  intros Hs Hs' Hrun.
  destruct (bad_date_other_checks s Hs) as (H1 & H2 & H3 & H4 & H5 & _).
  destruct (bad_date_other_checks s' Hs') as (_ & _ & _ & _ & _ & H6).
  unfold validate_all.
  rewrite (bind_ok _ _ _ _ _ H1), (bind_ok _ _ _ _ _ H2), (bind_ok _ _ _ _ _ H3),
    (bind_ok _ _ _ _ _ H4), (bind_ok _ _ _ _ _ H5), (bind_ok _ _ _ _ _ Hrun),
    (bind_ok _ _ _ _ _ H6).
  reflexivity.
Qed.

(** C1, on the code. A frame with a column named as a date that holds one
    text the library cannot read as a date: the first run of
    [validate_all] records the value once, the second run on the same
    validator appends it again to the list the first run left in
    [self.issues], and the two reports differ. *)
Theorem validate_all_twice_accumulates `{Library} :
  to_datetime (VStr "not a date") = None →
  ∃ s1 r1 s2 r2,
    validate_all (init Sample.bad_date) = (s1, Ok r1)
    ∧ validate_all s1 = (s2, Ok r2)
    ∧ r1 !! "format_errors"
      = Some (Mapping {[ "date" := FormatErrors [(0%Z, "not a date")] ]})
    ∧ r2 !! "format_errors"
      = Some (Mapping {[ "date" := FormatErrors [(0%Z, "not a date");
                                                (0%Z, "not a date")] ]})
    ∧ r1 ≠ r2.
Proof.
  intros Hbad. pose proof (bad_date_invalid Hbad) as Hinv.
  set (once := Validator_ Sample.bad_date
                 (<["format_errors" :=
                      Mapping {[ "date" := FormatErrors [(0%Z, "not a date")] ]}]>
                    (issues (init Sample.bad_date)))).
  set (twice := Validator_ Sample.bad_date
                  (<["format_errors" :=
                       Mapping {[ "date" := FormatErrors [(0%Z, "not a date");
                                                          (0%Z, "not a date")] ]}]>
                     (issues (init Sample.bad_date)))).
  assert (Hfirst : check_date_format (init Sample.bad_date) = (once, Ok tt)).
  { unfold check_date_format, mbind, py_bind, bind, self_df.
    cbn [df init column_names Sample.bad_date Sample.single columns fmap list_fmap fst
         for_each].
    rewrite Hinv. reflexivity. }
  assert (Hsecond : check_date_format once = (twice, Ok tt)).
  { unfold check_date_format, mbind, py_bind, bind, self_df.
    cbn [df once column_names Sample.bad_date Sample.single columns fmap list_fmap fst
         for_each].
    rewrite Hinv. reflexivity. }
  exists once, (issues once), twice, (issues twice).
  split; [by apply bad_date_validate_all|].
  split; [by apply bad_date_validate_all|].
  split; [reflexivity|]. split; [reflexivity|].
  intros Heq. apply (f_equal (λ r, r !! "format_errors")) in Heq.
  vm_compute in Heq. discriminate.
Qed.

Lemma validate_all_twice_accumulates_witness :
  ∃ s1 r1 s2 r2,
    validate_all (H := Sample.library) (init Sample.bad_date) = (s1, Ok r1)
    ∧ validate_all (H := Sample.library) s1 = (s2, Ok r2)
    ∧ r1 !! "format_errors"
      = Some (Mapping {[ "date" := FormatErrors [(0%Z, "not a date")] ]})
    ∧ r2 !! "format_errors"
      = Some (Mapping {[ "date" := FormatErrors [(0%Z, "not a date");
                                                (0%Z, "not a date")] ]})
    ∧ r1 ≠ r2.
Proof.
  apply (validate_all_twice_accumulates (H := Sample.library)).
  reflexivity.
Defined.

(** ** What the checks write *)

Lemma for_each_ext {S A} (l : list A) (f g : A → py S ()) :
  (∀ x s, x ∈ l → f x s = g x s) → ∀ s, for_each l f s = for_each l g s.
Proof.
  induction l as [|x l IH]; intros Hfg s; [done|].
  cbn [for_each]. unfold bind. rewrite (Hfg x s) by apply list_elem_of_here.
  destruct (g x s) as [s' [[]|e]]; [|done].
  apply IH. intros y s1 Hy. by apply Hfg, list_elem_of_further.
Qed.

Lemma validator_eta s : Validator_ (df s) (issues s) = s.
Proof. by destruct s. Qed.

Lemma recorded_lookup cond f cols : ∀ m c,
  Terms.recorded cond f cols m !! c
  = if bool_decide (c ∈ cols) && cond c then Some (f c) else m !! c.
Proof.
  unfold Terms.recorded.
  induction cols as [|c0 cols IH]; intros m c; [done|]. cbn [foldl]. rewrite IH.
  destruct (decide (c ∈ cols)) as [Hin|Hin].
  - rewrite (bool_decide_eq_true_2 _ Hin).
    rewrite (bool_decide_eq_true_2 (c ∈ c0 :: cols)) by (by apply list_elem_of_further).
    cbn [andb]. destruct (cond c) eqn:Hc; [done|].
    destruct (cond c0) eqn:Hc0; [|done].
    rewrite lookup_insert_ne; [done|]. intros ->. congruence.
  - rewrite (bool_decide_eq_false_2 _ Hin). cbn [andb].
    destruct (decide (c = c0)) as [->|Hne].
    + rewrite (bool_decide_eq_true_2 (c0 ∈ c0 :: cols)) by apply list_elem_of_here.
      cbn [andb]. destruct (cond c0); [by rewrite lookup_insert_eq|done].
    + rewrite (bool_decide_eq_false_2 (c ∈ c0 :: cols))
        by (rewrite elem_of_cons; tauto).
      cbn [andb]. destruct (cond c0); [by rewrite lookup_insert_ne|done].
Qed.

(** run again on what it left, a loop leaves the same *)
Lemma recorded_idempotent cond f cols m :
  Terms.recorded cond f cols (Terms.recorded cond f cols m)
  = Terms.recorded cond f cols m.
Proof.
  apply map_eq. intros c. rewrite !recorded_lookup.
  by destruct (bool_decide (c ∈ cols) && cond c).
Qed.

Lemma recorded_dom cond f cols : ∀ m,
  dom (Terms.recorded cond f cols m) = dom m ∪ list_to_set (filter (λ c, cond c = true) cols).
Proof.
  unfold Terms.recorded.
  induction cols as [|c cols IH]; intros m; cbn [foldl].
  - rewrite filter_nil. cbn [list_to_set]. by rewrite union_empty_r_L.
  - rewrite IH, filter_cons. destruct (cond c) eqn:Hc.
    + rewrite decide_True by done. cbn [list_to_set]. rewrite dom_insert_L.
      rewrite (union_comm_L {[c]} (dom m)). by rewrite union_assoc_L.
    + by rewrite decide_False by done.
Qed.

(** the loop that sets an entry under each column that meets a condition *)
Lemma recording_runs K cond f cols : ∀ s m,
  issues s !! K = Some (Mapping m) →
  for_each cols (λ c, when (cond c) (mapping_set K c (f c))) s
  = (Validator_ (df s) (<[K := Mapping (Terms.recorded cond f cols m)]> (issues s)),
     Ok tt).
Proof.
  unfold Terms.recorded.
  induction cols as [|c cols IH]; intros s m Hm.
  - cbn. by rewrite insert_id, validator_eta.
  - cbn [for_each foldl]. unfold bind. destruct (cond c); cbn [when].
    + unfold mapping_set, issues_mapping, issues_get, mbind, py_bind, bind. rewrite Hm.
      cbn. rewrite (IH _ (<[c := f c]> m)) by (cbn; apply lookup_insert_eq).
      cbn. by rewrite insert_insert_eq.
    + cbn. by apply IH.
Qed.

Lemma extended_entries cond f cols : ∀ m,
  (∀ c e, m !! c = Some e → ∃ errors, e = FormatErrors errors) →
  ∀ c e, Terms.extended cond f cols m !! c = Some e → ∃ errors, e = FormatErrors errors.
Proof.
  unfold Terms.extended.
  induction cols as [|c0 cols IH]; intros m Hm; [done|]. cbn [foldl].
  apply IH. destruct (cond c0); [|done]. intros c e.
  rewrite lookup_insert. case_decide; [|by apply Hm]. intros [= <-]. eauto.
Qed.

Section with_library.
Context `{Library}.

(** the loop of [check_date_format] *)
Lemma extending_runs d cols : ∀ s m,
  issues s !! "format_errors" = Some (Mapping m) →
  (∀ c e, m !! c = Some e → ∃ errors, e = FormatErrors errors) →
  for_each cols (λ column,
    when (Str.contains "date" (Str.lower column))
      (let invalid_dates := invalid_dates d column in
       when (negb (bool_decide (invalid_dates = [])))
         (m ← issues_mapping "format_errors";
          match m !! column with
          | None =>
              issues_set "format_errors" (Mapping (<[column := FormatErrors invalid_dates]> m))
          | Some (FormatErrors errors) =>
              issues_set "format_errors"
                (Mapping (<[column := FormatErrors (errors ++ invalid_dates)]> m))
          | Some _ => raise TypeError
          end))) s
  = (Validator_ (df s)
       (<["format_errors" :=
            Mapping (Terms.extended (Terms.has_invalid_dates d) (invalid_dates d) cols m)]>
          (issues s)),
     Ok tt).
Proof.
  unfold Terms.extended.
  induction cols as [|c cols IH]; intros s m Hm Hentries.
  - cbn. by rewrite insert_id, validator_eta.
  - cbn [for_each foldl]. unfold bind, Terms.has_invalid_dates at 2.
    destruct (Str.contains "date" (Str.lower c)); cbn [when andb]; [|by apply IH].
    destruct (negb (bool_decide (invalid_dates d c = []))); cbn [when]; [|by apply IH].
    unfold issues_mapping, issues_get, mbind, py_bind, bind. rewrite Hm.
    unfold mret, py_ret, ret. unfold Terms.errors_at.
    assert (Hnext : ∀ errors,
              (∀ c' e, <[c := FormatErrors errors]> m !! c' = Some e →
                       ∃ errors', e = FormatErrors errors')).
    { intros errors c' e. rewrite lookup_insert. case_decide; [|by apply Hentries].
      intros [= <-]. eauto. }
    destruct (m !! c) as [e|] eqn:Hc.
    + destruct (Hentries _ _ Hc) as [errors ->]. cbn.
      rewrite (IH _ (<[c := FormatErrors (errors ++ invalid_dates d c)]> m))
        by (cbn; first [apply lookup_insert_eq|apply Hnext]).
      cbn. by rewrite insert_insert_eq.
    + cbn.
      rewrite (IH _ (<[c := FormatErrors (invalid_dates d c)]> m))
        by (cbn; first [apply lookup_insert_eq|apply Hnext]).
      cbn. by rewrite insert_insert_eq.
Qed.

End with_library.

(** *** Each check, as a whole *)

Lemma check_column_names_writes s :
  check_column_names s
  = (if bool_decide (name_issues (df s) = []) then s
     else Validator_ (df s)
            (<["column_name_issues" := Sequence (name_issues (df s))]> (issues s)),
     Ok tt).
Proof.
  unfold check_column_names, mbind, py_bind, bind, self_df, when, issues_set.
  by destruct (bool_decide _).
Qed.

Lemma check_missing_values_writes s m :
  issues s !! "missing_values" = Some (Mapping m) →
  check_missing_values s
  = (Validator_ (df s)
       (<["missing_values" :=
            Mapping (Terms.recorded (Terms.has_nulls (df s)) (Terms.missing_info (df s))
                       (column_names (df s)) m)]> (issues s)),
     Ok tt).
Proof.
  intros Hm. unfold check_missing_values, mbind, py_bind, bind, self_df.
  exact (recording_runs "missing_values" (Terms.has_nulls (df s))
           (Terms.missing_info (df s)) (column_names (df s)) s m Hm).
Qed.

Lemma check_duplicates_writes s :
  check_duplicates s
  = (if (0 <? len (boolean_index (df s) (duplicated keep_False (df s))))%nat
     then Validator_ (df s)
            (<["duplicates" :=
                 Sequence (Record_ <$> to_dict_records
                             (boolean_index (df s) (duplicated keep_False (df s))))]>
               (issues s))
     else s,
     Ok tt).
Proof.
  unfold check_duplicates, mbind, py_bind, bind, self_df, when, issues_set.
  by destruct (0 <? _)%nat.
Qed.

Lemma check_numeric_outliers_writes threshold s m :
  well_formed (df s) = true →
  issues s !! "outliers" = Some (Mapping m) →
  check_numeric_outliers threshold s
  = (Validator_ (df s)
       (<["outliers" :=
            Mapping (Terms.recorded (Terms.has_outliers threshold (df s))
                       (Terms.outlier_info threshold (df s))
                       (numeric_cols (df s)) m)]> (issues s)),
     Ok tt).
Proof.
  intros Hwf Hm. unfold check_numeric_outliers, mbind, py_bind, bind, self_df.
  rewrite <- (recording_runs "outliers" _ _ _ s m Hm).
  apply for_each_ext. intros column s1 Hcolumn.
  unfold Terms.has_outliers, Terms.outlier_info, Terms.outliers_of.
  destruct (numeric_series_ok _ _ Hwf Hcolumn) as [xs ->].
  destruct (len (df s) <? _)%nat; [done|]. cbn [negb andb lift].
  by destruct (std_is_zero _).
Qed.

Section with_library.
Context `{Library}.

Lemma check_email_format_writes s m :
  issues s !! "format_errors" = Some (Mapping m) →
  check_email_format s
  = (Validator_ (df s)
       (<["format_errors" :=
            Mapping (Terms.recorded (Terms.has_invalid_emails (df s))
                       (λ c, FormatErrors (invalid_emails (df s) c))
                       (column_names (df s)) m)]> (issues s)),
     Ok tt).
Proof.
  intros Hm. unfold check_email_format, mbind, py_bind, bind, self_df.
  rewrite <- (recording_runs "format_errors" _ _ _ s m Hm).
  apply for_each_ext. intros column s1 _. unfold Terms.has_invalid_emails.
  by destruct (Str.contains _ _).
Qed.

Lemma check_date_format_writes s m :
  issues s !! "format_errors" = Some (Mapping m) →
  (∀ c e, m !! c = Some e → ∃ errors, e = FormatErrors errors) →
  check_date_format s
  = (Validator_ (df s)
       (<["format_errors" :=
            Mapping (Terms.extended (Terms.has_invalid_dates (df s))
                       (invalid_dates (df s)) (column_names (df s)) m)]> (issues s)),
     Ok tt).
Proof.
  intros Hm Hentries. unfold check_date_format, mbind at 1, py_bind, bind at 1, self_df.
  by apply extending_runs.
Qed.

Lemma check_boolean_consistency_writes s m :
  issues s !! "type_errors" = Some (Mapping m) →
  check_boolean_consistency s
  = (Validator_ (df s)
       (<["type_errors" :=
            Mapping (Terms.recorded (Terms.has_mixed_booleans (df s))
                       (λ c, TypeErrorInfo "Inconsistent boolean format"
                               (unique_strings (series (df s) c)))
                       (column_names (df s)) m)]> (issues s)),
     Ok tt).
Proof.
  intros Hm. unfold check_boolean_consistency, mbind, py_bind, bind, self_df.
  rewrite <- (recording_runs "type_errors" _ _ _ s m Hm).
  apply for_each_ext. intros column s1 _. unfold Terms.has_mixed_booleans.
  by destruct (dtype_eqb _ _).
Qed.

End with_library.

(** ** The columns with nulls *)




(** ** The rows recorded as duplicates *)

(** [check_duplicates] records the rows that have an equal elsewhere in
    the frame, both the first of a group and the later ones, in row
    order; when there is none the slot is left as it is. *)
Theorem check_duplicates_records (s : DataValidator) :
  ∃ mask,
    length mask = len (df s)
    ∧ (∀ i r, rows (df s) !! i = Some r →
         ∃ b, mask !! i = Some b ∧ (b = true ↔ Terms.has_twin (rows (df s)) i r))
    ∧ check_duplicates s
      = (if (0 <? len (boolean_index (df s) mask))%nat
         then Validator_ (df s)
                (<["duplicates" :=
                     Sequence (Record_ <$> to_dict_records (boolean_index (df s) mask))]>
                   (issues s))
         else s,
         Ok tt).
Proof.
  exists (duplicated keep_False (df s)). split; [|split].
  - unfold duplicated, duplicated_rows, len.
    rewrite length_zip_with, length_reverse, !seen_before_length, length_reverse. lia.
  - intros i r Hi. by apply duplicated_False_lookup.
  - apply check_duplicates_writes.
Qed.

(** After [remove_duplicates], with ['first'] as with ['last'], a
    validator of the working copy finds no duplicate: [check_duplicates]
    leaves its report as it is. *)
Theorem no_duplicates_after_removal (keep : string) (s : component) (d : DataFrame) :
  working_copy s = Some d →
  keep ∈ ["first"; "last"] →
  ∃ s' d',
    Cleaner.remove_duplicates keep s = (s', Ok (Objects.df s'))
    ∧ working_copy s' = Some d'
    ∧ no_duplicates d'
    ∧ ∀ v, df v = d' → check_duplicates v = (v, Ok tt).
Proof.
  intros Hs Hkeep.
  assert (Hk : ∃ k, parse_keep keep = Ok k ∧ k ≠ keep_False).
  { rewrite !elem_of_cons in Hkeep. destruct Hkeep as [->|[->|Hnil]];
      [by exists keep_first|by exists keep_last|by apply elem_of_nil in Hnil]. }
  destruct Hk as (k & Hparse & Hk).
  rewrite (remove_duplicates_run keep k s d Hs Hparse).
  eexists (Component _ _ _), (drop_duplicates k d). split; [reflexivity|].
  split; [unfold working_copy; cbn; apply lookup_insert_eq|].
  assert (Hnone : no_duplicates (drop_duplicates k d)).
  { unfold no_duplicates, len, boolean_index, duplicated. cbn [rows].
    rewrite no_twin_no_duplicates; [done|]. by apply drop_duplicates_distinct. }
  split; [done|]. intros v Hv. apply check_duplicates_nothing. by rewrite Hv.
Qed.

Lemma no_duplicates_after_removal_witness :
  ∃ s' d',
    Cleaner.remove_duplicates "first" (Sample.holding Sample.with_duplicates)
    = (s', Ok (Objects.df s'))
    ∧ working_copy s' = Some d'
    ∧ no_duplicates d'
    ∧ ∀ v, df v = d' → check_duplicates v = (v, Ok tt).
Proof.
  apply (no_duplicates_after_removal "first" (Sample.holding Sample.with_duplicates)
           Sample.with_duplicates); [reflexivity|].
  rewrite !elem_of_cons. auto.
Defined.

(** ** Cleaned names under the name check *)

Lemma clean_name_no_space col : Str.has_char " " (TableauPrep.clean_name col) = false.
Proof. apply plain_no_char; [done|apply clean_name_plain]. Qed.

(** a cleaned name may still be reported for its casing: a word that
    starts with a digit keeps its letters in lower case, which is not title
    case *)
Lemma cleaned_name_problems (col : string) :
  name_problems (TableauPrep.clean_name col) = []
  ∨ name_problems (TableauPrep.clean_name col) = ["inconsistent casing"].
Proof.
  unfold name_problems. rewrite clean_name_no_space.
  rewrite remove_char_plain by apply clean_name_plain. cbn [app].
  destruct (_ && _ && _); auto.
Qed.

(** After [clean_column_names] the name check finds no space and no
    special character in any column name of the working copy: what
    [check_column_names] still lists is listed for its casing only. *)
Theorem cleaned_names_under_name_check (s : component) (d : DataFrame) :
  working_copy s = Some d →
  ∃ s' d',
    TableauPrep.clean_column_names s = (s', Ok (Objects.df s))
    ∧ working_copy s' = Some d'
    ∧ column_names d' = TableauPrep.clean_name <$> column_names d
    ∧ ∀ column problems,
        NameIssue column problems ∈ name_issues d' →
        problems = ["inconsistent casing"].
Proof.
  intros Hs. destruct (clean_column_names_run s d Hs) as (s' & Hrun & Hw & _).
  exists s', (Frame ((λ c, (TableauPrep.clean_name c.1, c.2)) <$> columns d) (rows d)).
  split; [done|]. split; [done|].
  assert (Hnames : column_names
                     (Frame ((λ c, (TableauPrep.clean_name c.1, c.2)) <$> columns d) (rows d))
                   = TableauPrep.clean_name <$> column_names d).
  { unfold column_names. cbn [columns]. rewrite <- !list_fmap_compose.
    by apply list_fmap_ext. }
  split; [done|]. intros column problems Hin. unfold name_issues in Hin.
  rewrite Hnames in Hin. apply list_elem_of_omap in Hin as (col & Hcol & Hsome).
  apply list_elem_of_fmap in Hcol as (c0 & -> & _). cbv zeta in Hsome.
  destruct (cleaned_name_problems c0) as [Hnone|Hcasing].
  - rewrite Hnone in Hsome. done.
  - rewrite Hcasing in Hsome. cbn in Hsome. by injection Hsome as _ <-.
Qed.

Lemma cleaned_names_under_name_check_witness :
  ∃ s' d',
    TableauPrep.clean_column_names (Sample.holding Sample.sales)
    = (s', Ok (Objects.df (Sample.holding Sample.sales)))
    ∧ working_copy s' = Some d'
    ∧ column_names d' = TableauPrep.clean_name <$> column_names Sample.sales
    ∧ ∀ column problems,
        NameIssue column problems ∈ name_issues d' →
        problems = ["inconsistent casing"].
Proof.
  by apply (cleaned_names_under_name_check (Sample.holding Sample.sales) Sample.sales).
Defined.

(** ** The report of a whole run *)

Lemma extended_none cond f cols : ∀ m,
  (∀ c, c ∈ cols → cond c = false) → Terms.extended cond f cols m = m.
Proof.
  unfold Terms.extended. induction cols as [|c cols IH]; intros m Hnone; [done|].
  cbn [foldl]. rewrite (Hnone c) by apply list_elem_of_here.
  apply IH. intros c' Hc'. by apply Hnone, list_elem_of_further.
Qed.

Lemma extended_dom cond f cols : ∀ m,
  dom (Terms.extended cond f cols m)
  = dom m ∪ list_to_set (filter (λ c, cond c = true) cols).
Proof.
  unfold Terms.extended.
  induction cols as [|c cols IH]; intros m; cbn [foldl].
  - rewrite filter_nil. cbn [list_to_set]. by rewrite union_empty_r_L.
  - rewrite IH, filter_cons. destruct (cond c) eqn:Hc.
    + rewrite decide_True by done. cbn [list_to_set]. rewrite dom_insert_L.
      rewrite (union_comm_L {[c]} (dom m)). by rewrite union_assoc_L.
    + by rewrite decide_False by done.
Qed.

Lemma recorded_entries cond (f : string → list (Z * string)) cols : ∀ m,
  (∀ c e, m !! c = Some e → ∃ errors, e = FormatErrors errors) →
  ∀ c e, Terms.recorded cond (λ c, FormatErrors (f c)) cols m !! c = Some e →
         ∃ errors, e = FormatErrors errors.
Proof.
  intros m Hm c e. rewrite recorded_lookup.
  destruct (_ && _); [|by apply Hm]. intros [= <-]. eauto.
Qed.

Section with_library.
Context `{Library}.

(** the seven checks in sequence, from a report in its shape *)
Lemma validate_all_writes d r m1 m2 m3 m4 :
  well_formed d = true →
  r !! "missing_values" = Some (Mapping m1) →
  r !! "outliers" = Some (Mapping m2) →
  r !! "format_errors" = Some (Mapping m3) →
  (∀ c e, m3 !! c = Some e → ∃ errors, e = FormatErrors errors) →
  r !! "type_errors" = Some (Mapping m4) →
  let dups := boolean_index d (duplicated keep_False d) in
  let r1 := if bool_decide (name_issues d = []) then r
            else <["column_name_issues" := Sequence (name_issues d)]> r in
  let r2 := <["missing_values" :=
                Mapping (Terms.recorded (Terms.has_nulls d) (Terms.missing_info d)
                           (column_names d) m1)]> r1 in
  let r3 := if (0 <? len dups)%nat
            then <["duplicates" := Sequence (Record_ <$> to_dict_records dups)]> r2
            else r2 in
  let r4 := <["outliers" :=
                Mapping (Terms.recorded (Terms.has_outliers 3 d) (Terms.outlier_info 3 d)
                           (numeric_cols d) m2)]> r3 in
  let e5 := Terms.recorded (Terms.has_invalid_emails d)
              (λ c, FormatErrors (invalid_emails d c)) (column_names d) m3 in
  let r5 := <["format_errors" := Mapping e5]> r4 in
  let r6 := <["format_errors" :=
                Mapping (Terms.extended (Terms.has_invalid_dates d) (invalid_dates d)
                           (column_names d) e5)]> r5 in
  let r7 := <["type_errors" :=
                Mapping (Terms.recorded (Terms.has_mixed_booleans d)
                           (λ c, TypeErrorInfo "Inconsistent boolean format"
                                   (unique_strings (series d c)))
                           (column_names d) m4)]> r6 in
  validate_all (Validator_ d r) = (Validator_ d r7, Ok r7).
Proof.
  intros Hwf H1 H2 H3 Hentries H4 dups r1 r2 r3 r4 e5 r5 r6 r7.
  unfold validate_all.
  rewrite (bind_ok _ _ _ _ _ (check_column_names_writes (Validator_ d r))). cbn [df issues].
  assert (Hs1 : (if bool_decide (name_issues d = []) then Validator_ d r
                 else Validator_ d (<["column_name_issues" := Sequence (name_issues d)]> r))
                = Validator_ d r1).
  { unfold r1. by destruct (bool_decide _). }
  rewrite Hs1.
  assert (L1 : r1 !! "missing_values" = Some (Mapping m1)).
  { unfold r1. destruct (bool_decide _); [done|]. by rewrite lookup_insert_ne. }
  rewrite (bind_ok _ _ _ _ _ (check_missing_values_writes (Validator_ d r1) m1 L1)). cbn [df issues].
  fold r2. rewrite (bind_ok _ _ _ _ _ (check_duplicates_writes (Validator_ d r2))). cbn [df issues].
  assert (Hs3 : (if (0 <? len (boolean_index d (duplicated keep_False d)))%nat
                 then Validator_ d
                        (<["duplicates" :=
                             Sequence (Record_ <$> to_dict_records
                                         (boolean_index d (duplicated keep_False d)))]> r2)
                 else Validator_ d r2)
                = Validator_ d r3).
  { unfold r3, dups. by destruct (0 <? _)%nat. }
  rewrite Hs3.
  assert (L2 : r3 !! "outliers" = Some (Mapping m2)).
  { unfold r3, r2, r1.
    destruct (0 <? _)%nat, (bool_decide _); by rewrite ?lookup_insert_ne by done. }
  rewrite (bind_ok _ _ _ _ _ (check_numeric_outliers_writes 3 (Validator_ d r3) m2 Hwf L2)).
  cbn [df issues]. fold r4.
  assert (L3 : r4 !! "format_errors" = Some (Mapping m3)).
  { unfold r4, r3, r2, r1.
    destruct (0 <? _)%nat, (bool_decide _); by rewrite ?lookup_insert_ne by done. }
  rewrite (bind_ok _ _ _ _ _ (check_email_format_writes (Validator_ d r4) m3 L3)). cbn [df issues].
  fold e5 r5.
  assert (L5 : r5 !! "format_errors" = Some (Mapping e5)) by apply lookup_insert_eq.
  rewrite (bind_ok _ _ _ _ _
             (check_date_format_writes (Validator_ d r5) e5 L5
                (recorded_entries _ _ _ _ Hentries))).
  cbn [df issues]. fold r6.
  assert (L4 : r6 !! "type_errors" = Some (Mapping m4)).
  { unfold r6, r5, r4, r3, r2, r1.
    destruct (0 <? _)%nat, (bool_decide _); by rewrite ?lookup_insert_ne by done. }
  rewrite (bind_ok _ _ _ _ _ (check_boolean_consistency_writes (Validator_ d r6) m4 L4)).
  cbn [df issues]. fold r7. reflexivity.
Qed.

End with_library.

Section with_library.
Context `{Library}.

Lemma validate_all_slots d r m1 m2 m3 m4 :
  well_formed d = true →
  r !! "missing_values" = Some (Mapping m1) →
  r !! "outliers" = Some (Mapping m2) →
  r !! "format_errors" = Some (Mapping m3) →
  (∀ c e, m3 !! c = Some e → ∃ errors, e = FormatErrors errors) →
  r !! "type_errors" = Some (Mapping m4) →
  ∃ report,
    validate_all (Validator_ d r) = (Validator_ d report, Ok report)
    ∧ ∀ k, report !! k = Terms.report_slot d k (r !! k).
Proof.
  intros Hwf H1 H2 H3 Hentries H4.
  pose proof (validate_all_writes d r m1 m2 m3 m4 Hwf H1 H2 H3 Hentries H4) as Hrun.
  cbv zeta in Hrun. eexists. split; [exact Hrun|].
  intros k. unfold Terms.report_slot.
  destruct (bool_decide (name_issues d = [])) eqn:Hnames,
    (0 <? len (boolean_index d (duplicated keep_False d)))%nat eqn:Hdups;
    repeat case_decide; subst;
    rewrite ?H1, ?H2, ?H3, ?H4; cbn [Terms.mapping_of];
    repeat first [rewrite lookup_insert_eq | rewrite lookup_insert_ne by done];
    done.
Qed.

Lemma no_invalid_dates_extended d m :
  no_invalid_dates d →
  Terms.extended (Terms.has_invalid_dates d) (invalid_dates d) (column_names d) m = m.
Proof.
  intros Hnone. apply extended_none. intros c Hc. unfold Terms.has_invalid_dates.
  destruct (Str.contains "date" (Str.lower c)) eqn:Hname; [|done].
  by rewrite (Hnone c Hc Hname).
Qed.

(** run on what a run left, every slot comes out as it went in *)
Lemma report_slot_idempotent d k old :
  no_invalid_dates d →
  Terms.report_slot d k (Terms.report_slot d k old) = Terms.report_slot d k old.
Proof.
  intros Hnone. unfold Terms.report_slot. repeat case_decide; try done.
  - by destruct (bool_decide _).
  - cbn [Terms.mapping_of]. by rewrite recorded_idempotent.
  - by destruct (0 <? _)%nat.
  - cbn [Terms.mapping_of]. by rewrite recorded_idempotent.
  - cbn [Terms.mapping_of]. rewrite !no_invalid_dates_extended by done.
    by rewrite recorded_idempotent.
  - cbn [Terms.mapping_of]. by rewrite recorded_idempotent.
Qed.

Lemma report_slot_mapping d k old :
  k ∈ ["missing_values"; "outliers"; "format_errors"; "type_errors"] →
  ∃ m, Terms.report_slot d k old = Some (Mapping m)
       ∧ (k = "format_errors" →
          (∀ c e, Terms.mapping_of old !! c = Some e → ∃ errors, e = FormatErrors errors) →
          ∀ c e, m !! c = Some e → ∃ errors, e = FormatErrors errors).
Proof.
  intros Hk. rewrite !elem_of_cons in Hk. unfold Terms.report_slot.
  destruct Hk as [->|[->|[->|[->|Hnil]]]]; [| | | |by apply elem_of_nil in Hnil];
    repeat (case_decide; [done|]); rewrite decide_True by done;
    (eexists; split; [reflexivity|]); try done.
  intros _ Hold. by apply extended_entries, recorded_entries.
Qed.

End with_library.



(** On a well-formed frame in which [check_date_format] finds nothing, a
    second run of [validate_all] on the same validator returns the report
    the first run returned, and leaves the validator as the first run
    left it. *)
Theorem validate_all_twice_same `{Library} (d : DataFrame) :
  well_formed d = true →
  no_invalid_dates d →
  ∃ s1 r1,
    validate_all (init d) = (s1, Ok r1)
    ∧ validate_all s1 = (s1, Ok r1).
Proof.
  intros Hwf Hdates.
  destruct (validate_all_slots d (issues (init d)) ∅ ∅ ∅ ∅ Hwf) as (r1 & Hrun1 & Hslots1);
    [done..|].
  assert (Hmapping : ∀ k,
            k ∈ ["missing_values"; "outliers"; "format_errors"; "type_errors"] →
            ∃ m, r1 !! k = Some (Mapping m)
                 ∧ (k = "format_errors" →
                    ∀ c e, m !! c = Some e → ∃ errors, e = FormatErrors errors)).
  { intros k Hk. destruct (report_slot_mapping d k (issues (init d) !! k) Hk)
      as (m & Hm & Hentries).
    exists m. rewrite Hslots1. split; [done|]. intros ->. by apply Hentries. }
  destruct (Hmapping "missing_values") as (m1 & H1 & _); [rewrite !elem_of_cons; auto|].
  destruct (Hmapping "outliers") as (m2 & H2 & _); [rewrite !elem_of_cons; auto|].
  destruct (Hmapping "format_errors") as (m3 & H3 & Hentries);
    [rewrite !elem_of_cons; auto|].
  destruct (Hmapping "type_errors") as (m4 & H4 & _); [rewrite !elem_of_cons; auto 6|].
  destruct (validate_all_slots d r1 m1 m2 m3 m4 Hwf H1 H2 H3 (Hentries eq_refl) H4)
    as (r2 & Hrun2 & Hslots2).
  assert (Hsame : r2 = r1).
  { apply map_eq. intros k. rewrite Hslots2, Hslots1.
    by apply report_slot_idempotent. }
  rewrite Hsame in Hrun2. exists (Validator_ d r1), r1. done.
Qed.

Lemma validate_all_twice_same_witness :
  ∃ s1 r1,
    validate_all (H := Sample.library) (init Sample.tens_and_thousand) = (s1, Ok r1)
    ∧ validate_all (H := Sample.library) s1 = (s1, Ok r1).
Proof.
  apply (validate_all_twice_same (H := Sample.library) Sample.tens_and_thousand);
    [reflexivity|].
  intros column Hcolumn Hname. apply list_elem_of_singleton in Hcolumn as ->.
  by vm_compute in Hname.
Defined.

(** ** The summary *)

Lemma recorded_size cond f cols :
  NoDup cols →
  size (Terms.recorded cond f cols ∅) = length (filter (λ c, cond c = true) cols).
Proof.
  intros Hnd. rewrite <- size_dom, recorded_dom, dom_empty_L, union_empty_l_L.
  apply size_list_to_set. by apply NoDup_filter.
Qed.

Lemma extended_recorded_size cond1 f1 cond2 f2 cols :
  NoDup cols →
  size (Terms.extended cond2 f2 cols (Terms.recorded cond1 f1 cols ∅))
  = length (filter (λ c, cond1 c || cond2 c = true) cols).
Proof.
  intros Hnd.
  rewrite <- size_dom, extended_dom, recorded_dom, dom_empty_L, union_empty_l_L.
  rewrite <- (size_list_to_set (C := gset string)) by (by apply NoDup_filter).
  f_equal. apply set_eq. intros c.
  rewrite elem_of_union, !elem_of_list_to_set, !list_elem_of_filter, orb_true_iff.
  tauto.
Qed.

Lemma numeric_cols_NoDup d : NoDup (column_names d) → NoDup (numeric_cols d).
Proof.
  intros Hnd. unfold numeric_cols. apply (sublist_NoDup _ _ Hnd).
  unfold column_names. apply fmap_sublist, sublist_filter.
Qed.

(** After [validate_all] on a well-formed frame [get_summary] returns,
    and counts columns, not cells: the columns that have a null, the
    numeric columns that have an outlier, the columns that have an
    invalid e-mail or an invalid date, the names listed, the columns with
    mixed boolean spellings. Only [duplicate_rows] counts rows: those
    that have an equal elsewhere, the first of a group included. *)
Theorem get_summary_counts `{Library} (d : DataFrame) :
  well_formed d = true →
  ∃ s' report,
    validate_all (init d) = (s', Ok report)
    ∧ get_summary s'
      = (s',
         Ok {| s_missing_values :=
                 length (filter (λ c, Terms.has_nulls d c = true) (column_names d));
               s_duplicate_rows := len (boolean_index d (duplicated keep_False d));
               s_columns_with_outliers :=
                 length (filter (λ c, Terms.has_outliers 3 d c = true) (numeric_cols d));
               s_format_errors :=
                 length (filter (λ c, Terms.has_invalid_emails d c
                                      || Terms.has_invalid_dates d c = true)
                           (column_names d));
               s_column_name_issues := length (name_issues d);
               s_type_errors :=
                 length (filter (λ c, Terms.has_mixed_booleans d c = true)
                           (column_names d));
               s_total_rows := len d;
               s_total_columns := length (columns d) |}).
Proof.
  intros Hwf.
  destruct (validate_all_slots d (issues (init d)) ∅ ∅ ∅ ∅ Hwf) as (r & Hrun & Hslots);
    [done..|].
  exists (Validator_ d r), r. split; [exact Hrun|].
  assert (Hnd : NoDup (column_names d)).
  { unfold well_formed in Hwf. apply andb_true_iff in Hwf as [Hnd _].
    by apply bool_decide_eq_true in Hnd. }
  assert (Hlen : ∀ k v,
            Terms.report_slot d k (issues (init d) !! k) = Some v →
            slot_len k (Validator_ d r)
            = (Validator_ d r,
               Ok match v with Mapping m => size m | Sequence l => length l end)).
  { intros k v Hk. unfold slot_len, issues_get, mbind, py_bind, bind. cbn [issues].
    rewrite Hslots, Hk. by destruct v. }
  assert (H1 : slot_len "missing_values" (Validator_ d r)
               = (Validator_ d r,
                  Ok (length (filter (λ c, Terms.has_nulls d c = true) (column_names d))))).
  { rewrite <- (recorded_size _ (Terms.missing_info d) _ Hnd).
    by apply (Hlen "missing_values" (Mapping _)). }
  assert (H2 : slot_len "duplicates" (Validator_ d r)
               = (Validator_ d r, Ok (len (boolean_index d (duplicated keep_False d))))).
  { destruct (0 <? len (boolean_index d (duplicated keep_False d)))%nat eqn:Hdups.
    - rewrite (Hlen "duplicates"
                 (Sequence (Record_ <$> to_dict_records
                              (boolean_index d (duplicated keep_False d)))));
        [|unfold Terms.report_slot; rewrite !decide_False, decide_True by done;
          cbv zeta; by rewrite Hdups].
      unfold to_dict_records, len. by rewrite !length_fmap.
    - rewrite (Hlen "duplicates" (Sequence []));
        [|unfold Terms.report_slot; rewrite !decide_False, decide_True by done;
          cbv zeta; by rewrite Hdups].
      apply Nat.ltb_ge in Hdups. cbn [length]. do 2 f_equal. lia. }
  assert (H3 : slot_len "outliers" (Validator_ d r)
               = (Validator_ d r,
                  Ok (length (filter (λ c, Terms.has_outliers 3 d c = true)
                                (numeric_cols d))))).
  { rewrite <- (recorded_size _ (Terms.outlier_info 3 d) _ (numeric_cols_NoDup d Hnd)).
    by apply (Hlen "outliers" (Mapping _)). }
  assert (H4 : slot_len "format_errors" (Validator_ d r)
               = (Validator_ d r,
                  Ok (length (filter (λ c, Terms.has_invalid_emails d c
                                           || Terms.has_invalid_dates d c = true)
                                (column_names d))))).
  { rewrite <- (extended_recorded_size _ (λ c, FormatErrors (invalid_emails d c))
                  _ (invalid_dates d) _ Hnd).
    by apply (Hlen "format_errors" (Mapping _)). }
  assert (H5 : slot_len "column_name_issues" (Validator_ d r)
               = (Validator_ d r, Ok (length (name_issues d)))).
  { destruct (bool_decide (name_issues d = [])) eqn:Hnames.
    - rewrite (Hlen "column_name_issues" (Sequence []));
        [|unfold Terms.report_slot; rewrite decide_True by done; by rewrite Hnames].
      apply bool_decide_eq_true in Hnames. by rewrite Hnames.
    - by rewrite (Hlen "column_name_issues" (Sequence (name_issues d)));
        [|unfold Terms.report_slot; rewrite decide_True by done; by rewrite Hnames]. }
  assert (H6 : slot_len "type_errors" (Validator_ d r)
               = (Validator_ d r,
                  Ok (length (filter (λ c, Terms.has_mixed_booleans d c = true)
                                (column_names d))))).
  { rewrite <- (recorded_size _
                  (λ c, TypeErrorInfo "Inconsistent boolean format"
                          (unique_strings (series d c))) _ Hnd).
    by apply (Hlen "type_errors" (Mapping _)). }
  unfold get_summary.
  rewrite (bind_ok _ _ _ _ _ H1), (bind_ok _ _ _ _ _ H2), (bind_ok _ _ _ _ _ H3),
    (bind_ok _ _ _ _ _ H4), (bind_ok _ _ _ _ _ H5), (bind_ok _ _ _ _ _ H6).
  reflexivity.
Qed.

Lemma get_summary_counts_witness :
  ∃ s' report,
    validate_all (H := Sample.library) (init Sample.sales) = (s', Ok report)
    ∧ get_summary s'
      = (s',
         Ok {| s_missing_values :=
                 length (filter (λ c, Terms.has_nulls Sample.sales c = true)
                           (column_names Sample.sales));
               s_duplicate_rows :=
                 len (boolean_index Sample.sales (duplicated keep_False Sample.sales));
               s_columns_with_outliers :=
                 length (filter (λ c, Terms.has_outliers 3 Sample.sales c = true)
                           (numeric_cols Sample.sales));
               s_format_errors :=
                 length (filter (λ c, Terms.has_invalid_emails (H := Sample.library)
                                        Sample.sales c
                                      || Terms.has_invalid_dates (H := Sample.library)
                                           Sample.sales c = true)
                           (column_names Sample.sales));
               s_column_name_issues := length (name_issues Sample.sales);
               s_type_errors :=
                 length (filter (λ c, Terms.has_mixed_booleans (H := Sample.library)
                                        Sample.sales c = true)
                           (column_names Sample.sales));
               s_total_rows := len Sample.sales;
               s_total_columns := length (columns Sample.sales) |}).
Proof. by apply (get_summary_counts (H := Sample.library) Sample.sales). Defined.

(** ** The e-mail pattern *)

Lemma split_at_sign_app l local rest :
  split_at_sign l = Some (local, rest) → l = local ++ "@"%char :: rest.
Proof.
  revert local. induction l as [|a l IH]; intros local; [done|]. cbn [split_at_sign].
  destruct (Ascii.eqb a "@") eqn:Ha.
  - intros [= <- <-]. by apply Ascii.eqb_eq in Ha as ->.
  - destruct (split_at_sign l) as [[before after]|]; [|done]. cbn.
    intros [= <- <-]. cbn. f_equal. by apply IH.
Qed.

Lemma split_at_sign_first local rest :
  Forall (λ a, is_local_char a = true) local →
  split_at_sign (local ++ "@"%char :: rest) = Some (local, rest).
Proof.
  induction 1 as [|a local Ha _ IH]; cbn [app split_at_sign].
  - by rewrite Ascii.eqb_refl.
  - destruct (Ascii.eqb a "@") eqn:Hat; [apply Ascii.eqb_eq in Hat as ->; done|].
    by rewrite IH.
Qed.

Lemma split_last_dot_app l : ∀ domain tld,
  split_last_dot l = Some (domain, tld) → l = domain ++ "."%char :: tld.
Proof.
  induction l as [|a l IH]; intros domain tld; [done|]. cbn [split_last_dot].
  destruct (split_last_dot l) as [[before after]|].
  - intros [= <- <-]. cbn. f_equal. by apply IH.
  - destruct (Ascii.eqb a ".") eqn:Ha; [|done].
    intros [= <- <-]. by apply Ascii.eqb_eq in Ha as ->.
Qed.

Lemma split_last_dot_none tld :
  Forall (λ a, Str.is_alpha a = true) tld → split_last_dot tld = None.
Proof.
  induction 1 as [|a tld Ha _ IH]; [done|]. cbn [split_last_dot]. rewrite IH.
  destruct (Ascii.eqb a ".") eqn:Hdot; [apply Ascii.eqb_eq in Hdot as ->; done|done].
Qed.

Lemma split_last_dot_last domain tld :
  Forall (λ a, Str.is_alpha a = true) tld →
  split_last_dot (domain ++ "."%char :: tld) = Some (domain, tld).
Proof.
  intros Htld. induction domain as [|a domain IH]; cbn [app split_last_dot].
  - by rewrite (split_last_dot_none tld Htld).
  - by rewrite IH.
Qed.

Lemma forallb_true_Forall {A} (f : A → bool) l :
  forallb f l = true ↔ Forall (λ a, f a = true) l.
Proof.
  induction l as [|a l IH]; cbn; [by split; [constructor|]|].
  rewrite andb_true_iff, Forall_cons. by rewrite IH.
Qed.

(** The pattern of [check_email_format] accepts exactly the texts made,
    up to one final newline, of a local part, an at sign, a domain, a
    dot and an ending: the local part not empty and of letters, digits
    and [._%+-]; the domain not empty and of letters, digits, dots and
    hyphens; the ending of two letters or more. However a text may be
    cut that way, it is cut at its first at sign and its last dot. *)
Theorem email_match_shape (s : string) :
  email_match s = true
  ↔ ∃ local domain tld,
      drop_final_newline (String.list_ascii_of_string s)
      = local ++ "@"%char :: domain ++ "."%char :: tld
      ∧ local ≠ []
      ∧ Forall (λ a, is_local_char a = true) local
      ∧ domain ≠ []
      ∧ Forall (λ a, is_domain_char a = true) domain
      ∧ (2 ≤ length tld)%nat
      ∧ Forall (λ a, Str.is_alpha a = true) tld.
Proof.
  unfold email_match. split.
  - destruct (split_at_sign _) as [[local rest]|] eqn:Hat; [|done].
    destruct (split_last_dot rest) as [[domain tld]|] eqn:Hdot;
      [|by rewrite andb_false_r].
    rewrite !andb_true_iff, !negb_true_iff, !bool_decide_eq_false, !forallb_true_Forall,
      Nat.leb_le.
    intros [[Hlocal Hchars] [[[Hdomain Hdchars] Hlen] Htld]].
    exists local, domain, tld.
    rewrite (split_at_sign_app _ _ _ Hat), (split_last_dot_app _ _ _ Hdot). done.
  - intros (local & domain & tld & -> & Hlocal & Hchars & Hdomain & Hdchars & Hlen & Htld).
    rewrite (split_at_sign_first _ _ Hchars), (split_last_dot_last _ _ Htld).
    rewrite !andb_true_iff, !negb_true_iff, !bool_decide_eq_false, !forallb_true_Forall,
      Nat.leb_le.
    done.
Qed.

(** ** Columns the outlier check passes over *)


